(** * pushback: the decision core of the backup tool, embedded in Rocq

    Shallow embedding of [pushback.py]: the pattern matcher
    ([matches_any], [iter_large_files]), the include expansion
    ([parent_dirs_for], [create_rsync_files]), the time bucketer
    ([get_time_suffix]), the collision policy ([handle_collision]), the
    part of [backup_to_server] that determines the remote directory and
    builds the [rsync] command, the remote listings ([ssh_list_all],
    [ssh_list_siblings]), the ignore files, and the steps of [main] that
    choose the servers, handle the large files and run the servers.

    Python [str] values are modelled as [string], sequences of 8-bit
    characters: [Py.strip], [Py.lower] and [splitlines] are the methods of
    Python on ASCII text.  Python [int] is [Z], lists are [list].  Code
    that reads the terminal or may raise runs in a small state-and-error
    monad [M] over a [World]; a remote server is what it answers to the
    scripts the program sends. *)

From Stdlib Require Import ZArith List Bool Lia Ascii String.
From Stdlib Require Import DecimalString DecimalPos DecimalZ.
Import ListNotations.

Open Scope string_scope.
Open Scope Z_scope.

(** ** Python built-ins used by the program *)

Module Py.

(** [s.startswith(p)] *)
Definition startswith (s p : string) : bool := String.prefix p s.

(** [str(n)] for an [int]. *)
Definition str (n : Z) : string := NilZero.string_of_int (Z.to_int n).

Fixpoint zeros (k : nat) : string :=
  match k with
  | O => ""
  | S k' => String "0" (zeros k')
  end.

(** [format(n, "02d")]: sign, then zeros up to a total width of two, then
    the digits. *)
Definition format_02d (n : Z) : string :=
  let digits := str (Z.abs n) in
  let sign := if n <? 0 then "-" else "" in
  sign ++ zeros (2 - String.length sign - String.length digits) ++ digits.

Definition chars (s : string) : list ascii := list_ascii_of_string s.
Definition of_chars (l : list ascii) : string := string_of_list_ascii l.

(** [s.replace(old, new)] for one-character [old] and [new]. *)
Definition replace (s : string) (old new : ascii) : string :=
  of_chars (map (fun c => if Ascii.eqb c old then new else c) (chars s)).

Fixpoint dropwhile (f : ascii -> bool) (l : list ascii) : list ascii :=
  match l with
  | [] => []
  | c :: l' => if f c then dropwhile f l' else l
  end.

(** [s.lstrip(c)] and [s.rstrip(c)] for a one-character argument. *)
Definition lstrip_char (s : string) (c : ascii) : string :=
  of_chars (dropwhile (Ascii.eqb c) (chars s)).
Definition rstrip_char (s : string) (c : ascii) : string :=
  of_chars (rev (dropwhile (Ascii.eqb c) (rev (chars s)))).

(** The ASCII characters for which [str.isspace] holds: TAB, LF, VT, FF,
    CR, the separators FS, GS, RS, US, and the space. *)
Definition isspace (c : ascii) : bool :=
  let n := N_of_ascii c in
  (((9 <=? n) && (n <=? 13)) || ((28 <=? n) && (n <=? 32)))%N.

(** [s.strip()] *)
Definition strip (s : string) : string :=
  of_chars (rev (dropwhile isspace (rev (dropwhile isspace (chars s))))).

(** [s.lower()] on ASCII letters. *)
Definition lower_char (c : ascii) : ascii :=
  let n := N_of_ascii c in
  if ((65 <=? n) && (n <=? 90))%N then ascii_of_N (n + 32) else c.
Definition lower (s : string) : string := of_chars (map lower_char (chars s)).

(** [s.split(sep)] for a one-character separator: the pieces between the
    separators, empty pieces included. *)
Fixpoint split_chars (sep : ascii) (cur : list ascii) (l : list ascii)
  : list string :=
  match l with
  | [] => [of_chars (rev cur)]
  | c :: l' =>
      if Ascii.eqb c sep then of_chars (rev cur) :: split_chars sep [] l'
      else split_chars sep (c :: cur) l'
  end.
Definition split (s : string) (sep : ascii) : list string :=
  split_chars sep [] (chars s).

(** [s[n:]] *)
Definition slice_from (s : string) (n : nat) : string :=
  of_chars (skipn n (chars s)).

(** [sep.join(parts)] *)
Definition join (sep : string) (parts : list string) : string :=
  String.concat sep parts.

(** [bool(s)] for a string: non-empty. *)
Definition truthy (s : string) : bool :=
  match s with
  | EmptyString => false
  | String _ _ => true
  end.

End Py.

(** ** [datetime]: the calendar arithmetic of CPython's [datetime] module *)

Module Datetime.

(** A reading of the local clock, [datetime.now()].  [timestamp] is the
    whole number of seconds [int(now.timestamp())]; how it relates to the
    calendar fields depends on the local time zone and is left open. *)
Record datetime : Type := mk_datetime {
  year : Z;
  month : Z;
  day : Z;
  hour : Z;
  minute : Z;
  second : Z;
  timestamp : Z
}.

Definition _is_leap (y : Z) : bool :=
  (y mod 4 =? 0) && (negb (y mod 100 =? 0) || (y mod 400 =? 0)).

Definition _days_before_year (y : Z) : Z :=
  let y1 := y - 1 in
  y1 * 365 + y1 / 4 - y1 / 100 + y1 / 400.

Definition _days_in_month (y m : Z) : Z :=
  if (m =? 2) && _is_leap y then 29
  else nth (Z.to_nat m) [-1; 31; 28; 31; 30; 31; 30; 31; 31; 30; 31; 30; 31] 0.

(** The table [_DAYS_BEFORE_MONTH]. *)
Definition _DAYS_BEFORE_MONTH : list Z :=
  [-1; 0; 31; 59; 90; 120; 151; 181; 212; 243; 273; 304; 334].

Definition _days_before_month (y m : Z) : Z :=
  nth (Z.to_nat m) _DAYS_BEFORE_MONTH 0
  + (if (2 <? m) && _is_leap y then 1 else 0).

Definition _ymd2ord (y m d : Z) : Z :=
  _days_before_year y + _days_before_month y m + d.

Definition toordinal (t : datetime) : Z :=
  _ymd2ord (year t) (month t) (day t).

(** [weekday()]: Monday is 0. *)
Definition weekday (t : datetime) : Z := (toordinal t + 6) mod 7.

Definition _isoweek1monday (y : Z) : Z :=
  let THURSDAY := 3 in
  let firstday := _ymd2ord y 1 1 in
  let firstweekday := (firstday + 6) mod 7 in
  let week1monday := firstday - firstweekday in
  if THURSDAY <? firstweekday then week1monday + 7 else week1monday.

(** [isocalendar()]: (ISO year, ISO week, ISO weekday). *)
Definition isocalendar (t : datetime) : Z * Z * Z :=
  let y := year t in
  let week1monday := _isoweek1monday y in
  let today := toordinal t in
  let week := (today - week1monday) / 7 in
  let d := (today - week1monday) mod 7 in
  if week <? 0 then
    let y' := y - 1 in
    let week1monday' := _isoweek1monday y' in
    (y', (today - week1monday') / 7 + 1, (today - week1monday') mod 7 + 1)
  else if 52 <=? week then
    if _isoweek1monday (y + 1) <=? today then (y + 1, 0 + 1, d + 1)
    else (y, week + 1, d + 1)
  else (y, week + 1, d + 1).

(** The values a [datetime] object can hold. *)
Definition valid (t : datetime) : Prop :=
  1 <= year t <= 9999 /\ 1 <= month t <= 12 /\
  1 <= day t <= _days_in_month (year t) (month t) /\
  0 <= hour t <= 23 /\ 0 <= minute t <= 59 /\ 0 <= second t <= 59.

End Datetime.
Import Datetime.

(** ** Exceptions and the monad of the effectful code *)

Inductive exn : Type :=
| ZeroDivisionError
| EOFError
| IndexError
| ReError.                          (* [re.error] *)

Inductive result (A : Type) : Type :=
| Ok (a : A)
| Raise (e : exn).
Arguments Ok {A} a.
Arguments Raise {A} e.

(** ** TimeBucketer: [get_time_suffix] *)

(** [hours_since_epoch // custom_hours]; division by zero raises. *)
Definition floordiv (a b : Z) : result Z :=
  if b =? 0 then Raise ZeroDivisionError else Ok (a / b).

(** [get_time_suffix(mode, custom_hours)], with the clock reading [now]
    that its first line takes made a parameter. *)
Definition get_time_suffix (mode : string) (custom_hours : Z) (now : datetime)
  : result string :=
  if (mode =? "none")%string then Ok ""
  else if (mode =? "yearly")%string then Ok ("_" ++ Py.str (year now))
  else if (mode =? "monthly")%string then
    Ok ("_" ++ Py.str (year now) ++ "-" ++ Py.format_02d (month now))
  else if (mode =? "weekly")%string then
    let '(y, week, _) := isocalendar now in
    Ok ("_" ++ Py.str y ++ "W" ++ Py.format_02d week)
  else if (mode =? "daily")%string then
    Ok ("_" ++ Py.str (year now) ++ "-" ++ Py.format_02d (month now)
            ++ "-" ++ Py.format_02d (day now))
  else if (mode =? "hourly")%string then
    Ok ("_" ++ Py.str (year now) ++ "-" ++ Py.format_02d (month now)
            ++ "-" ++ Py.format_02d (day now) ++ "H" ++ Py.format_02d (hour now))
  else if (mode =? "custom")%string then
    let hours_since_epoch := timestamp now / 3600 in
    match floordiv hours_since_epoch custom_hours with
    | Ok interval_number => Ok ("_I" ++ Py.str interval_number)
    | Raise e => Raise e
    end
  else Ok "".

(** ** PatternMatcher: [fnmatch] of the standard library, [matches_any] *)

(** Sequencing of code that may raise. *)
Definition rbind {A B} (m : result A) (k : A -> result B) : result B :=
  match m with
  | Ok a => k a
  | Raise e => Raise e
  end.

Declare Scope result_scope.
Delimit Scope result_scope with R.
Notation "x <- m ;; k" := (rbind m (fun x => k))
  (at level 61, m at next level, right associativity) : result_scope.

(** [fnmatch.fnmatch] as CPython (3.11) has it: [translate] turns the
    pattern into a regular expression, [re] compiles it and matches the
    whole name.  The regular expression is kept as a list of tokens instead
    of text. *)
Module Fnmatch.

Local Open Scope list_scope.

(** The pieces of the regular expression that [translate] builds.
    [TSet chunks] is a bracket expression: the characters of every chunk,
    and between two neighbouring chunks the range from the last character
    of the first to the first character of the second (the chunks are the
    text between the range hyphens); [translate] escapes what is special
    inside brackets, so every character stands for itself. *)
Inductive token : Type :=
| TStar                           (* [.*] *)
| TAny                            (* [.] *)
| TLit (c : ascii)                (* [re.escape(c)] *)
| TSet (chunks : list (list ascii))
| TNegSet (chunks : list (list ascii))
| TNever.                         (* [(?!)] *)

Definition is_star (t : token) : bool :=
  match t with TStar => true | _ => false end.

Definition char_le (a b : ascii) : bool := (N_of_ascii a <=? N_of_ascii b)%N.
Definition char_gt (a b : ascii) : bool := negb (char_le a b).

(** [s[0]] and [s[-1]]: [IndexError] on the empty string. *)
Definition first_char (s : list ascii) : result ascii :=
  match s with
  | [] => Raise IndexError
  | c :: _ => Ok c
  end.
Definition last_char (s : list ascii) : result ascii :=
  match s with
  | [] => Raise IndexError
  | c :: _ => Ok (last s c)
  end.

(** The characters before the first [']']; [None] without one. *)
Fixpoint find_close (l : list ascii) : option (list ascii) :=
  match l with
  | [] => None
  | c :: l' =>
      if Ascii.eqb c "]" then Some []
      else match find_close l' with
           | Some stuff => Some (c :: stuff)
           | None => None
           end
  end.

(** The scan for the end of a bracket expression, started after its ['[']:
    an optional ['!'], then an optional [']'] that is taken literally, then
    everything up to the next [']'].  The result is [pat[i:j]]; [None]
    when there is no closing bracket ([j >= n]). *)
Definition scan_set (l : list ascii) : option (list ascii) :=
  let '(bang, l1) :=
    match l with
    | c :: l' => if Ascii.eqb c "!" then ([c], l') else ([], l)
    | [] => ([], l)
    end in
  let '(close, l2) :=
    match l1 with
    | c :: l' => if Ascii.eqb c "]" then ([c], l') else ([], l1)
    | [] => ([], l1)
    end in
  match find_close l2 with
  | Some stuff => Some (bang ++ close ++ stuff)
  | None => None
  end.

(** The loop that cuts [stuff] at its range hyphens.  [skip] counts the
    characters of the current chunk that the search [pat.find('-', k, j)]
    starts after: one (two after a leading ['!']) for the first chunk, two
    ([k = k+3]) for the following ones.  The result is [chunks] and the rest
    [pat[i:j]]. *)
Fixpoint split_ranges (skip : nat) (cur : list ascii) (l : list ascii)
  : list (list ascii) * list ascii :=
  match l with
  | [] => ([], rev cur)
  | c :: l' =>
      match skip with
      | S skip' => split_ranges skip' (c :: cur) l'
      | O =>
          if Ascii.eqb c "-" then
            let '(chunks, chunk) := split_ranges 2 [] l' in
            (rev cur :: chunks, chunk)
          else split_ranges O (c :: cur) l'
      end
  end.

(** [chunks.append(chunk)] if the rest is not empty, else
    [chunks[-1] += '-']. *)
Definition close_chunks (chunks : list (list ascii)) (chunk : list ascii)
  : result (list (list ascii)) :=
  match chunk with
  | [] =>
      match chunks with
      | [] => Raise IndexError
      | _ => Ok (removelast chunks ++ [last chunks [] ++ ["-"%char]])
      end
  | _ => Ok (chunks ++ [chunk])
  end.

(** One round of "remove empty ranges": [prev] is [chunks[k-1]], [next] is
    [chunks[k]] with the chunks after it, which the earlier rounds have
    gone through. *)
Definition merge_step (prev : list ascii) (next : result (list (list ascii)))
  : result (list (list ascii)) :=
  (next <- next ;;
   match next with
   | [] => Ok [prev]
   | nx :: after =>
       a <- last_char prev ;;
       b <- first_char nx ;;
       if char_gt a b
       then Ok ((removelast prev ++ tl nx) :: after)
       else Ok (prev :: nx :: after)
   end)%R.

(** The loop [for k in range(len(chunks)-1, 0, -1)], from the last chunk
    to the first. *)
Definition remove_empty_ranges (chunks : list (list ascii))
  : result (list (list ascii)) :=
  fold_right merge_step (Ok []) chunks.

Definition set_chunks (stuff : list ascii) : result (list (list ascii)) :=
  if existsb (Ascii.eqb "-") stuff then
    let skip := match stuff with
                | c :: _ => if Ascii.eqb c "!" then 2%nat else 1%nat
                | [] => 1%nat
                end in
    let '(chunks, chunk) := split_ranges skip [] stuff in
    (chunks <- close_chunks chunks chunk ;;
     remove_empty_ranges chunks)%R
  else Ok [stuff].

(** The token for the bracket expression with the text [stuff]: [(?!)]
    when nothing is left of it, [.] when only ['!'] is, a negated set when
    it starts with ['!'], a set otherwise. *)
Definition set_token (stuff : list ascii) : result token :=
  (chunks <- set_chunks stuff ;;
   Ok match chunks with
      | [] | [[]] => TNever
      | [] :: _ => TSet chunks
      | (c :: first) :: more =>
          if Ascii.eqb c "!" then
            match first, more with
            | [], [] => TAny
            | _, _ => TNegSet (first :: more)
            end
          else TSet chunks
      end)%R.

(** The [while i < n] loop of [translate]; [res] is the list built so far.
    The index [i] moves by one character a round, except past a bracket
    expression, where [i = j+1]: then [skip] is the number of characters
    that are passed over. *)
Fixpoint translate_loop (skip : nat) (pat : list ascii) (res : list token)
  : result (list token) :=
  match pat with
  | [] => Ok res
  | c :: rest =>
      match skip with
      | S skip' => translate_loop skip' rest res
      | O =>
          if Ascii.eqb c "*" then
            (* compress consecutive [*] into one *)
            if is_star (last res TAny)
            then translate_loop O rest res
            else translate_loop O rest (res ++ [TStar])
          else if Ascii.eqb c "?" then
            translate_loop O rest (res ++ [TAny])
          else if Ascii.eqb c "[" then
            match scan_set rest with
            | None => translate_loop O rest (res ++ [TLit "["%char])
            | Some stuff =>
                match set_token stuff with
                | Ok t => translate_loop (S (List.length stuff)) rest (res ++ [t])
                | Raise e => Raise e
                end
            end
          else translate_loop O rest (res ++ [TLit c])
      end
  end.

Definition translate (pat : string) : result (list token) :=
  translate_loop O (Py.chars pat) [].

(** The ranges of a bracket expression that [re.compile] accepts: the lower
    end is not above the upper end. *)
Fixpoint ranges_ok (chunks : list (list ascii)) : bool :=
  match chunks with
  | a :: ((b :: _) as tl) =>
      match rev a, b with
      | lo :: _, hi :: _ => char_le lo hi
      | _, _ => true
      end && ranges_ok tl
  | _ => true
  end.

Definition token_ok (t : token) : bool :=
  match t with
  | TSet chunks | TNegSet chunks => ranges_ok chunks
  | _ => true
  end.

(** [re.compile]: [re.error] for a bad character range. *)
Definition re_compile (res : list token) : result (list token) :=
  if forallb token_ok res then Ok res else Raise ReError.

Fixpoint in_ranges (chunks : list (list ascii)) (c : ascii) : bool :=
  match chunks with
  | a :: ((b :: _) as tl) =>
      match rev a, b with
      | lo :: _, hi :: _ => char_le lo c && char_le c hi
      | _, _ => false
      end || in_ranges tl c
  | _ => false
  end.

Definition in_set (chunks : list (list ascii)) (c : ascii) : bool :=
  existsb (existsb (Ascii.eqb c)) chunks || in_ranges chunks c.

(** One character against a token that takes one character. *)
Definition token_accepts (t : token) (c : ascii) : bool :=
  match t with
  | TStar => true
  | TAny => true
  | TLit c' => Ascii.eqb c c'
  | TSet chunks => in_set chunks c
  | TNegSet chunks => negb (in_set chunks c)
  | TNever => false
  end.

(** [re.match] of [(?s:res)\Z]: the whole of [name] must be consumed. *)
Fixpoint re_match (res : list token) (name : list ascii) : bool :=
  match res with
  | [] => match name with [] => true | _ => false end
  | TStar :: res' =>
      (fix star (name : list ascii) : bool :=
         re_match res' name
         || match name with
            | [] => false
            | _ :: name' => star name'
            end) name
  | t :: res' =>
      match name with
      | [] => false
      | c :: name' => token_accepts t c && re_match res' name'
      end
  end.

(** [fnmatch.fnmatch(name, pat)] on POSIX, where [os.path.normcase] is the
    identity. *)
Definition fnmatch (name pat : string) : result bool :=
  (res <- translate pat ;;
   re <- re_compile res ;;
   Ok (re_match re (Py.chars name)))%R.

End Fnmatch.
Import Fnmatch.

(** [os.sep] and [os.path.join] of a POSIX system. *)
Definition os_sep : ascii := "/"%char.

Definition os_path_join (a b : string) : string :=
  if Py.startswith b "/" then b
  else if (a =? "")%string || Py.startswith (Py.of_chars (rev (Py.chars a))) "/"
       then a ++ b
       else a ++ "/" ++ b.

(** The loop of [matches_any] over the patterns, [norm] being the
    normalised path. *)
Fixpoint matches_any_loop (patterns : list string) (norm : string) : result bool :=
  match patterns with
  | [] => Ok false
  | pat :: patterns' =>
      let pat_norm := Py.replace pat os_sep "/" in
      (bare <- fnmatch norm pat_norm ;;
       if bare then Ok true
       else
         anchored <- fnmatch ("/" ++ norm) pat_norm ;;
         if anchored then Ok true else matches_any_loop patterns' norm)%R
  end.

Definition matches_any (patterns : list string) (relpath : string) : result bool :=
  let norm := Py.replace relpath os_sep "/" in
  matches_any_loop patterns norm.

(** ** LargeFileScanner: [iter_large_files] *)

(** The project tree as [os.walk] sees it.  A file carries what
    [os.path.getsize] gives, [None] when it raises [OSError]; a directory
    lists its entries in the order [os.scandir] returns them. *)
#[warnings="-register-all"]
Inductive node : Type :=
| File (size : option Z)
| Dir (entries : list (string * node)).

Definition is_dir (n : node) : bool :=
  match n with Dir _ => true | File _ => false end.

Section IterLargeFiles.

Variable min_bytes : Z.
Variables exclude_patterns include_patterns : list string.

(** The inner function [is_included(rel)]; its loop is that of
    [matches_any], over the include patterns. *)
Definition is_included (rel : string) : result bool :=
  let rel_norm := Py.replace rel os_sep "/" in
  matches_any_loop include_patterns rel_norm.

(** The test of the pruning loop: the directory [dirname] of the directory
    [rel_dir] is removed from [dirnames]. *)
Definition pruned (rel_dir dirname : string) : result bool :=
  let rel := (if Py.truthy rel_dir then os_path_join rel_dir dirname
              else dirname) ++ "/" in
  (excluded <- matches_any exclude_patterns rel ;;
   if excluded then
     included <- is_included (Py.rstrip_char rel "/") ;;
     Ok (negb included)
   else Ok false)%R.

(** The pruning loop: for every entry, whether [os.walk] will descend into
    it (files are not in [dirnames]). *)
Fixpoint keep_dirnames (rel_dir : string) (entries : list (string * node))
  : result (list bool) :=
  match entries with
  | [] => Ok []
  | (dirname, n) :: entries' =>
      (keep <- (if is_dir n
                then p <- pruned rel_dir dirname ;; Ok (negb p)
                else Ok false) ;;
       rest <- keep_dirnames rel_dir entries' ;;
       Ok (keep :: rest))%R
  end.

(** The test of the file loop: the file is skipped ([continue]). *)
Definition skipped (rel : string) : result bool :=
  (excluded <- matches_any exclude_patterns rel ;;
   if excluded then
     included <- is_included rel ;;
     Ok (negb included)
   else Ok false)%R.

(** What the file loop yields for one directory. *)
Fixpoint yield_files (dirpath rel_dir : string) (entries : list (string * node))
  : result (list (string * string * Z)) :=
  match entries with
  | [] => Ok []
  | (filename, File size) :: entries' =>
      let rel := if Py.truthy rel_dir then os_path_join rel_dir filename
                 else filename in
      (skip <- skipped rel ;;
       rest <- yield_files dirpath rel_dir entries' ;;
       if skip then Ok rest
       else
         let full_path := os_path_join dirpath filename in
         match size with
         | None => Ok rest                     (* [except OSError: continue] *)
         | Some size =>
             if min_bytes <=? size then Ok ((rel, full_path, size) :: rest)
             else Ok rest
         end)%R
  | (_, Dir _) :: entries' => yield_files dirpath rel_dir entries'
  end.

(** The loop over [os.walk(root, topdown=True)]: for a directory, the
    pruning loop, then its files, then the sub-directories that were left
    in [dirnames], in order.  [rel_dir] is [os.path.relpath(dirpath, root)],
    with [""] for the root. *)
Fixpoint walk (dirpath rel_dir : string) (n : node) {struct n}
  : result (list (string * string * Z)) :=
  match n with
  | File _ => Ok []
  | Dir entries =>
      (keep <- keep_dirnames rel_dir entries ;;
       files <- yield_files dirpath rel_dir entries ;;
       below <-
         (fix subdirs (l : list (string * node)) (keep : list bool)
            : result (list (string * string * Z)) :=
            match l, keep with
            | (dirname, sub) :: l', k :: keep' =>
                here <- (if k
                         then walk (os_path_join dirpath dirname)
                                   (if Py.truthy rel_dir
                                    then os_path_join rel_dir dirname
                                    else dirname)
                                   sub
                         else Ok []) ;;
                rest <- subdirs l' keep' ;;
                Ok (here ++ rest)%list
            | _, _ => Ok []
            end) entries keep ;;
       Ok (files ++ below)%list)%R
  end.

End IterLargeFiles.

(** [list(iter_large_files(root, min_bytes, exclude_patterns,
    include_patterns))] for the tree [tree] found at the path [root]. *)
Definition iter_large_files (root : string) (tree : node) (min_bytes : Z)
    (exclude_patterns include_patterns : list string)
  : result (list (string * string * Z)) :=
  walk min_bytes exclude_patterns include_patterns root "" tree.

(** ** IgnoreSetBuilder: [parent_dirs_for], [create_rsync_files] *)

Definition DEFAULT_EXCLUDES : list string :=
  [ "/.git/"; "/.hg/"; "/.svn/"; "/.DS_Store"; "/.idea/"; "/.vscode/";
    "/.cache/"; "/.mypy_cache/"; "/.pytest_cache/"; "/__pycache__/"; "/*.pyc";
    "/.tox/"; "/.venv/"; "/venv/"; "/env/"; "/.poetry/"; "/.poetry-cache/";
    "/*.egg-info/"; "/dist/"; "/build/"; "/coverage/"; "/node_modules/";
    "/.pnpm-store/"; "/.yarn/*"; "/.eslintcache"; "/.turbo/"; "/.next/";
    "/.vercel/"; "/.out/"; "/target/"; "/Cargo.lock"; "/*.log" ].

(** The components of a pattern: [[x for x in path.split("/") if x]]. *)
Definition pattern_parts (pattern : string) : list string :=
  let path := if Py.startswith pattern "/" then Py.lstrip_char pattern "/"
              else pattern in
  filter Py.truthy (Py.split path "/").

(** One round of the loop of [parent_dirs_for]; the state is
    [(current, parents)]. *)
Definition parent_dirs_step (anchored : bool) (st : string * list string)
    (part : string) : string * list string :=
  let '(current, parents) := st in
  let current := (if Py.truthy current then current ++ "/" else "") ++ part in
  (current, (parents ++ [if anchored then ("/" ++ current)%string else current])%list).

Definition parent_dirs_for (pattern : string) : list string :=
  let parts := pattern_parts pattern in
  (* [for i in range(len(parts) - 1)]: every part but the last *)
  let '(_, parents) :=
    fold_left (parent_dirs_step (Py.startswith pattern "/"))
              (removelast parts) ("", []) in
  map (fun x => x ++ "/") parents.

(** The list [expanded_includes] that [create_rsync_files] writes to the
    include file, one pattern per line. *)
Definition expanded_includes (include_patterns : list string) : list string :=
  fold_left (fun acc pat => ((acc ++ parent_dirs_for pat) ++ [pat])%list)
            include_patterns [].

(** [create_rsync_files]: the lines of the include file ([None] when there
    are no include patterns, so no file is made) and of the exclude file.
    The temporary files themselves and the [OSError] exits are left out. *)
Definition create_rsync_files (exclude_patterns include_patterns : list string)
  : option (list string) * list string :=
  let include_file :=
    match include_patterns with
    | [] => None
    | _ => Some (expanded_includes include_patterns)
    end in
  let remaining :=
    filter (fun p => negb (existsb (String.eqb p) DEFAULT_EXCLUDES))
           exclude_patterns in
  let exclude_file :=
    ("# Built-in excludes" :: DEFAULT_EXCLUDES
     ++ match remaining with
        | [] => []
        | _ => "" :: "# Additional excludes" :: remaining
        end)%list in
  (include_file, exclude_file).

(** ** The monad of the code that talks to the terminal *)

(** What the program does to the outside, in order.  [EvCall] records that a
    function of the program was entered; it is there so that theorems can
    say a function was or was not invoked. *)
Inductive event : Type :=
| EvPrint (line : string)
| EvInput (prompt : string)
| EvCall (function : string) (argument : list string).

Record World : Type := mk_World {
  stdin : list string;      (* the lines still to be read *)
  trace : list event        (* what happened so far, oldest first *)
}.

Definition M (A : Type) : Type := World -> result A * World.

Definition ret {A} (a : A) : M A := fun w => (Ok a, w).

Definition bind {A B} (m : M A) (k : A -> M B) : M B :=
  fun w => match m w with
           | (Ok a, w') => k a w'
           | (Raise e, w') => (Raise e, w')
           end.

Declare Scope m_scope.
Delimit Scope m_scope with M.
Notation "x <- m ;; k" := (bind m (fun x => k))
  (at level 61, m at next level, right associativity) : m_scope.
Notation "m ;;; k" := (bind m (fun _ => k))
  (at level 61, right associativity) : m_scope.

Definition emit (e : event) : M unit :=
  fun w => (Ok tt, mk_World (stdin w) (trace w ++ [e])).

Definition print (line : string) : M unit := emit (EvPrint line).

(** [input(prompt)]: shows the prompt and reads a line; [EOFError] at the
    end of the input. *)
Definition input (prompt : string) : M string :=
  fun w =>
    let w' := mk_World (stdin w) (trace w ++ [EvInput prompt]) in
    match stdin w with
    | [] => (Raise EOFError, w')
    | line :: rest => (Ok line, mk_World rest (trace w'))
    end.

Definition when (b : bool) (m : M unit) : M unit :=
  if b then m else ret tt.

Fixpoint for_each {A} (l : list A) (body : A -> M unit) : M unit :=
  match l with
  | [] => ret tt
  | a :: l' => (body a ;;; for_each l' body)%M
  end.

(** ** CollisionPolicy: [handle_collision] *)

(** The options of the command line that the modelled code reads. *)
Record Args : Type := mk_Args {
  force_all : bool;
  force_collision_new : bool;
  force_collision_update : bool;
  verbose : bool
}.

Definition handle_collision (existing : list string) (args : Args) : M string :=
  (emit (EvCall "handle_collision" existing) ;;;
   let force_all := force_all args in
   let force_new := force_all || force_collision_new args in
   let force_update := force_all || force_collision_update args in
   if force_new && negb force_update then ret "create"
   else if force_update && negb force_new then ret "update"
   else if force_new && force_update then ret "create"
   else
     print "Found backup(s) with the same name but different suffix:" ;;;
     for_each existing (fun item => print ("   - " ++ item)) ;;;
     print "" ;;;
     print "Options:" ;;;
     print "  (u) Update an existing folder" ;;;
     print "  (c) Create a new folder and back up there" ;;;
     print "  (a) Abort" ;;;
     line <- input "Choose [u/c/a] [a]: " ;;
     let answer := Py.lower (Py.strip line) in
     let choice := if Py.truthy answer then answer else "a" in
     if (choice =? "u")%string then ret "update"
     else if (choice =? "c")%string then ret "create"
     else
       print "Aborted. (Tip: use --force-collision-update or --force-collision-new)" ;;;
       ret "abort")%M.

(** ** RemoteNameResolver: [find_existing_snapshot], [backup_to_server] *)

Definition find_existing_snapshot (siblings : list string)
    (base_name time_suffix : string) : option string :=
  if negb (Py.truthy time_suffix) then
    (* No snapshots, look for exact match *)
    let exact := base_name ++ "_" in
    find (fun sibling =>
            Py.startswith sibling exact
            && (String.length exact <? String.length sibling)%nat)
         siblings
  else
    (* Look for exact time suffix match *)
    let target := base_name ++ time_suffix in
    find (fun sibling => Py.startswith sibling target) siblings.

(** ** The remote shell: [splitlines], [split_remote_base], [shlex.quote] *)

(** The line feed. *)
Definition LF : ascii := "010"%char.
Definition CR : ascii := "013"%char.
Definition newline : string := String LF "".

(** The ASCII characters at which [str.splitlines] cuts: LF, VT, FF, CR,
    FS, GS and RS; CR followed by LF is one cut. *)
Definition is_linebreak (c : ascii) : bool :=
  let n := N_of_ascii c in
  (((10 <=? n) && (n <=? 13)) || ((28 <=? n) && (n <=? 30)))%N.

Fixpoint splitlines_loop (cur : list ascii) (l : list ascii) : list string :=
  match l with
  | [] => match cur with
          | [] => []
          | _ => [Py.of_chars (rev cur)]
          end
  | c :: l' =>
      if is_linebreak c then
        Py.of_chars (rev cur)
        :: match l' with
           | d :: l'' =>
               if Ascii.eqb c CR && Ascii.eqb d LF
               then splitlines_loop [] l''
               else splitlines_loop [] l'
           | [] => []
           end
      else splitlines_loop (c :: cur) l'
  end.

(** [content.splitlines()] *)
Definition splitlines (content : string) : list string :=
  splitlines_loop [] (Py.chars content).

Definition split_remote_base (base : string) : bool * string :=
  if (base =? "~")%string then (true, "")
  else if Py.startswith base "~/" then (true, Py.slice_from base 2)
  else (false, base).

(** The characters that [shlex.quote] leaves alone: those outside
    [[^\w@%+=:,./-]] with [re.ASCII]. *)
Definition shell_safe (c : ascii) : bool :=
  let n := N_of_ascii c in
  (((48 <=? n) && (n <=? 57)) || ((65 <=? n) && (n <=? 90))
   || ((97 <=? n) && (n <=? 122)))%N
  || existsb (Ascii.eqb c)
       ["_"; "@"; "%"; "+"; "="; ":"; ","; "."; "/"; "-"]%char.

(** The double quote, as a string. *)
Definition dquote : string := String (ascii_of_nat 34) "".

(** [_q(s)], which is [shlex.quote(s)]: the empty string becomes two single
    quotes, a string of safe characters stays, any other is put in single
    quotes with every single quote inside written as quote, double-quoted
    quote, quote. *)
Definition _q (s : string) : string :=
  if negb (Py.truthy s) then "''"
  else if forallb shell_safe (Py.chars s) then s
  else "'"
       ++ String.concat ""
            (map (fun c => if Ascii.eqb c "'"
                           then "'" ++ dquote ++ "'" ++ dquote ++ "'"
                           else String c "")
                 (Py.chars s))
       ++ "'".

(** One server, as the program sees it.  [directory path] is the answer of
    [ssh_test_dir] for [path].  [ssh_run script] is what [ssh_run] gives
    for a script: the exit code and the standard output of the remote
    shell, or nothing when [subprocess.run] raises. *)
Record Remote : Type := mk_Remote {
  directory : string -> bool;
  ssh_run : string -> option (Z * string)
}.

Definition ssh_test_dir (r : Remote) (path : string) : bool := directory r path.

(** The lines of the output, stripped, the blank ones dropped. *)
Definition output_lines (lines : list string) : list string :=
  filter Py.truthy (map Py.strip lines).

Definition ssh_list_siblings (r : Remote) (base prefix : string) : list string :=
  let '(is_tilde, rest) := split_remote_base base in
  let script :=
    if is_tilde then
      let base_dir := if Py.truthy rest then Py.rstrip_char rest "/" ++ "/"
                      else "" in
      "cd ~ && ls -1d " ++ _q (base_dir ++ prefix ++ "_")
      ++ "* 2>/dev/null | xargs -n1 basename 2>/dev/null || true"
    else
      "ls -1d " ++ _q (Py.rstrip_char base "/" ++ "/" ++ prefix ++ "_")
      ++ "* 2>/dev/null | xargs -n1 basename 2>/dev/null || true" in
  match ssh_run r script with
  | Some (returncode, stdout) =>
      if negb (returncode =? 0) && negb (Py.truthy (Py.strip stdout)) then []
      else output_lines (splitlines stdout)
  | None => []
  end.

Definition ssh_list_all (r : Remote) (base : string) : list string :=
  let '(is_tilde, rest) := split_remote_base base in
  let script :=
    if is_tilde then
      let target := if Py.truthy rest then Py.rstrip_char rest "/" else "." in
      "cd ~ && ls -1 " ++ _q target ++ " 2>/dev/null || true"
    else
      "ls -1 " ++ _q (Py.rstrip_char base "/") ++ " 2>/dev/null || true" in
  match ssh_run r script with
  | Some (returncode, stdout) =>
      if negb (returncode =? 0) && negb (Py.truthy (Py.strip stdout)) then []
      else output_lines (splitlines stdout)
  | None => []
  end.

(** How the block that determines the target ends: with the directory
    [target_remote_dir], or with a [return] of [backup_to_server]. *)
Inductive outcome : Type :=
| Target (target_remote_dir : string)
| Return (code : Z).

(** [other_hash_dirs[-1]] *)
Definition last_item (l : list string) : M string :=
  match l with
  | [] => fun w => (Raise IndexError, w)
  | _ => ret (last l "")
  end.

(** The block "Determine target directory" of [backup_to_server], for the
    server [r] with base directory [remote_base]. *)
Definition determine_target (r : Remote) (remote_base : string)
    (folder_name suffix time_suffix snapshot_mode : string) (args : Args)
  : M outcome :=
  let base_remote_name := folder_name ++ "_" ++ suffix in
  let exact_remote_dir :=
    Py.rstrip_char remote_base "/" ++ "/" ++ base_remote_name ++ time_suffix in
  (if ssh_test_dir r exact_remote_dir then
     (* Exact match exists (including time suffix) *)
     let target_remote_dir := exact_remote_dir in
     when (verbose args)
          (print ("Found existing backup for this time period: "
                  ++ target_remote_dir)) ;;;
     ret (Target target_remote_dir)
   else
     let all_siblings := ssh_list_all r remote_base in
     if negb (snapshot_mode =? "none")%string then
       (* Look for existing backup in current time period *)
       match find_existing_snapshot all_siblings base_remote_name time_suffix with
       | Some existing_snapshot =>
           if Py.truthy existing_snapshot then
             let target_remote_dir :=
               Py.rstrip_char remote_base "/" ++ "/" ++ existing_snapshot in
             when (verbose args)
                  (print ("Found existing snapshot for this time period: "
                          ++ target_remote_dir)) ;;;
             ret (Target target_remote_dir)
           else
             when (verbose args)
                  (print ("Creating new snapshot: " ++ exact_remote_dir)) ;;;
             ret (Target exact_remote_dir)
       | None =>
           (* No snapshot for this time period, create new one *)
           when (verbose args)
                (print ("Creating new snapshot: " ++ exact_remote_dir)) ;;;
           ret (Target exact_remote_dir)
       end
     else
       (* No snapshot mode - handle traditional collisions *)
       let name_siblings := ssh_list_siblings r remote_base folder_name in
       let other_hash_dirs :=
         filter (fun s => negb (s =? folder_name ++ "_" ++ suffix)%string)
                name_siblings in
       match other_hash_dirs with
       | _ :: _ =>
           action <- handle_collision other_hash_dirs args ;;
           if (action =? "abort")%string then ret (Return 1)
           else if (action =? "update")%string then
             chosen <- last_item other_hash_dirs ;;
             let target_remote_dir :=
               Py.rstrip_char remote_base "/" ++ "/" ++ chosen in
             when (verbose args)
                  (print ("Collision -> updating: " ++ target_remote_dir)) ;;;
             ret (Target target_remote_dir)
           else
             when (verbose args)
                  (print ("Collision -> creating new: " ++ exact_remote_dir)) ;;;
             ret (Target exact_remote_dir)
       | [] => ret (Target exact_remote_dir)
       end)%M.

(** The modes that [main] accepts, and its checks before it computes the
    time suffix once for all servers. *)
Definition valid_modes : list string :=
  ["none"; "yearly"; "monthly"; "weekly"; "daily"; "hourly"; "custom"].

(** The part of [main] from the validation of the snapshot settings to the
    target directory on one server: [Return 2] for a configuration error. *)
Definition resolve (r : Remote) (remote_base folder_name suffix : string)
    (snapshot_mode : string) (snapshot_custom_hours : Z) (now : datetime)
    (args : Args) : M outcome :=
  if snapshot_custom_hours <=? 0 then ret (Return 2)
  else if negb (existsb (String.eqb snapshot_mode) valid_modes) then ret (Return 2)
  else
    match get_time_suffix snapshot_mode snapshot_custom_hours now with
    | Raise e => fun w => (Raise e, w)
    | Ok time_suffix =>
        determine_target r remote_base folder_name suffix time_suffix
                         snapshot_mode args
    end.

(** ** What a run did, read off the two worlds *)

(** The run from [w] to [w'] entered [handle_collision] with the candidates
    [existing]. *)
Definition invoked_collision (existing : list string) (w w' : World) : Prop :=
  exists evs,
    trace w' = (trace w ++ EvCall "handle_collision" existing :: evs)%list.

(** The run from [w] to [w'] read nothing and did nothing but print: no
    function call was recorded and no prompt was shown. *)
Definition silent (w w' : World) : Prop :=
  stdin w' = stdin w
  /\ exists lines, trace w' = (trace w ++ map EvPrint lines)%list.

(** What [handle_collision] shows before it reads the answer. *)
Definition menu (existing : list string) : list event :=
  (EvPrint "Found backup(s) with the same name but different suffix:"
   :: map (fun item => EvPrint ("   - " ++ item)) existing
   ++ [EvPrint ""; EvPrint "Options:";
       EvPrint "  (u) Update an existing folder";
       EvPrint "  (c) Create a new folder and back up there";
       EvPrint "  (a) Abort";
       EvInput "Choose [u/c/a] [a]: "])%list.

(** The decision table of the specification: the two forces, then the
    answer to the prompt (read without surrounding blanks, in lower case). *)
Definition decision (forced_new forced_update : bool) (answer : string) : string :=
  if forced_new then "create"
  else if forced_update then "update"
  else if (answer =? "u")%string then "update"
  else if (answer =? "c")%string then "create"
  else "abort".

(** A sibling of the project [name] that carries another fingerprint than
    [fingerprint], as the specification reads the listing. *)
Definition foreign_fingerprint (name fingerprint sibling : string) : bool :=
  Py.startswith sibling (name ++ "_")
  && negb (Py.startswith sibling (name ++ "_" ++ fingerprint)).

(** The names of the specification: [baseName], the exact directory name
    [baseName + timeSuffix], and the path of a name under the remote base. *)
Definition base_name (folder_name suffix : string) : string :=
  folder_name ++ "_" ++ suffix.
Definition exact_name (folder_name suffix time_suffix : string) : string :=
  base_name folder_name suffix ++ time_suffix.
Definition remote_path (remote_base name : string) : string :=
  Py.rstrip_char remote_base "/" ++ "/" ++ name.

(** The name that the snapshot branch settles on: the first listed name
    that starts with the exact name, else the exact name itself. *)
Definition snapshot_choice (listing : list string) (exact : string) : string :=
  match find (fun sibling => Py.startswith sibling exact) listing with
  | Some sibling => sibling
  | None => exact
  end.

(** The proper parent directories of a pattern with the components
    [parts], from the shallowest to the deepest: for every [k] below the
    number of components, the first [k] components joined with [/], with the
    leading [/] of an anchored pattern, and a closing [/]. *)
Definition parent_entries (anchored : bool) (parts : list string) : list string :=
  map (fun k =>
         let path := Py.join "/" (firstn k parts) in
         (if anchored then "/" ++ path else path) ++ "/")
      (seq 1 (List.length parts - 1)).

(** ** Notions used to state and prove the properties of the matcher *)

(** The shape of the chunks after the first one: none is empty, and all but
    the last have two characters at least. *)
Fixpoint tail_ok (chunks : list (list ascii)) : Prop :=
  match chunks with
  | [] => True
  | [a] => a <> []
  | a :: (_ :: _) as tl => (2 <= List.length a)%nat /\ tail_ok tl
  end.

(** The glob read with every bracket as an ordinary character: [*] and [?]
    are wildcards, the rest is literal. *)
Fixpoint plain_loop (pat : list ascii) (res : list token) : list token :=
  match pat with
  | [] => res
  | c :: rest =>
      if Ascii.eqb c "*" then
        if is_star (List.last res TAny) then plain_loop rest res
        else plain_loop rest (res ++ [TStar])
      else if Ascii.eqb c "?" then plain_loop rest (res ++ [TAny])
      else plain_loop rest (res ++ [TLit c])
  end.

(** ** The formats as the specification writes them *)

Definition digit (d : Z) : ascii := ascii_of_N (48 + Z.to_N d).

(** [YYYY]: the four decimal digits of a year. *)
Definition YYYY (y : Z) : string :=
  String (digit (y / 1000))
    (String (digit (y / 100 mod 10))
       (String (digit (y / 10 mod 10)) (String (digit (y mod 10)) ""))).

(** [MM], [DD], [hh], [ww]: two decimal digits, the first one a zero below
    ten. *)
Definition NN (n : Z) : string :=
  String (digit (n / 10)) (String (digit (n mod 10)) "").

(** The modes that make snapshots. *)
Definition snapshot_modes : list string :=
  ["yearly"; "monthly"; "weekly"; "daily"; "hourly"; "custom"].

(** The instant [t] (whole seconds since the epoch) lies in the [k]-th
    window of [n] hours, counted from the epoch. *)
Definition in_window (n k t : Z) : Prop :=
  k * (n * 3600) <= t < (k + 1) * (n * 3600).

(** The number that [get_time_suffix] prints in [custom] mode. *)
Definition interval_number (n : Z) (now : datetime) : Z :=
  timestamp now / 3600 / n.

(** ** Data of the scenarios *)

(** 2025-01-15 10:00 UTC. *)
Definition t_2025_01_15 : datetime := mk_datetime 2025 1 15 10 0 0 1736935200.

(** No option given, nothing to read. *)
Definition no_flags : Args := mk_Args false false false false.
Definition world (lines : list string) : World := mk_World lines [].

(** A server with the base [~/pushback] that holds the directories [names]
    of the project folder [app]: [test -d] answers [dirs], and the two
    listing scripts for this base and this folder print the names, one on
    a line; any other script fails. *)
Definition example_remote (dirs : string -> bool) (names : list string) : Remote :=
  mk_Remote dirs
    (fun script =>
       if (script =? "cd ~ && ls -1 pushback 2>/dev/null || true")%string
          || (script =? "cd ~ && ls -1d pushback/app_* 2>/dev/null | xargs -n1 basename 2>/dev/null || true")%string
       then Some (0, String.concat "" (map (fun n => n ++ newline) names))
       else None).

(** * The rest of the program *)

(** ** Text files: the ignore files *)

(** What the program finds at the path of a text file: nothing
    ([path.exists()] is false), a file that [read_text] cannot read
    ([OSError]), or the text. *)
Inductive text_file : Type :=
| Missing
| Unreadable (error : string)
| Content (content : string).

(** The body of the loop of [load_ignore_file]. *)
Definition ignore_line (patterns : list string) (line : string) : list string :=
  let stripped := Py.strip line in
  if Py.truthy stripped && negb (Py.startswith stripped "#")
  then (patterns ++ [stripped])%list
  else patterns.

(** [load_ignore_file(path)]: the patterns, and what it writes to the
    standard error. *)
Definition load_ignore_file (path : string) (file : text_file)
  : list string * list string :=
  match file with
  | Missing => ([], [])
  | Unreadable e => ([], ["Warning: could not read " ++ path ++ ": " ++ e])
  | Content content => (fold_left ignore_line (splitlines content) [], [])
  end.

(** The body of the loop of [load_backupignore_split]; the state is
    [(excludes, includes)]. *)
Definition backupignore_line (st : list string * list string) (line : string)
  : list string * list string :=
  let '(excludes, includes) := st in
  let stripped := Py.strip line in
  if negb (Py.truthy stripped) || Py.startswith stripped "#" then st
  else if Py.startswith stripped "!" then
    let pattern := Py.strip (Py.slice_from stripped 1) in
    if Py.truthy pattern then (excludes, (includes ++ [pattern])%list)
    else st
  else ((excludes ++ [stripped])%list, includes).

(** [load_backupignore_split(root)], for what is found at
    [root / ".backupignore"]: the pair of pattern lists, and what it writes
    to the standard error. *)
Definition load_backupignore_split (path : string) (file : text_file)
  : (list string * list string) * list string :=
  match file with
  | Missing => (([], []), [])
  | Unreadable e => (([], []), ["Warning: could not read " ++ path ++ ": " ++ e])
  | Content content =>
      (fold_left backupignore_line (splitlines content) ([], []), [])
  end.

(** The text that [main] appends to [.backupignore] for the patterns
    [auto_ignores], and the file after it (opened with mode ["a"]). *)
Definition backupignore_addition (auto_ignores : list string) : string :=
  newline ++ "# Added by pushback (large files)" ++ newline
  ++ String.concat "" (map (fun pat => pat ++ newline) auto_ignores).

Definition append_text (file : text_file) (text : string) : text_file :=
  match file with
  | Missing => Content text
  | Unreadable e => Unreadable e
  | Content content => Content (content ++ text)
  end.

(** The text that [ensure_config_and_global_ignore] writes to the global
    ignore file for a list of patterns: ["\n".join(patterns) + "\n"]. *)
Definition ignore_file_text (patterns : list string) : string :=
  Py.join newline patterns ++ newline.

(** ** [prompt_yes_no] *)

Definition prompt_yes_no (msg : string) (default : bool) : M bool :=
  let default_str := if default then "Y/n" else "y/N" in
  (line <- input (msg ++ " [" ++ default_str ++ "]: ") ;;
   let answer := Py.lower (Py.strip line) in
   if negb (Py.truthy answer) then ret default
   else ret ((answer =? "y")%string || (answer =? "yes")%string))%M.

(** [s.isascii()].  On such text [Py.strip] and [splitlines] are the
    methods of Python; beyond it Python knows more blanks and line breaks. *)
Definition isascii (s : string) : bool :=
  forallb (fun c => (N_of_ascii c <? 128)%N) (Py.chars s).

(** A pattern that an ignore file gives back as it is written, on a line of
    its own: no line break inside, no blank at either end, not empty, not a
    comment. *)
Definition plain_line (p : string) : Prop :=
  Py.strip p = p /\ p <> "" /\ Py.startswith p "#" = false
  /\ Forall (fun c => is_linebreak c = false) (Py.chars p).


(** The Monday of the week of a date, as an ordinal. *)
Definition monday_of (t : datetime) : Z := toordinal t - weekday t.

(** ** The files of a tree, in the order of the walk *)

Definition rel_of (rel_dir name : string) : string :=
  if Py.truthy rel_dir then os_path_join rel_dir name else name.

(** The files that lie in a directory itself, with their relative path,
    their full path and what [os.path.getsize] gives. *)
Fixpoint files_here (dirpath rel_dir : string) (entries : list (string * node))
  : list (string * string * option Z) :=
  match entries with
  | [] => []
  | (filename, File size) :: entries' =>
      (rel_of rel_dir filename, os_path_join dirpath filename, size)
      :: files_here dirpath rel_dir entries'
  | (_, Dir _) :: entries' => files_here dirpath rel_dir entries'
  end.

(** All the files of a tree: those of a directory, then those of its
    sub-directories, in order. *)
Fixpoint all_files (dirpath rel_dir : string) (n : node) {struct n}
  : list (string * string * option Z) :=
  match n with
  | File _ => []
  | Dir entries =>
      (files_here dirpath rel_dir entries
       ++ (fix below (l : list (string * node)) : list (string * string * option Z) :=
             match l with
             | [] => []
             | (dirname, sub) :: l' =>
                 all_files (os_path_join dirpath dirname) (rel_of rel_dir dirname) sub
                 ++ below l'
             end) entries)%list
  end.

(** The files among them that the scan reports: size known, and at least
    [min_bytes]. *)
Definition large_ones (min_bytes : Z) (files : list (string * string * option Z))
  : list (string * string * Z) :=
  flat_map (fun '(rel, full_path, size) =>
              match size with
              | Some size =>
                  if min_bytes <=? size then [(rel, full_path, size)] else []
              | None => []
              end) files.

(** The two inner loops over the sub-directories, written out for a given
    function on the sub-trees. *)
Definition subdirs_with
    (W : string -> string -> node -> result (list (string * string * Z)))
    (dirpath rel_dir : string)
  : list (string * node) -> list bool -> result (list (string * string * Z)) :=
  fix subdirs (l : list (string * node)) (keep : list bool) :=
    match l, keep with
    | (dirname, sub) :: l', k :: keep' =>
        (here <- (if k
                  then W (os_path_join dirpath dirname)
                         (if Py.truthy rel_dir
                          then os_path_join rel_dir dirname else dirname)
                         sub
                  else Ok []) ;;
         rest <- subdirs l' keep' ;;
         Ok (here ++ rest)%list)%R
    | _, _ => Ok []
    end.

Definition below_with
    (A : string -> string -> node -> list (string * string * option Z))
    (dirpath rel_dir : string)
  : list (string * node) -> list (string * string * option Z) :=
  fix below (l : list (string * node)) :=
    match l with
    | [] => []
    | (dirname, sub) :: l' =>
        (A (os_path_join dirpath dirname) (rel_of rel_dir dirname) sub
         ++ below l')%list
    end.

(** ** [main]: the servers one after the other *)

(** [try: body finally: handler] *)
Definition try_finally {A} (body : M A) (handler : M unit) : M A :=
  fun w =>
    let '(res, w') := body w in
    match handler w' with
    | (Ok _, w'') => (res, w'')
    | (Raise e, w'') => (Raise e, w'')
    end.

(** [eprint(line)], the print to the standard error. *)
Definition eprint (line : string) : M unit := emit (EvCall "eprint" [line]).

(** [cleanup_temp_files] on its paths: [os.unlink] for every path that is given;
    an [OSError] of [os.unlink] is passed over. *)
Definition cleanup_temp_files (paths : list (option string)) : M unit :=
  for_each paths
    (fun path =>
       match path with
       | Some p => if Py.truthy p then emit (EvCall "os.unlink" [p]) else ret tt
       | None => ret tt
       end).

Definition fifty_equals : string :=
  "==================================================".

Section MainLoop.

(** The call [backup_to_server(server_name, server_config, project_info,
    args, options)] with everything but the server fixed; it returns the
    exit code for that server. *)
Variable backup_to_server : string -> M Z.

(** The [for] loop over [selected_servers]; the state is
    [(overall_success, successes, failures)], and [many] is
    [len(selected_servers) > 1]. *)
Fixpoint backup_servers (servers : list string) (many : bool) (args : Args)
    (st : bool * list string * list string)
  : M (bool * list string * list string) :=
  match servers with
  | [] => ret st
  | server_name :: servers' =>
      let '(overall_success, successes, failures) := st in
      (when (many && verbose args) (print "" ;;; print fifty_equals) ;;;
       result <- backup_to_server server_name ;;
       if result =? 0 then
         backup_servers servers' many args
                        (overall_success, (successes ++ [server_name])%list, failures)
       else
         let st' := (false, successes, (failures ++ [server_name])%list) in
         if negb (force_all args) then ret st'        (* [break] *)
         else backup_servers servers' many args st')%M
  end.

(** The end of [main]: the loop inside [try ... finally], then the summary
    and the exit code. *)
Definition main_backup (servers : list string) (args : Args)
    (include_path : option string) (exclude_path : string) : M Z :=
  let many := (1 <? List.length servers)%nat in
  (st <- try_finally (backup_servers servers many args (true, [], []))
                     (cleanup_temp_files [include_path; Some exclude_path]) ;;
   let '(overall_success, successes, failures) := st in
   if overall_success then
     when many
          (print "" ;;;
           print ("All backups completed successfully ("
                  ++ Py.str (Z.of_nat (List.length servers)) ++ " servers): "
                  ++ Py.join ", " successes)) ;;;
     ret 0
   else
     when many
          (when (match successes with [] => false | _ => true end)
                (print "" ;;; print ("Succeeded: " ++ Py.join ", " successes)) ;;;
           when (match failures with [] => false | _ => true end)
                (eprint ("Failed: " ++ Py.join ", " failures))) ;;;
     ret 1)%M.

(** What a run of the loop is measured against: the calls for the servers
    [names], one after the other, each after the separator of the verbose
    mode, whatever they return; the result is the list of their codes. *)
Fixpoint attempts (names : list string) (many : bool) (args : Args)
  : M (list Z) :=
  match names with
  | [] => ret []
  | server_name :: names' =>
      (when (many && verbose args) (print "" ;;; print fifty_equals) ;;;
       result <- backup_to_server server_name ;;
       results <- attempts names' many args ;;
       ret (result :: results))%M
  end.

End MainLoop.

(** The events of [cleanup_temp_files(include_path, exclude_path)]. *)
Definition unlinks (include_path : option string) (exclude_path : string)
  : list event :=
  (match include_path with
   | Some p => if Py.truthy p then [EvCall "os.unlink" [p]] else []
   | None => []
   end
   ++ if Py.truthy exclude_path then [EvCall "os.unlink" [exclude_path]] else [])%list.

(** The servers of [names] whose code, at the same place in [codes],
    passes [test]. *)
Definition servers_with (test : Z -> bool) (names : list string)
    (codes : list Z) : list string :=
  map fst (filter (fun nc => test (snd nc)) (combine names codes)).

(** The events of the summary at the end of [main], for [n] selected
    servers. *)
Definition summary (n : nat) (successes failures : list string) : list event :=
  if (1 <? n)%nat then
    match failures with
    | [] =>
        [EvPrint "";
         EvPrint ("All backups completed successfully ("
                  ++ Py.str (Z.of_nat n) ++ " servers): "
                  ++ Py.join ", " successes)]
    | _ =>
        (match successes with
         | [] => []
         | _ => [EvPrint ""; EvPrint ("Succeeded: " ++ Py.join ", " successes)]
         end
         ++ [EvCall "eprint" [("Failed: " ++ Py.join ", " failures)%string]])%list
    end
  else [].

(** ** [main]: what to do with the large files *)

(** [f"/{rel}"], the pattern that excludes the file [rel]. *)
Definition auto_ignore (rel : string) : string := "/" ++ rel.

(** [f"{i:>2}"] for a string of digits. *)
Definition rjust2 (s : string) : string :=
  if (String.length s <? 2)%nat then " " ++ s else s.

(** [l1] is [l2] with some items left out, the order kept. *)
Inductive subsequence {A : Type} : list A -> list A -> Prop :=
| subsequence_nil : subsequence [] []
| subsequence_skip x l1 l2 : subsequence l1 l2 -> subsequence l1 (x :: l2)
| subsequence_take x l1 l2 : subsequence l1 l2 -> subsequence (x :: l1) (x :: l2).

Section LargeFiles.

(** [sizeof_fmt(size)], which only goes into the text of the messages. *)
Variable sizeof_fmt : Z -> string.

(** [for i, (rel, _full, size) in enumerate(large_files, 1): print(...)] *)
Fixpoint list_large_files (i : Z) (large_files : list (string * string * Z))
  : M unit :=
  match large_files with
  | [] => ret tt
  | (rel, _full, size) :: rest =>
      (print ("  " ++ rjust2 (Py.str i) ++ ". " ++ rel
              ++ "  (" ++ sizeof_fmt size ++ ")") ;;;
       list_large_files (i + 1) rest)%M
  end.

(** The loop of the choice ["s"]: one question for each file. *)
Fixpoint select_large_files (large_files : list (string * string * Z))
    (auto_ignores : list string) : M (list string) :=
  match large_files with
  | [] => ret auto_ignores
  | (rel, _full, size) :: rest =>
      (keep <- prompt_yes_no ("Keep " ++ rel ++ " (" ++ sizeof_fmt size ++ ")?")
                             false ;;
       select_large_files rest
         (if negb keep then (auto_ignores ++ [auto_ignore rel])%list
          else auto_ignores))%M
  end.

(** The part of [main] from [auto_ignores = []] to
    [exclude_patterns.extend(auto_ignores)].  [backupignore] is the file
    [root / ".backupignore"] and [append_error] the [OSError] that opening
    it for appending raises, if any.  The result is the list
    [exclude_patterns] and the file afterwards. *)
Definition handle_large_files (root : string) (args : Args)
    (force_backupignore : bool) (large_file_mb : Z)
    (large_files : list (string * string * Z))
    (exclude_patterns : list string)
    (backupignore : text_file) (append_error : option string)
  : M (list string * text_file) :=
  match large_files with
  | [] => ret (exclude_patterns, backupignore)
  | _ =>
      (print ("Found " ++ Py.str (Z.of_nat (List.length large_files))
              ++ " large file(s) (>= " ++ Py.str large_file_mb ++ " MB):") ;;;
       list_large_files 1 large_files ;;;
       print "" ;;;
       auto_ignores <-
         (if negb (force_all args) then
            line <- input "Handle large files? (k=keep all / i=ignore all / s=select) [s]: " ;;
            let answer := Py.lower (Py.strip line) in
            let choice := if Py.truthy answer then answer else "s" in
            if (choice =? "i")%string then
              ret (map (fun '(rel, _, _) => auto_ignore rel) large_files)
            else if (choice =? "s")%string then
              select_large_files large_files []
            else ret []
          else ret []) ;;
       match auto_ignores with
       | [] => ret (exclude_patterns, backupignore)
       | _ =>
           should_append <-
             (if force_all args || force_backupignore then ret true
              else prompt_yes_no
                     "Append ignored ones to .backupignore for next time?"
                     true) ;;
           backupignore' <-
             (if should_append then
                match append_error with
                | None =>
                    print ("Updated " ++ os_path_join root ".backupignore") ;;;
                    ret (append_text backupignore
                                     (backupignore_addition auto_ignores))
                | Some e =>
                    eprint ("Warning: could not update .backupignore: " ++ e) ;;;
                    ret backupignore
                end
              else ret backupignore) ;;
           ret ((exclude_patterns ++ auto_ignores)%list, backupignore')
       end)%M
  end.

End LargeFiles.

(** ** [main]: which servers *)

Section Servers.

(** The configuration of one server, a [dict] of the program, and
    [config.get("DEFAULT", False)]. *)
Variable server_config : Type.
Variable is_default : server_config -> bool.

(** A [dict] with the names of the servers as keys, in insertion order. *)
Definition servers_dict : Type := list (string * server_config).

(** [d.get(key)] *)
Fixpoint dict_get (d : servers_dict) (key : string) : option server_config :=
  match d with
  | [] => None
  | (k, v) :: d' => if (k =? key)%string then Some v else dict_get d' key
  end.

(** [d[key] = value]: a key that is there keeps its place. *)
Fixpoint dict_set (d : servers_dict) (key : string) (value : server_config)
  : servers_dict :=
  match d with
  | [] => [(key, value)]
  | (k, v) :: d' =>
      if (k =? key)%string then (k, value) :: d'
      else (k, v) :: dict_set d' key value
  end.

(** [[s.strip() for s in server.split(",") if s.strip()]] *)
Definition requested_servers (server : string) : list string :=
  map Py.strip (filter (fun s => Py.truthy (Py.strip s)) (Py.split server ",")).

(** The loop over [requested_servers]; [inl 2] is [return 2]. *)
Fixpoint select_requested (requested : list string) (remotes : servers_dict)
    (selected_servers : servers_dict) : M (Z + servers_dict) :=
  match requested with
  | [] => ret (inr selected_servers)
  | server_name :: rest =>
      match dict_get remotes server_name with
      | Some config =>
          select_requested rest remotes
                           (dict_set selected_servers server_name config)
      | None =>
          (eprint ("Error: server '" ++ server_name ++ "' not found in config") ;;;
           ret (inl 2))%M
      end
  end.

(** "Determine which servers to use" of [main]; [server] is [args.server]. *)
Definition select_servers (server : option string) (remotes : servers_dict)
  : M (Z + servers_dict) :=
  if match server with Some s => Py.truthy s | None => false end then
    select_requested
      (requested_servers (match server with Some s => s | None => "" end))
      remotes []
  else
    let selected_servers := filter (fun '(name, config) => is_default config) remotes in
    match selected_servers with
    | [] =>
        (eprint "Error: no default servers configured (set 'default = true' in config)" ;;;
         ret (inl 2))%M
    | _ => ret (inr selected_servers)
    end.

End Servers.

Arguments dict_get {server_config} d key.
Arguments dict_set {server_config} d key value.
Arguments select_requested {server_config} requested remotes selected_servers.
Arguments select_servers {server_config} is_default server remotes.

(** ** [backup_to_server]: the [rsync] command *)

(** [ssh_base_opts(port, multiplex)]; [home] is [Path.home()]. *)
Definition ssh_base_opts (home : string) (port : Z) (multiplex : bool)
  : list string :=
  if negb multiplex then ["-p"; Py.str port]
  else
    let control_path := os_path_join home ".ssh/pushback-%r@%h-%p" in
    ["-p"; Py.str port; "-o"; "ControlMaster=auto";
     "-o"; "ControlPath=" ++ control_path; "-o"; "ControlPersist=60"].

(** [l.insert(2, x)] *)
Definition insert2 (l : list string) (x : string) : list string :=
  (firstn 2 l ++ x :: skipn 2 l)%list.

Section Rsync.

(** [shlex.split], which raises [ValueError] on a text it cannot split. *)
Variable shlex_split : string -> option (list string).

(** "Build rsync command" of [backup_to_server]: the command, or [None]
    where the function returns 2 for an [--rsync-extra] that cannot be
    split.  [root] is [str(root)]. *)
Definition rsync_command (home root remote_user remote_host : string)
    (remote_port : Z) (multiplex : bool)
    (include_path : option string) (exclude_path : string)
    (delete_remote dry_run stats : bool) (rsync_extra : string)
    (target_remote_dir : string) : option (list string) :=
  let src := root ++ "/" in
  let ssh_opts := Py.join " " (ssh_base_opts home remote_port multiplex) in
  let rsync_cmd :=
    ["rsync"; "-azP"; "--safe-links"; "--prune-empty-dirs"; "-e";
     "ssh " ++ ssh_opts] in
  let rsync_cmd :=
    match include_path with
    | Some p => if Py.truthy p then (rsync_cmd ++ [("--include-from=" ++ p)%string])%list
                else rsync_cmd
    | None => rsync_cmd
    end in
  let rsync_cmd := (rsync_cmd ++ [("--exclude-from=" ++ exclude_path)%string])%list in
  let rsync_cmd := if delete_remote then insert2 rsync_cmd "--delete"
                   else rsync_cmd in
  let rsync_cmd := if dry_run
                   then (rsync_cmd ++ ["--dry-run"; "--itemize-changes"])%list
                   else rsync_cmd in
  let rsync_cmd := if stats then (rsync_cmd ++ ["--stats"])%list else rsync_cmd in
  let finish (rsync_cmd : list string) :=
    (rsync_cmd
     ++ [src; (remote_user ++ "@" ++ remote_host ++ ":" ++ target_remote_dir ++ "/")%string])%list in
  if Py.truthy (Py.strip rsync_extra) then
    match shlex_split rsync_extra with
    | Some tokens =>
        let extra_tokens :=
          filter (fun t => negb (t =? "-e")%string && negb (Py.startswith t "-e"))
                 tokens in
        Some (finish (rsync_cmd ++ extra_tokens)%list)
    | None => None
    end
  else Some (finish rsync_cmd).

End Rsync.

(** * Properties *)

(** ** Decimal notation *)

Lemma forallb_range (P : Z -> bool) (lo n : Z) :
  forallb P (map (fun k => lo + Z.of_nat k) (seq 0 (Z.to_nat n))) = true ->
  forall z, lo <= z < lo + n -> P z = true.
Proof.
  intros H z Hz.
  rewrite forallb_forall in H. apply H.
  apply in_map_iff. exists (Z.to_nat (z - lo)). split; [lia|].
  apply in_seq. lia.
Qed.

Lemma str_YYYY (y : Z) : 1000 <= y <= 9999 -> Py.str y = YYYY y.
Proof.
  intros Hy.
  apply String.eqb_eq.
  apply (forallb_range (fun y => (Py.str y =? YYYY y)%string) 1000 9000);
    [vm_compute; reflexivity | lia].
Qed.

Lemma format_02d_NN (n : Z) : 0 <= n <= 99 -> Py.format_02d n = NN n.
Proof.
  intros Hn.
  apply String.eqb_eq.
  apply (forallb_range (fun n => (Py.format_02d n =? NN n)%string) 0 100);
    [vm_compute; reflexivity | lia].
Qed.

(** ** The calendar *)

Ltac zify_div := Z.div_mod_to_equations; lia.

Lemma is_leap_spec (y : Z) :
  _is_leap y = true <-> (y mod 4 = 0 /\ (y mod 100 <> 0 \/ y mod 400 = 0)).
Proof.
  unfold _is_leap.
  rewrite andb_true_iff, orb_true_iff, negb_true_iff, Z.eqb_neq, !Z.eqb_eq.
  tauto.
Qed.

Definition days_in_year (y : Z) : Z := if _is_leap y then 366 else 365.

Lemma days_before_year_succ (y : Z) :
  _days_before_year (y + 1) = _days_before_year y + days_in_year y.
Proof.
  unfold days_in_year.
  destruct (_is_leap y) eqn:E.
  - apply is_leap_spec in E. unfold _days_before_year. cbv zeta.
    replace (y + 1 - 1) with y by lia. zify_div.
  - assert (H : ~ (y mod 4 = 0 /\ (y mod 100 <> 0 \/ y mod 400 = 0))).
    { intros H. apply is_leap_spec in H. congruence. }
    unfold _days_before_year. cbv zeta.
    replace (y + 1 - 1) with y by lia. zify_div.
Qed.

Lemma days_in_year_cases (y : Z) : days_in_year y = 365 \/ days_in_year y = 366.
Proof. unfold days_in_year. destruct (_is_leap y); auto. Qed.

Lemma ymd2ord_jan1 (y : Z) : _ymd2ord y 1 1 = _days_before_year y + 1.
Proof.
  unfold _ymd2ord, _days_before_month.
  change (nth (Z.to_nat 1) _DAYS_BEFORE_MONTH 0) with 0.
  change (2 <? 1) with false. cbv iota beta delta [andb]. lia.
Qed.

Lemma ymd2ord_dec31 (y : Z) :
  _ymd2ord y 12 31 = _days_before_year y + days_in_year y.
Proof.
  unfold _ymd2ord, _days_before_month, days_in_year.
  change (nth (Z.to_nat 12) _DAYS_BEFORE_MONTH 0) with 334.
  change (2 <? 12) with true. cbv iota beta delta [andb].
  destruct (_is_leap y); lia.
Qed.

(** The days of a month lie inside the year. *)
Lemma month_span (y m : Z) :
  1 <= m <= 12 ->
  0 <= _days_before_month y m
  /\ _days_before_month y m + _days_in_month y m <= days_in_year y
  /\ _days_in_month y m <= 31.
Proof.
  intros Hm.
  assert (C : m = 1 \/ m = 2 \/ m = 3 \/ m = 4 \/ m = 5 \/ m = 6 \/ m = 7
              \/ m = 8 \/ m = 9 \/ m = 10 \/ m = 11 \/ m = 12) by lia.
  unfold _days_before_month, _days_in_month, days_in_year.
  repeat (destruct C as [C | C]); subst m; destruct (_is_leap y);
    repeat split; apply Z.leb_le; vm_compute; reflexivity.
Qed.

Lemma toordinal_bounds (t : datetime) :
  valid t ->
  _days_before_year (year t) + 1 <= toordinal t
  <= _days_before_year (year t) + days_in_year (year t).
Proof.
  unfold valid, toordinal, _ymd2ord.
  intros (_ & Hm & Hd & _).
  pose proof (month_span (year t) (month t) Hm). lia.
Qed.

Lemma isoweek1monday_spec (y : Z) :
  (_isoweek1monday y + 6) mod 7 = 0
  /\ _days_before_year y - 2 <= _isoweek1monday y <= _days_before_year y + 4.
Proof.
  unfold _isoweek1monday. cbv zeta. rewrite ymd2ord_jan1.
  destruct (Z.ltb_spec 3 ((_days_before_year y + 1 + 6) mod 7));
    generalize dependent (_days_before_year y); intros a; intros; zify_div.
Qed.

(** The facts about three neighbouring years that the week arithmetic
    needs, with the year lengths and first Mondays made variables. *)
Ltac calendar_facts y :=
  pose proof (isoweek1monday_spec y);
  pose proof (isoweek1monday_spec (y - 1));
  pose proof (isoweek1monday_spec (y + 1));
  pose proof (days_before_year_succ y);
  pose proof (days_before_year_succ (y + 1));
  let S := fresh in
  pose proof (days_before_year_succ (y - 1)) as S;
  replace (y - 1 + 1) with y in S by lia;
  pose proof (days_in_year_cases y);
  pose proof (days_in_year_cases (y - 1));
  pose proof (days_in_year_cases (y + 1));
  generalize dependent (_isoweek1monday y);
  generalize dependent (_isoweek1monday (y - 1));
  generalize dependent (_isoweek1monday (y + 1));
  generalize dependent (days_in_year y);
  generalize dependent (days_in_year (y - 1));
  generalize dependent (days_in_year (y + 1));
  generalize dependent (_days_before_year y);
  generalize dependent (_days_before_year (y - 1));
  generalize dependent (_days_before_year (y + 1));
  generalize dependent (_days_before_year (y + 1 + 1));
  intros.

(** [isocalendar] follows ISO 8601: the weekday counts from Monday = 1; the
    ISO year is the calendar year that holds the Thursday of the date's
    week, and the ISO week counts the Thursdays of that year up to it. *)
Lemma isocalendar_iso8601 (t : datetime) :
  valid t ->
  forall Y W D, isocalendar t = (Y, W, D) ->
  let thursday := toordinal t - weekday t + 3 in
  D = weekday t + 1
  /\ _ymd2ord Y 1 1 <= thursday <= _ymd2ord Y 12 31
  /\ W = (thursday - _ymd2ord Y 1 1) / 7 + 1.
Proof.
  intros Hv Y W D. cbv zeta.
  pose proof (toordinal_bounds t Hv) as Hb.
  unfold isocalendar, weekday. cbv zeta.
  rewrite !ymd2ord_jan1, !ymd2ord_dec31.
  destruct (Z.ltb_spec ((toordinal t - _isoweek1monday (year t)) / 7) 0);
    [| destruct (Z.leb_spec 52 ((toordinal t - _isoweek1monday (year t)) / 7));
       [destruct (Z.leb_spec (_isoweek1monday (year t + 1)) (toordinal t)) |]];
    intros E; injection E as <- <- <-;
    generalize dependent (toordinal t); intros today; intros;
    calendar_facts (year t); repeat split; zify_div.
Qed.

Lemma days_before_year_mono (a b : Z) :
  a <= b -> _days_before_year a <= _days_before_year b.
Proof. unfold _days_before_year. cbv zeta. intros. zify_div. Qed.

(** A day lies in one calendar year only. *)
Lemma year_unique (x Y Y' : Z) :
  _ymd2ord Y 1 1 <= x <= _ymd2ord Y 12 31 ->
  _ymd2ord Y' 1 1 <= x <= _ymd2ord Y' 12 31 ->
  Y = Y'.
Proof.
  rewrite !ymd2ord_jan1, !ymd2ord_dec31, <- !days_before_year_succ.
  intros H H'.
  destruct (Z.lt_trichotomy Y Y') as [L | [E | L]]; [| exact E |].
  - pose proof (days_before_year_mono (Y + 1) Y'). lia.
  - pose proof (days_before_year_mono (Y' + 1) Y). lia.
Qed.

(** The Monday that starts week 1 of the ISO year [Y] is day 1 of week 1 of
    [Y]; the Sunday before it is day 7 of the last week, 52 or 53, of the
    ISO year [Y - 1]. *)
Lemma isocalendar_week1 (t : datetime) (Y : Z) :
  valid t ->
  (toordinal t = _isoweek1monday Y -> isocalendar t = (Y, 1, 1))
  /\ (toordinal t = _isoweek1monday Y - 1 ->
      exists W, isocalendar t = (Y - 1, W, 7) /\ 52 <= W <= 53).
Proof.
  intros Hv.
  destruct (isocalendar t) as [[Y' W'] D'] eqn:E.
  destruct (isocalendar_iso8601 t Hv _ _ _ E) as (HD & HY & HW).
  unfold weekday in *.
  pose proof (isoweek1monday_spec Y) as (Hmon & Hnear).
  pose proof (days_before_year_succ (Y - 1)) as HS.
  replace (Y - 1 + 1) with Y in HS by lia.
  pose proof (days_in_year_cases Y) as C.
  pose proof (days_in_year_cases (Y - 1)) as C'.
  split; intros Ht; rewrite Ht in *.
  - assert (Y' = Y).
    { apply (year_unique (_isoweek1monday Y - (_isoweek1monday Y + 6) mod 7 + 3));
        [exact HY|].
      rewrite ymd2ord_jan1, ymd2ord_dec31. lia. }
    subst Y'. rewrite ymd2ord_jan1 in HW.
    f_equal; [f_equal|]; [| lia].
    rewrite HW, Hmon. generalize dependent (_days_before_year Y). intros.
    zify_div.
  - assert (Y' = Y - 1).
    { apply (year_unique
               (_isoweek1monday Y - 1 - (_isoweek1monday Y - 1 + 6) mod 7 + 3));
        [exact HY|].
      rewrite ymd2ord_jan1, ymd2ord_dec31.
      generalize dependent (_days_before_year Y).
      generalize dependent (_days_before_year (Y - 1)). intros. zify_div. }
    subst Y'. rewrite ymd2ord_jan1 in HW.
    exists W'.
    split; [f_equal; generalize dependent (_isoweek1monday Y); intros; zify_div |].
    generalize dependent (_days_before_year Y).
    generalize dependent (_days_before_year (Y - 1)).
    generalize dependent (_isoweek1monday Y). intros. zify_div.
Qed.

(** The ISO week is between 1 and 53, and for a date with a four-digit year
    the ISO year has four digits too. *)
Lemma isocalendar_range (t : datetime) (Y W D : Z) :
  valid t -> isocalendar t = (Y, W, D) ->
  1 <= W <= 53 /\ (1000 <= year t -> 1000 <= Y <= 9999).
Proof.
  intros Hv E.
  destruct (isocalendar_iso8601 t Hv _ _ _ E) as (_ & HY & HW).
  rewrite ymd2ord_jan1, ymd2ord_dec31 in HY. rewrite ymd2ord_jan1 in HW.
  pose proof (days_in_year_cases Y) as C.
  split; [zify_div|].
  intros Hy. pose proof (toordinal_bounds t Hv) as Hb.
  destruct Hv as (Hyr & _).
  revert E. unfold isocalendar. cbv zeta.
  destruct (Z.ltb_spec ((toordinal t - _isoweek1monday (year t)) / 7) 0) as [L|L];
    [| destruct (Z.leb_spec 52 ((toordinal t - _isoweek1monday (year t)) / 7));
       [destruct (Z.leb_spec (_isoweek1monday (year t + 1)) (toordinal t)) as [L'|L'] |]];
    intros [= <- _ _]; try lia.
  - (* first days of the year 1000 would have to precede its week 1 *)
    assert (year t = 1000 -> False); [| lia].
    intros Ey. rewrite Ey in *.
    change (_isoweek1monday 1000) with 364876 in L.
    change (_days_before_year 1000) with 364877 in Hb. zify_div.
  - (* last days of the year 9999 would have to reach week 1 of 10000 *)
    assert (year t = 9999 -> False); [| lia].
    intros Ey. rewrite Ey in *.
    change (_isoweek1monday (9999 + 1)) with 3652062 in L'.
    change (_days_before_year 9999) with 3651694 in Hb.
    change (days_in_year 9999) with 365 in Hb. lia.
Qed.

(** ** TimeBucketer *)

Lemma str_inj (a b : Z) : Py.str a = Py.str b -> a = b.
Proof.
  unfold Py.str. intros H.
  apply DecimalZ.to_int_inj.
  assert (N : forall z, Z.to_int z <> Decimal.Pos Decimal.Nil
                        /\ Z.to_int z <> Decimal.Neg Decimal.Nil).
  { intros [|p|p]; cbn; split; try discriminate;
      intros [= E]; exact (Unsigned.to_uint_nonnil p E). }
  apply (f_equal NilZero.int_of_string) in H.
  rewrite !NilZero.isi in H by apply N.
  congruence.
Qed.

Lemma in_window_number (n k t : Z) : 0 < n -> in_window n k t -> t / 3600 / n = k.
Proof.
  unfold in_window. intros Hn H.
  rewrite Z.div_div by lia.
  symmetry. apply (Z.div_unique t (3600 * n) k (t - k * (n * 3600))); lia.
Qed.

Lemma get_time_suffix_custom (n : Z) (now : datetime) :
  n <> 0 ->
  get_time_suffix "custom" n now = Ok ("_I" ++ Py.str (interval_number n now)).
Proof.
  intros Hn. unfold get_time_suffix, floordiv, interval_number.
  cbn [String.eqb Ascii.eqb Bool.eqb].
  destruct (Z.eqb_spec n 0); [contradiction | reflexivity].
Qed.

(** C6 — In [custom] mode with a positive number [n] of hours the suffix is
    [_I] followed by (whole hours since the epoch) // n.  Two instants in
    the same window of [n] hours counted from the epoch get the same suffix;
    an instant in a later window gets a strictly larger interval number, and
    so another suffix, than an instant in an earlier one.  With [n = 6]:
    06:30 and 07:30 UTC of 2025-01-15 share a suffix, 05:30 and 06:30 do
    not. *)
Theorem custom_suffix_buckets (n : Z) :
  0 < n ->
  (forall now,
      get_time_suffix "custom" n now = Ok ("_I" ++ Py.str (timestamp now / 3600 / n)))
  /\ (forall now1 now2 k,
         in_window n k (timestamp now1) -> in_window n k (timestamp now2) ->
         get_time_suffix "custom" n now1 = get_time_suffix "custom" n now2)
  /\ (forall now1 now2 k1 k2,
         in_window n k1 (timestamp now1) -> in_window n k2 (timestamp now2) ->
         k1 < k2 ->
         interval_number n now1 < interval_number n now2
         /\ get_time_suffix "custom" n now1 <> get_time_suffix "custom" n now2)
  /\ (get_time_suffix "custom" 6 (mk_datetime 2025 1 15 6 30 0 1736922600)
      = get_time_suffix "custom" 6 (mk_datetime 2025 1 15 7 30 0 1736926200)
      /\ get_time_suffix "custom" 6 (mk_datetime 2025 1 15 5 30 0 1736919000)
         = Ok "_I80412"
      /\ get_time_suffix "custom" 6 (mk_datetime 2025 1 15 6 30 0 1736922600)
         = Ok "_I80413").
Proof.
  intros Hn. repeat split.
  - intros now. apply get_time_suffix_custom. lia.
  - intros now1 now2 k H1 H2.
    rewrite !get_time_suffix_custom by lia. unfold interval_number.
    rewrite (in_window_number n k _ Hn H1), (in_window_number n k _ Hn H2).
    reflexivity.
  - unfold interval_number.
    rewrite (in_window_number n k1 _ Hn H), (in_window_number n k2 _ Hn H0).
    assumption.
  - rewrite !get_time_suffix_custom by lia. unfold interval_number.
    rewrite (in_window_number n k1 _ Hn H), (in_window_number n k2 _ Hn H0).
    intros [= E]. apply str_inj in E. lia.
Qed.

Lemma custom_suffix_buckets_witness :
  0 < 6 /\ get_time_suffix "custom" 6 t_2025_01_15 = Ok "_I80413".
Proof.
  split; [lia|].
  destruct (custom_suffix_buckets 6) as (H & _); [lia|].
  rewrite H. reflexivity.
Defined.

(** C7 — For a clock reading with a four-digit year every mode gives the
    format of the specification: nothing for [none], [_YYYY] for [yearly],
    [_YYYY-MM] for [monthly], [_YYYY-MM-DD] for [daily], [_YYYY-MM-DDHhh]
    for [hourly], and [_YYYYWww] for [weekly], where year and week are those
    of ISO 8601: the year that holds the Thursday of the date's week, and
    the count of that year's Thursdays up to it.  The Monday that starts
    week 1 of an ISO year gives [W01] of that year, the Sunday before it
    week 52 or 53 of the year before.  Month, day, hour and week have two
    digits. *)
Theorem time_suffix_formats (now : datetime) (custom_hours : Z) :
  valid now -> 1000 <= year now ->
  get_time_suffix "none" custom_hours now = Ok ""
  /\ get_time_suffix "yearly" custom_hours now = Ok ("_" ++ YYYY (year now))
  /\ get_time_suffix "monthly" custom_hours now
     = Ok ("_" ++ YYYY (year now) ++ "-" ++ NN (month now))
  /\ get_time_suffix "daily" custom_hours now
     = Ok ("_" ++ YYYY (year now) ++ "-" ++ NN (month now) ++ "-" ++ NN (day now))
  /\ get_time_suffix "hourly" custom_hours now
     = Ok ("_" ++ YYYY (year now) ++ "-" ++ NN (month now) ++ "-" ++ NN (day now)
               ++ "H" ++ NN (hour now))
  /\ (exists Y W,
         get_time_suffix "weekly" custom_hours now = Ok ("_" ++ YYYY Y ++ "W" ++ NN W)
         /\ 1 <= W <= 53
         /\ let thursday := toordinal now - weekday now + 3 in
            _ymd2ord Y 1 1 <= thursday <= _ymd2ord Y 12 31
            /\ W = (thursday - _ymd2ord Y 1 1) / 7 + 1)
  /\ (forall Y, toordinal now = _isoweek1monday Y ->
                get_time_suffix "weekly" custom_hours now = Ok ("_" ++ YYYY Y ++ "W01"))
  /\ (forall Y, toordinal now = _isoweek1monday Y - 1 ->
                exists W, 52 <= W <= 53
                          /\ get_time_suffix "weekly" custom_hours now
                             = Ok ("_" ++ YYYY (Y - 1) ++ "W" ++ NN W)).
Proof.
  intros Hv Hy.
  pose proof Hv as (Hyr & Hm & Hd & Hh & _).
  assert (Hd' : 1 <= day now <= 31).
  { pose proof (month_span (year now) (month now) Hm) as (_ & _ & ?). lia. }
  assert (EY : Py.str (year now) = YYYY (year now)) by (apply str_YYYY; lia).
  assert (EM : Py.format_02d (month now) = NN (month now))
    by (apply format_02d_NN; lia).
  assert (ED : Py.format_02d (day now) = NN (day now))
    by (apply format_02d_NN; lia).
  assert (EH : Py.format_02d (hour now) = NN (hour now))
    by (apply format_02d_NN; lia).
  assert (weekly : forall Y W D, isocalendar now = (Y, W, D) ->
            get_time_suffix "weekly" custom_hours now
            = Ok ("_" ++ YYYY Y ++ "W" ++ NN W)).
  { intros Y W D E.
    destruct (isocalendar_range now Y W D Hv E) as (HW & HY).
    unfold get_time_suffix. cbn [String.eqb Ascii.eqb Bool.eqb]. rewrite E.
    rewrite str_YYYY by (apply HY; lia). rewrite format_02d_NN by lia.
    reflexivity. }
  split; [reflexivity|].
  split; [unfold get_time_suffix; cbn [String.eqb Ascii.eqb Bool.eqb];
          rewrite EY; reflexivity|].
  split; [unfold get_time_suffix; cbn [String.eqb Ascii.eqb Bool.eqb];
          rewrite EY, EM; reflexivity|].
  split; [unfold get_time_suffix; cbn [String.eqb Ascii.eqb Bool.eqb];
          rewrite EY, EM, ED; reflexivity|].
  split; [unfold get_time_suffix; cbn [String.eqb Ascii.eqb Bool.eqb];
          rewrite EY, EM, ED, EH; reflexivity|].
  split; [| split].
  - destruct (isocalendar now) as [[Y W] D] eqn:E.
    exists Y, W.
    destruct (isocalendar_iso8601 now Hv Y W D E) as (_ & HY & HW).
    destruct (isocalendar_range now Y W D Hv E) as (HR & _).
    split; [exact (weekly Y W D eq_refl)|]. split; [exact HR|].
    split; assumption.
  - intros Y HY.
    destruct (isocalendar_week1 now Y Hv) as (Hmon & _).
    exact (weekly _ _ _ (Hmon HY)).
  - intros Y HY.
    destruct (isocalendar_week1 now Y Hv) as (_ & Hsun).
    destruct (Hsun HY) as (W & E & HW).
    exists W. split; [exact HW | exact (weekly _ _ _ E)].
Qed.

Lemma time_suffix_formats_witness :
  valid t_2025_01_15 /\ 1000 <= year t_2025_01_15
  /\ get_time_suffix "daily" 24 t_2025_01_15 = Ok "_2025-01-15".
Proof.
  assert (Hv : valid t_2025_01_15)
    by (unfold valid; repeat split; apply Z.leb_le; reflexivity).
  assert (Hy : 1000 <= year t_2025_01_15) by (cbn; lia).
  split; [exact Hv|]. split; [exact Hy|].
  destruct (time_suffix_formats t_2025_01_15 24 Hv Hy) as (_ & _ & _ & H & _).
  rewrite H. reflexivity.
Defined.

(** *** Strings *)

Lemma prefix_empty (s : string) : String.prefix "" s = true.
Proof. destruct s; reflexivity. Qed.

Lemma prefix_append (a b : string) : String.prefix a (a ++ b) = true.
Proof.
  induction a as [|c a IH]; cbn; [apply prefix_empty|].
  destruct (ascii_dec c c); [exact IH | contradiction].
Qed.

Lemma prefix_iff (p s : string) :
  String.prefix p s = true <-> exists r, s = p ++ r.
Proof.
  split.
  - revert s. induction p as [|c p IH]; intros s H.
    + exists s. reflexivity.
    + destruct s as [|d s]; cbn in H; [discriminate|].
      destruct (ascii_dec c d); [|discriminate]. subst d.
      destruct (IH s H) as (r & ->). exists r. reflexivity.
  - intros (r & ->). apply prefix_append.
Qed.

Lemma length_append (a b : string) :
  String.length (a ++ b) = (String.length a + String.length b)%nat.
Proof. induction a; cbn; congruence. Qed.

Lemma append_assoc (a b c : string) : (a ++ b) ++ c = a ++ b ++ c.
Proof. induction a; cbn; congruence. Qed.

Lemma append_empty_r (a : string) : a ++ "" = a.
Proof. induction a; cbn; congruence. Qed.

Lemma truthy_iff (s : string) : Py.truthy s = true <-> s <> "".
Proof. destruct s; cbn; split; congruence. Qed.

(** *** The shape of the suffix *)

Lemma In_snapshot_modes (mode : string) :
  In mode snapshot_modes <->
  mode = "yearly" \/ mode = "monthly" \/ mode = "weekly" \/ mode = "daily"
  \/ mode = "hourly" \/ mode = "custom".
Proof. unfold snapshot_modes. cbn. intuition congruence. Qed.

Lemma time_suffix_shape (mode : string) (custom_hours : Z) (now : datetime) :
  custom_hours <> 0 ->
  (In mode snapshot_modes
   /\ exists x, get_time_suffix mode custom_hours now = Ok ("_" ++ x))
  \/ (~ In mode snapshot_modes /\ get_time_suffix mode custom_hours now = Ok "").
Proof.
  intros Hn. rewrite In_snapshot_modes. unfold get_time_suffix.
  destruct (String.eqb_spec mode "none") as [->|N0];
    [right; split; [intuition discriminate | reflexivity]|].
  destruct (String.eqb_spec mode "yearly") as [->|N1];
    [left; split; [tauto | eexists; reflexivity]|].
  destruct (String.eqb_spec mode "monthly") as [->|N2];
    [left; split; [tauto | eexists; reflexivity]|].
  destruct (String.eqb_spec mode "weekly") as [->|N3];
    [left; split; [tauto | destruct (isocalendar now) as [[? ?] ?];
                           eexists; reflexivity]|].
  destruct (String.eqb_spec mode "daily") as [->|N4];
    [left; split; [tauto | eexists; reflexivity]|].
  destruct (String.eqb_spec mode "hourly") as [->|N5];
    [left; split; [tauto | eexists; reflexivity]|].
  destruct (String.eqb_spec mode "custom") as [->|N6].
  - left; split; [tauto|]. unfold floordiv.
    destruct (Z.eqb_spec custom_hours 0); [contradiction|].
    eexists; reflexivity.
  - right; split; [tauto | reflexivity].
Qed.

(** C10 — With a positive interval [get_time_suffix] always returns a
    string.  For [yearly], [monthly], [weekly], [daily], [hourly] and
    [custom] it is not empty and starts with [_]; it is empty exactly for
    [none] and for a mode that is not recognised.  So in a snapshot mode the
    remote name [base_name ++ suffix] is strictly longer than the base name
    it starts with, and [find_existing_snapshot] takes its second branch:
    the first sibling that starts with [base_name ++ suffix]. *)
Theorem time_suffix_nonempty (mode : string) (custom_hours : Z) (now : datetime) :
  0 < custom_hours ->
  exists s,
    get_time_suffix mode custom_hours now = Ok s
    /\ (In mode snapshot_modes -> Py.startswith s "_" = true /\ s <> "")
    /\ (s = "" <-> ~ In mode snapshot_modes)
    /\ (In mode snapshot_modes ->
        forall base_name,
          Py.startswith (base_name ++ s) base_name = true
          /\ (String.length base_name < String.length (base_name ++ s))%nat
          /\ forall siblings,
              find_existing_snapshot siblings base_name s
              = find (fun sibling => Py.startswith sibling (base_name ++ s))
                     siblings).
Proof.
  intros Hn.
  destruct (time_suffix_shape mode custom_hours now) as [(Hin & x & E) | (Hout & E)];
    [lia | |].
  - exists ("_" ++ x). split; [exact E|].
    split; [intros _; split; [apply (prefix_append "_" x) | discriminate]|].
    split; [split; [discriminate | contradiction]|].
    intros _ base_name. split; [apply prefix_append|].
    split; [rewrite length_append; cbn; lia | reflexivity].
  - exists "". split; [exact E|].
    split; [contradiction|]. split; [tauto | contradiction].
Qed.

Lemma time_suffix_nonempty_witness :
  0 < 24 /\ exists s, get_time_suffix "daily" 24 t_2025_01_15 = Ok s /\ s <> "".
Proof.
  split; [lia|].
  destruct (time_suffix_nonempty "daily" 24 t_2025_01_15) as (s & E & H & _);
    [lia|].
  exists s. split; [exact E|].
  apply H. unfold snapshot_modes. cbn. tauto.
Defined.

(** ** CollisionPolicy *)

Lemma for_each_print (f : string -> string) (l : list string) (w : World) :
  for_each l (fun item => print (f item)) w
  = (Ok tt, mk_World (stdin w) (trace w ++ map (fun item => EvPrint (f item)) l)).
Proof.
  revert w. induction l as [|a l IH]; intros [i t]; cbn.
  - rewrite app_nil_r. reflexivity.
  - unfold bind, print, emit. cbn. rewrite IH. cbn.
    rewrite <- app_assoc. reflexivity.
Qed.

Section HandleCollision.

Variable existing : list string.
Variable args : Args.
Variable w : World.

Let forced_new := force_all args || force_collision_new args.
Let forced_update := force_all args || force_collision_update args.

Lemma handle_collision_forced :
  forced_new || forced_update = true ->
  handle_collision existing args w
  = (Ok (if forced_new then "create" else "update"),
     mk_World (stdin w) (trace w ++ [EvCall "handle_collision" existing])).
Proof.
  subst forced_new forced_update. unfold handle_collision.
  destruct args as [fa fn fu v]. cbn.
  destruct fa, fn, fu; cbn; intros H; try discriminate H; reflexivity.
Qed.

Lemma handle_collision_prompted (line : string) (rest : list string) :
  forced_new || forced_update = false ->
  stdin w = line :: rest ->
  let answer := Py.lower (Py.strip line) in
  handle_collision existing args w
  = (Ok (decision false false answer),
     mk_World rest
       (trace w ++ EvCall "handle_collision" existing :: menu existing
        ++ if (decision false false answer =? "abort")%string
           then [EvPrint "Aborted. (Tip: use --force-collision-update or --force-collision-new)"]
           else [])).
Proof.
  subst forced_new forced_update. unfold handle_collision.
  destruct args as [fa fn fu v]. cbn.
  destruct fa, fn, fu; cbn; intros H; try discriminate H.
  intros Hin.
  unfold bind at 1. cbn.
  unfold bind at 1. cbn.
  unfold bind at 1. rewrite for_each_print. cbn.
  unfold bind, input, print, emit. cbn. rewrite Hin.
  unfold decision, menu.
  assert (T : (if Py.truthy (Py.lower (Py.strip line))
               then Py.lower (Py.strip line) else "a")
              = Py.lower (Py.strip line)
              \/ Py.lower (Py.strip line) = "").
  { destruct (Py.lower (Py.strip line)); cbn; auto. }
  destruct T as [-> | ->].
  - destruct (String.eqb_spec (Py.lower (Py.strip line)) "u");
      [| destruct (String.eqb_spec (Py.lower (Py.strip line)) "c")];
      cbn; repeat (rewrite <- app_assoc; cbn); reflexivity.
  - cbn. repeat (rewrite <- app_assoc; cbn). reflexivity.
Qed.

Lemma handle_collision_eof :
  forced_new || forced_update = false ->
  stdin w = [] ->
  exists w', handle_collision existing args w = (Raise EOFError, w')
             /\ invoked_collision existing w w'.
Proof.
  subst forced_new forced_update. unfold handle_collision.
  destruct args as [fa fn fu v]. cbn.
  destruct fa, fn, fu; cbn; intros H; try discriminate H.
  intros Hin.
  unfold bind at 1. cbn.
  unfold bind at 1. cbn.
  unfold bind at 1. rewrite for_each_print. cbn.
  unfold bind, input, print, emit. cbn. rewrite Hin.
  eexists. split; [reflexivity|].
  unfold invoked_collision. cbn.
  repeat (rewrite <- app_assoc; cbn). eexists. reflexivity.
Qed.

(** Whatever the flags and the input, the call is recorded first. *)
Lemma handle_collision_invoked :
  invoked_collision existing w (snd (handle_collision existing args w)).
Proof.
  destruct (forced_new || forced_update) eqn:F.
  - rewrite (handle_collision_forced F). eexists. reflexivity.
  - destruct (stdin w) as [|line rest] eqn:Hin.
    + destruct (handle_collision_eof F Hin) as (w' & -> & H). exact H.
    + rewrite (handle_collision_prompted line rest F Hin). cbn.
      eexists. reflexivity.
Qed.

End HandleCollision.

(** ** RemoteNameResolver *)

Lemma silent_refl (w : World) : silent w w.
Proof. split; [reflexivity|]. exists []. cbn. rewrite app_nil_r. reflexivity. Qed.

Lemma silent_when_print (b : bool) (line : string) (w : World) :
  when b (print line) w
  = (Ok tt, mk_World (stdin w) (trace w ++ if b then [EvPrint line] else [])).
Proof.
  destruct w as [i t], b; cbn; [reflexivity|].
  rewrite app_nil_r. reflexivity.
Qed.

Lemma silent_print_world (b : bool) (line : string) (w : World) :
  silent w (mk_World (stdin w) (trace w ++ if b then [EvPrint line] else [])).
Proof.
  split; [reflexivity|]. exists (if b then [line] else []).
  destruct b; reflexivity.
Qed.

(** A run cannot both be silent and have entered [handle_collision]. *)
Lemma silent_not_invoked (existing : list string) (w w' : World) :
  silent w w' -> ~ invoked_collision existing w w'.
Proof.
  intros (_ & lines & E) (evs & E'). rewrite E in E'.
  apply app_inv_head in E'.
  destruct lines; cbn in E'; discriminate E'.
Qed.

Lemma valid_modes_accept (mode : string) :
  mode = "none" \/ In mode snapshot_modes ->
  existsb (String.eqb mode) valid_modes = true.
Proof.
  rewrite In_snapshot_modes.
  intros [-> | [-> | [-> | [-> | [-> | [-> | ->]]]]]]; reflexivity.
Qed.

(** With settings that [main] accepts, [resolve] is the target block run
    with the suffix of the clock reading. *)
Lemma resolve_determine (r : Remote) (remote_base folder_name suffix mode : string)
    (custom_hours : Z) (now : datetime) (args : Args) (time_suffix : string) :
  0 < custom_hours ->
  mode = "none" \/ In mode snapshot_modes ->
  get_time_suffix mode custom_hours now = Ok time_suffix ->
  resolve r remote_base folder_name suffix mode custom_hours now args
  = determine_target r remote_base folder_name suffix time_suffix mode args.
Proof.
  intros Hn Hm E. unfold resolve.
  destruct (Z.leb_spec custom_hours 0); [lia|].
  rewrite (valid_modes_accept mode Hm). cbn [negb]. rewrite E. reflexivity.
Qed.

Section DetermineTarget.

Variable r : Remote.
Variables remote_base folder_name suffix time_suffix snapshot_mode : string.
Variable args : Args.
Variable w : World.

Let exact := exact_name folder_name suffix time_suffix.

Lemma determine_target_exact :
  ssh_test_dir r (remote_path remote_base exact) = true ->
  determine_target r remote_base folder_name suffix time_suffix snapshot_mode
                   args w
  = (Ok (Target (remote_path remote_base exact)),
     mk_World (stdin w)
       (trace w ++ if verbose args
                   then [EvPrint ("Found existing backup for this time period: "
                                  ++ remote_path remote_base exact)]
                   else [])).
Proof.
  subst exact. unfold determine_target, remote_path, exact_name, base_name.
  intros ->. unfold bind. rewrite silent_when_print. reflexivity.
Qed.

Lemma determine_target_snapshot :
  ssh_test_dir r (remote_path remote_base exact) = false ->
  snapshot_mode <> "none" ->
  time_suffix <> "" ->
  exists w',
    determine_target r remote_base folder_name suffix time_suffix snapshot_mode
                     args w
    = (Ok (Target (remote_path remote_base
                     (snapshot_choice (ssh_list_all r remote_base) exact))), w')
    /\ silent w w'.
Proof.
  subst exact.
  unfold snapshot_choice, determine_target, remote_path, exact_name, base_name.
  intros -> Hm Ht.
  destruct (String.eqb_spec snapshot_mode "none") as [|_]; [contradiction|].
  cbn [negb]. unfold find_existing_snapshot.
  apply truthy_iff in Ht. rewrite Ht. cbn [negb].
  destruct (find _ (ssh_list_all r remote_base)) as [sibling|] eqn:F.
  - apply find_some in F. destruct F as (_ & F).
    apply prefix_iff in F. destruct F as (rest & ->).
    assert (T : Py.truthy (((folder_name ++ "_" ++ suffix) ++ time_suffix) ++ rest)
                = true).
    { apply truthy_iff. destruct folder_name; discriminate. }
    rewrite T. unfold bind. rewrite silent_when_print.
    eexists. split; [reflexivity | apply silent_print_world].
  - unfold bind. rewrite silent_when_print.
    eexists. split; [reflexivity | apply silent_print_world].
Qed.

End DetermineTarget.

(** C2 — If the exact directory [<base>/<name>_<fingerprint><timeSuffix>]
    exists on the remote, the target block returns exactly it, whatever the
    mode, the suffix, the listing, the flags and the input: the run reads
    nothing, shows no prompt and does not enter [handle_collision].  So a
    run at any clock reading of the same time bucket, with settings that
    [main] accepts, resolves to that same directory, silently. *)
Theorem exact_match_is_silent (r : Remote)
    (remote_base folder_name suffix : string) (args : Args) (w : World) :
  (forall time_suffix snapshot_mode,
      ssh_test_dir r (remote_path remote_base
                        (exact_name folder_name suffix time_suffix)) = true ->
      exists w',
        determine_target r remote_base folder_name suffix time_suffix
                         snapshot_mode args w
        = (Ok (Target (remote_path remote_base
                         (exact_name folder_name suffix time_suffix))), w')
        /\ silent w w'
        /\ forall existing, ~ invoked_collision existing w w')
  /\ (forall mode custom_hours now1 now2 time_suffix,
         0 < custom_hours ->
         mode = "none" \/ In mode snapshot_modes ->
         get_time_suffix mode custom_hours now1 = Ok time_suffix ->
         get_time_suffix mode custom_hours now2 = Ok time_suffix ->
         ssh_test_dir r (remote_path remote_base
                           (exact_name folder_name suffix time_suffix)) = true ->
         exists w1 w2,
           resolve r remote_base folder_name suffix mode custom_hours now1 args w
           = (Ok (Target (remote_path remote_base
                            (exact_name folder_name suffix time_suffix))), w1)
           /\ resolve r remote_base folder_name suffix mode custom_hours now2 args w
              = (Ok (Target (remote_path remote_base
                               (exact_name folder_name suffix time_suffix))), w2)
           /\ silent w w1 /\ silent w w2).
Proof.
  assert (core : forall time_suffix snapshot_mode,
      ssh_test_dir r (remote_path remote_base
                        (exact_name folder_name suffix time_suffix)) = true ->
      exists w',
        determine_target r remote_base folder_name suffix time_suffix
                         snapshot_mode args w
        = (Ok (Target (remote_path remote_base
                         (exact_name folder_name suffix time_suffix))), w')
        /\ silent w w').
  { intros time_suffix snapshot_mode H.
    rewrite (determine_target_exact _ _ _ _ _ snapshot_mode args w H).
    eexists. split; [reflexivity | apply silent_print_world]. }
  split.
  - intros time_suffix snapshot_mode H.
    destruct (core time_suffix snapshot_mode H) as (w' & E & S).
    exists w'. split; [exact E|]. split; [exact S|].
    intros existing. apply silent_not_invoked. exact S.
  - intros mode custom_hours now1 now2 time_suffix Hn Hm E1 E2 H.
    rewrite (resolve_determine _ _ _ _ _ _ now1 _ time_suffix Hn Hm E1).
    rewrite (resolve_determine _ _ _ _ _ _ now2 _ time_suffix Hn Hm E2).
    destruct (core time_suffix mode H) as (w' & E & S).
    exists w', w'. rewrite E. repeat split; try reflexivity; apply S.
Qed.

Lemma exact_match_is_silent_witness :
  let r := example_remote (String.eqb "~/pushback/app_a1b2c3d4_2025-01-15")
                          ["app_a1b2c3d4_2025-01-15"] in
  ssh_test_dir r (remote_path "~/pushback"
                    (exact_name "app" "a1b2c3d4" "_2025-01-15")) = true
  /\ exists w',
      determine_target r "~/pushback" "app" "a1b2c3d4" "_2025-01-15" "daily"
                       no_flags (world [])
      = (Ok (Target "~/pushback/app_a1b2c3d4_2025-01-15"), w').
Proof.
  cbv zeta. split; [reflexivity|].
  destruct (exact_match_is_silent
              (example_remote (String.eqb "~/pushback/app_a1b2c3d4_2025-01-15")
                              ["app_a1b2c3d4_2025-01-15"])
              "~/pushback" "app" "a1b2c3d4" no_flags (world [])) as (H & _).
  destruct (H "_2025-01-15" "daily") as (w' & E & _); [reflexivity|].
  exists w'. exact E.
Defined.

Lemma prefix_same_length (p s : string) :
  String.length p = String.length s -> String.prefix p s = true -> p = s.
Proof.
  intros L H. apply prefix_iff in H. destruct H as (rest & ->).
  rewrite length_append in L.
  destruct rest; [symmetry; apply append_empty_r | cbn in L; lia].
Qed.

Lemma append_inj_l (a b c : string) : a ++ b = a ++ c -> b = c.
Proof. induction a; cbn; [auto | intros [= H]; auto]. Qed.

(** The suffix of the modes that print calendar fields, for a clock
    reading with a four-digit year. *)
Lemma calendar_suffix_forms (now : datetime) (custom_hours : Z) :
  valid now -> 1000 <= year now ->
  get_time_suffix "yearly" custom_hours now = Ok ("_" ++ YYYY (year now))
  /\ get_time_suffix "monthly" custom_hours now
     = Ok ("_" ++ YYYY (year now) ++ "-" ++ NN (month now))
  /\ get_time_suffix "daily" custom_hours now
     = Ok ("_" ++ YYYY (year now) ++ "-" ++ NN (month now) ++ "-" ++ NN (day now))
  /\ get_time_suffix "hourly" custom_hours now
     = Ok ("_" ++ YYYY (year now) ++ "-" ++ NN (month now) ++ "-" ++ NN (day now)
               ++ "H" ++ NN (hour now)).
Proof.
  intros (Hyr & Hm & Hd & Hh & _) Hy.
  pose proof (month_span (year now) (month now) Hm) as (_ & _ & M).
  unfold get_time_suffix. cbn [String.eqb Ascii.eqb Bool.eqb].
  rewrite (str_YYYY (year now)) by lia.
  rewrite (format_02d_NN (month now)), (format_02d_NN (day now)),
    (format_02d_NN (hour now)) by lia.
  repeat split; reflexivity.
Qed.

Lemma weekly_suffix_of (custom_hours : Z) (t : datetime) (Y W D : Z) :
  valid t -> 1000 <= year t -> isocalendar t = (Y, W, D) ->
  get_time_suffix "weekly" custom_hours t = Ok ("_" ++ YYYY Y ++ "W" ++ NN W)
  /\ 1000 <= Y <= 9999 /\ 1 <= W <= 53.
Proof.
  intros Hv Hy E.
  destruct (isocalendar_range t Y W D Hv E) as (HW & HY).
  split; [| split; [apply HY; exact Hy | exact HW]].
  unfold get_time_suffix. cbn [String.eqb Ascii.eqb Bool.eqb]. rewrite E.
  rewrite str_YYYY by (apply HY; lia). rewrite format_02d_NN by lia.
  reflexivity.
Qed.

(** In the five calendar modes the suffix has a width that depends on the
    mode only (for four-digit years), so the exact name of one bucket never
    starts with the exact name of another. *)
Lemma calendar_suffix_width (mode : string) (custom_hours : Z)
    (now1 now2 : datetime) (ts1 ts2 : string) :
  In mode snapshot_modes -> mode <> "custom" ->
  valid now1 -> 1000 <= year now1 -> valid now2 -> 1000 <= year now2 ->
  get_time_suffix mode custom_hours now1 = Ok ts1 ->
  get_time_suffix mode custom_hours now2 = Ok ts2 ->
  String.length ts1 = String.length ts2.
Proof.
  intros Hin Hc V1 Y1 V2 Y2.
  destruct (calendar_suffix_forms now1 custom_hours V1 Y1) as (Ay & Am & Ad & Ah).
  destruct (calendar_suffix_forms now2 custom_hours V2 Y2) as (By & Bm & Bd & Bh).
  destruct (isocalendar now1) as [[Ya Wa] Da] eqn:Ia.
  destruct (isocalendar now2) as [[Yb Wb] Db] eqn:Ib.
  destruct (weekly_suffix_of custom_hours now1 Ya Wa Da V1 Y1 Ia) as (Aw & _).
  destruct (weekly_suffix_of custom_hours now2 Yb Wb Db V2 Y2 Ib) as (Bw & _).
  apply In_snapshot_modes in Hin.
  destruct Hin as [-> | [-> | [-> | [-> | [-> | ->]]]]]; [..| contradiction];
    intros E1 E2.
  - rewrite Ay in E1. rewrite By in E2.
    injection E1 as <-. injection E2 as <-. reflexivity.
  - rewrite Am in E1. rewrite Bm in E2.
    injection E1 as <-. injection E2 as <-. reflexivity.
  - rewrite Aw in E1. rewrite Bw in E2.
    injection E1 as <-. injection E2 as <-. reflexivity.
  - rewrite Ad in E1. rewrite Bd in E2.
    injection E1 as <-. injection E2 as <-. reflexivity.
  - rewrite Ah in E1. rewrite Bh in E2.
    injection E1 as <-. injection E2 as <-. reflexivity.
Qed.

Lemma other_bucket_no_match (base ts1 ts2 : string) :
  String.length ts1 = String.length ts2 -> ts1 <> ts2 ->
  Py.startswith (base ++ ts1) (base ++ ts2) = false.
Proof.
  intros L N. unfold Py.startswith.
  destruct (String.prefix (base ++ ts2) (base ++ ts1)) eqn:P; [|reflexivity].
  apply prefix_same_length in P.
  - apply append_inj_l in P. congruence.
  - rewrite !length_append. lia.
Qed.

Lemma snapshot_choice_found (listing : list string) (exact : string) :
  (exists s, In s listing /\ Py.startswith s exact = true) ->
  In (snapshot_choice listing exact) listing
  /\ Py.startswith (snapshot_choice listing exact) exact = true.
Proof.
  intros (s & Hin & Hs). unfold snapshot_choice.
  destruct (find _ listing) as [x|] eqn:F.
  - apply find_some in F. exact F.
  - pose proof (find_none _ _ F s Hin) as C. cbn in C. congruence.
Qed.

Lemma snapshot_choice_mint (listing : list string) (exact : string) :
  (forall s, In s listing -> Py.startswith s exact = false) ->
  snapshot_choice listing exact = exact.
Proof.
  intros H. unfold snapshot_choice.
  destruct (find _ listing) as [x|] eqn:F; [|reflexivity].
  apply find_some in F. destruct F as (Hin & Hx).
  rewrite (H x Hin) in Hx. discriminate.
Qed.

(** C3 — as the specification states it, refuted: a listed directory of
    another bucket of the project can keep the run from making the name of
    the current bucket.  On 2025-01-15 at 10:00 UTC, with [custom] mode and
    an interval of 60 hours, the suffix is [_I8041]; the remote holds
    [app_a1b2c3d4_I80413], the bucket of the same hour for an interval of 6
    hours; the exact directory is absent, and the run returns the other
    bucket's directory.  In the same way in [yearly] mode, suffix [_2025],
    the daily directory [app_a1b2c3d4_2025-01-15] is returned. *)
Lemma other_bucket_is_reused :
  let six_hourly := example_remote (fun _ => false) ["app_a1b2c3d4_I80413"] in
  let daily := example_remote (fun _ => false) ["app_a1b2c3d4_2025-01-15"] in
  (get_time_suffix "custom" 6 t_2025_01_15 = Ok "_I80413"
   /\ get_time_suffix "custom" 60 t_2025_01_15 = Ok "_I8041"
   /\ ssh_test_dir six_hourly
        (remote_path "~/pushback" (exact_name "app" "a1b2c3d4" "_I8041")) = false
   /\ ssh_list_all six_hourly "~/pushback" = ["app_a1b2c3d4_I80413"]
   /\ fst (resolve six_hourly "~/pushback" "app" "a1b2c3d4" "custom" 60
                   t_2025_01_15 no_flags (world []))
      = Ok (Target "~/pushback/app_a1b2c3d4_I80413"))
  /\ (get_time_suffix "daily" 24 t_2025_01_15 = Ok "_2025-01-15"
      /\ get_time_suffix "yearly" 24 t_2025_01_15 = Ok "_2025"
      /\ ssh_test_dir daily
           (remote_path "~/pushback" (exact_name "app" "a1b2c3d4" "_2025")) = false
      /\ ssh_list_all daily "~/pushback" = ["app_a1b2c3d4_2025-01-15"]
      /\ fst (resolve daily "~/pushback" "app" "a1b2c3d4" "yearly" 24
                      t_2025_01_15 no_flags (world []))
         = Ok (Target "~/pushback/app_a1b2c3d4_2025-01-15")).
Proof. cbv zeta. repeat split; vm_compute; reflexivity. Qed.

(** C3, amended — In a snapshot mode, when the exact directory is absent,
    the run looks through the listing for a name that starts with
    [<name>_<fingerprint><timeSuffix>]: if there is one it returns one (the
    first), otherwise it returns the exact name, a new bucket.  Either way it
    is silent and does not enter [handle_collision].  A listed directory of
    another bucket is returned only if its name starts with the exact name;
    in the calendar modes a listing made of exact names of other buckets of
    the same mode, such as yesterday's daily directory, never holds such a
    name, so the new name is returned. *)
Theorem snapshot_mode_never_collides (r : Remote)
    (remote_base folder_name suffix mode : string) (custom_hours : Z)
    (now : datetime) (args : Args) (w : World) :
  In mode snapshot_modes -> 0 < custom_hours ->
  exists time_suffix,
    get_time_suffix mode custom_hours now = Ok time_suffix
    /\ let exact := exact_name folder_name suffix time_suffix in
       let choice := snapshot_choice (ssh_list_all r remote_base) exact in
       (ssh_test_dir r (remote_path remote_base exact) = false ->
        exists w',
          resolve r remote_base folder_name suffix mode custom_hours now args w
          = (Ok (Target (remote_path remote_base choice)), w')
          /\ silent w w'
          /\ forall existing, ~ invoked_collision existing w w')
       /\ ((exists s, In s (ssh_list_all r remote_base) /\ Py.startswith s exact = true) ->
           In choice (ssh_list_all r remote_base) /\ Py.startswith choice exact = true)
       /\ ((forall s, In s (ssh_list_all r remote_base) -> Py.startswith s exact = false) ->
           choice = exact)
       /\ (mode <> "custom" -> valid now -> 1000 <= year now ->
           (forall s, In s (ssh_list_all r remote_base) ->
                      exists old old_suffix,
                        valid old /\ 1000 <= year old
                        /\ get_time_suffix mode custom_hours old = Ok old_suffix
                        /\ old_suffix <> time_suffix
                        /\ s = exact_name folder_name suffix old_suffix) ->
           choice = exact).
Proof.
  intros Hin Hn.
  destruct (time_suffix_shape mode custom_hours now) as [(_ & x & E) | (Hout & _)];
    [lia | | contradiction].
  assert (Hne : "_" ++ x <> "") by discriminate.
  set (time_suffix := "_" ++ x) in *.
  exists time_suffix. split; [exact E|]. cbv zeta.
  split; [| split; [apply snapshot_choice_found | split; [apply snapshot_choice_mint|]]].
  - intros Habs.
    rewrite (resolve_determine _ _ _ _ _ _ now _ time_suffix Hn (or_intror Hin) E).
    destruct (determine_target_snapshot r remote_base folder_name suffix
                time_suffix mode args w Habs) as (w' & E' & S).
    + intros ->. apply In_snapshot_modes in Hin. intuition discriminate.
    + exact Hne.
    + exists w'. split; [exact E'|]. split; [exact S|].
      intros existing. apply silent_not_invoked. exact S.
  - intros Hc Hv Hy Hall. apply snapshot_choice_mint.
    intros s Hs.
    destruct (Hall s Hs) as (old & old_suffix & Vo & Yo & Eo & No & ->).
    unfold exact_name. apply other_bucket_no_match; [| exact No].
    exact (calendar_suffix_width mode custom_hours old now _ _ Hin Hc Vo Yo Hv Hy Eo E).
Qed.

Lemma snapshot_mode_never_collides_witness :
  let r := example_remote (fun _ => false) ["app_a1b2c3d4_2025-01-14"] in
  In "daily" snapshot_modes /\ 0 < 24
  /\ ssh_test_dir r (remote_path "~/pushback"
                       (exact_name "app" "a1b2c3d4" "_2025-01-15")) = false
  /\ exists w',
      resolve r "~/pushback" "app" "a1b2c3d4" "daily" 24 t_2025_01_15 no_flags
              (world [])
      = (Ok (Target "~/pushback/app_a1b2c3d4_2025-01-15"), w').
Proof.
  cbv zeta.
  assert (Hin : In "daily" snapshot_modes) by (unfold snapshot_modes; cbn; tauto).
  assert (Hn : 0 < 24) by lia.
  split; [exact Hin|]. split; [exact Hn|]. split; [reflexivity|].
  destruct (snapshot_mode_never_collides
              (example_remote (fun _ => false) ["app_a1b2c3d4_2025-01-14"])
              "~/pushback" "app" "a1b2c3d4" "daily" 24 t_2025_01_15 no_flags
              (world []) Hin Hn) as (ts & E & H & _).
  assert (ts = "_2025-01-15") by (vm_compute in E; congruence). subst ts.
  destruct (H eq_refl) as (w' & E' & _).
  exists w'. exact E'.
Defined.

Section NoSnapshotMode.

Variable r : Remote.
Variables remote_base folder_name suffix : string.
Variable args : Args.
Variable w : World.

Let exact := exact_name folder_name suffix "".
Let other_hash_dirs :=
  filter (fun s => negb (s =? base_name folder_name suffix)%string)
         (ssh_list_siblings r remote_base folder_name).

Lemma other_hash_dirs_spec :
  other_hash_dirs <> []
  <-> exists s, In s (ssh_list_siblings r remote_base folder_name)
                /\ s <> base_name folder_name suffix.
Proof.
  subst other_hash_dirs. split.
  - destruct (filter _ _) as [|s l] eqn:F; [congruence|]. intros _.
    assert (Hs : In s (s :: l)) by (left; reflexivity).
    rewrite <- F in Hs. apply filter_In in Hs. destruct Hs as (Hs & Hne).
    exists s. split; [exact Hs|].
    apply negb_true_iff, String.eqb_neq in Hne. exact Hne.
  - intros (s & Hs & Hne) E.
    assert (Hin : In s (filter (fun s => negb (s =? base_name folder_name suffix)%string)
                               (ssh_list_siblings r remote_base folder_name))).
    { apply filter_In. split; [exact Hs|].
      apply negb_true_iff, String.eqb_neq. exact Hne. }
    rewrite E in Hin. exact Hin.
Qed.

(** The branch for no snapshots, case by case. *)
Lemma determine_target_none :
  ssh_test_dir r (remote_path remote_base exact) = false ->
  determine_target r remote_base folder_name suffix "" "none" args w
  = match other_hash_dirs with
    | [] => (Ok (Target (remote_path remote_base exact)), w)
    | _ :: _ =>
        match handle_collision other_hash_dirs args w with
        | (Ok action, w1) =>
            if (action =? "abort")%string then (Ok (Return 1), w1)
            else if (action =? "update")%string then
              (Ok (Target (remote_path remote_base (last other_hash_dirs ""))),
               mk_World (stdin w1)
                 (trace w1 ++
                  if verbose args
                  then [EvPrint ("Collision -> updating: "
                                 ++ remote_path remote_base
                                      (last other_hash_dirs ""))]
                  else []))
            else
              (Ok (Target (remote_path remote_base exact)),
               mk_World (stdin w1)
                 (trace w1 ++
                  if verbose args
                  then [EvPrint ("Collision -> creating new: "
                                 ++ remote_path remote_base exact)]
                  else []))
        | (Raise e, w1) => (Raise e, w1)
        end
    end.
Proof.
  subst exact other_hash_dirs.
  unfold determine_target, remote_path, exact_name, base_name.
  intros ->. change ("none" =? "none")%string with true. cbn [negb].
  destruct (filter _ _) as [|s l]; [reflexivity|].
  unfold bind at 1.
  destruct (handle_collision (s :: l) args w) as [[action|e] w1]; [|reflexivity].
  destruct (action =? "abort")%string; [reflexivity|].
  destruct (action =? "update")%string.
  - unfold bind, last_item, ret. rewrite silent_when_print. reflexivity.
  - unfold bind. rewrite silent_when_print. reflexivity.
Qed.

Lemma determine_target_none_invoked :
  ssh_test_dir r (remote_path remote_base exact) = false ->
  other_hash_dirs <> [] ->
  invoked_collision other_hash_dirs w
    (snd (determine_target r remote_base folder_name suffix "" "none" args w)).
Proof.
  intros Habs Hne. rewrite (determine_target_none Habs).
  pose proof (handle_collision_invoked other_hash_dirs args w) as (evs & Hi).
  destruct other_hash_dirs as [|s l] eqn:Eo; [congruence|].
  destruct (handle_collision (s :: l) args w) as [[action|e] w1]; cbn in Hi.
  - destruct (action =? "abort")%string; [exists evs; exact Hi|].
    destruct (action =? "update")%string; cbn; rewrite Hi;
      rewrite <- app_assoc; cbn; eexists; reflexivity.
  - exists evs. exact Hi.
Qed.

End NoSnapshotMode.

Lemma append_eq_self (a b : string) : a ++ b = a -> b = "".
Proof.
  intros H. apply (append_inj_l a). rewrite append_empty_r. exact H.
Qed.

Lemma not_invoked_same_world (existing : list string) (w : World) :
  ~ invoked_collision existing w w.
Proof.
  intros (evs & E).
  apply (f_equal (@List.length event)) in E.
  rewrite length_app in E. cbn in E. lia.
Qed.

(** C1 — as the specification states it, refuted: with snapshot mode [none]
    and the listing [app_a1b2c3d4_2025-01-14] no sibling carries a foreign
    fingerprint, the exact directory [app_a1b2c3d4] is absent, and yet the
    run enters [handle_collision]. *)
Lemma same_fingerprint_sibling_collides :
  let r := example_remote (fun _ => false) ["app_a1b2c3d4_2025-01-14"] in
  let run := resolve r "~/pushback" "app" "a1b2c3d4" "none" 24 t_2025_01_15
                     no_flags (world ["c"]) in
  ssh_test_dir r (remote_path "~/pushback" (exact_name "app" "a1b2c3d4" "")) = false
  /\ existsb (foreign_fingerprint "app" "a1b2c3d4") (ssh_list_siblings r "~/pushback" "app")
     = false
  /\ invoked_collision ["app_a1b2c3d4_2025-01-14"] (world ["c"]) (snd run).
Proof.
  cbv zeta. split; [reflexivity|]. split; [reflexivity|].
  unfold invoked_collision. vm_compute. eexists. reflexivity.
Qed.

(** C1, amended — With snapshot mode [none] and the exact directory
    [<name>_<fingerprint>] absent, the run enters [handle_collision] if and
    only if the list that [ssh_list_siblings] returns for the base and the
    folder name, the lines that the remote printed for [<name>_*], holds a
    name other than [<name>_<fingerprint>] itself; the candidates passed
    on are all those names.  A sibling with the project's own
    fingerprint and a time suffix is such a name, and does trigger it.
    Without such a name the run returns the exact directory and does
    nothing else. *)
Theorem collision_iff_other_sibling (r : Remote)
    (remote_base folder_name suffix : string) (custom_hours : Z)
    (now : datetime) (args : Args) (w : World) :
  0 < custom_hours ->
  ssh_test_dir r (remote_path remote_base (exact_name folder_name suffix ""))
  = false ->
  let other_hash_dirs :=
    filter (fun s => negb (s =? base_name folder_name suffix)%string)
           (ssh_list_siblings r remote_base folder_name) in
  let run := resolve r remote_base folder_name suffix "none" custom_hours now
                     args w in
  let other_sibling :=
    exists s, In s (ssh_list_siblings r remote_base folder_name)
              /\ s <> base_name folder_name suffix in
  ((exists existing, invoked_collision existing w (snd run)) <-> other_sibling)
  /\ (other_sibling -> invoked_collision other_hash_dirs w (snd run))
  /\ (~ other_sibling ->
      run = (Ok (Target (remote_path remote_base
                           (exact_name folder_name suffix ""))), w))
  /\ (forall time_suffix,
         time_suffix <> "" ->
         In (exact_name folder_name suffix time_suffix)
            (ssh_list_siblings r remote_base folder_name) ->
         invoked_collision other_hash_dirs w (snd run)).
Proof.
  intros Hn Habs. cbv zeta.
  rewrite (resolve_determine r remote_base folder_name suffix "none" custom_hours
             now args "" Hn (or_introl eq_refl) eq_refl).
  pose proof (other_hash_dirs_spec r remote_base folder_name suffix) as Hspec.
  pose proof (determine_target_none r remote_base folder_name suffix args w Habs)
    as Hnone.
  pose proof (determine_target_none_invoked r remote_base folder_name suffix
                args w Habs) as Hinv.
  cbv zeta in Hspec, Hnone, Hinv.
  assert (Hyes : (exists s, In s (ssh_list_siblings r remote_base folder_name)
                            /\ s <> base_name folder_name suffix) ->
                 invoked_collision
                   (filter (fun s => negb (s =? base_name folder_name suffix)%string)
                           (ssh_list_siblings r remote_base folder_name)) w
                   (snd (determine_target r remote_base folder_name suffix ""
                           "none" args w))).
  { intros H. apply Hinv. apply Hspec. exact H. }
  assert (Hno : ~ (exists s, In s (ssh_list_siblings r remote_base folder_name)
                             /\ s <> base_name folder_name suffix) ->
                determine_target r remote_base folder_name suffix "" "none" args w
                = (Ok (Target (remote_path remote_base
                                 (exact_name folder_name suffix ""))), w)).
  { intros H. rewrite Hnone.
    destruct (filter _ (ssh_list_siblings r remote_base folder_name)) as [|s l] eqn:F;
      [reflexivity|].
    exfalso. apply H, Hspec. discriminate. }
  split; [| split; [exact Hyes | split; [exact Hno |]]].
  - split; [| intros H; eexists; apply Hyes; exact H].
    intros (existing & Hi).
    destruct (filter (fun s => negb (s =? base_name folder_name suffix)%string)
                     (ssh_list_siblings r remote_base folder_name)) as [|s l] eqn:F.
    + rewrite Hnone in Hi. cbn in Hi.
      exfalso. exact (not_invoked_same_world _ _ Hi).
    + apply Hspec. discriminate.
  - intros time_suffix Hts Hin. apply Hyes.
    exists (exact_name folder_name suffix time_suffix). split; [exact Hin|].
    unfold exact_name. intros E. apply append_eq_self in E. contradiction.
Qed.

Lemma collision_iff_other_sibling_witness :
  let r := example_remote (fun _ => false) ["app_deadbeef"] in
  0 < 24
  /\ ssh_test_dir r (remote_path "~/pushback" (exact_name "app" "a1b2c3d4" ""))
     = false
  /\ invoked_collision ["app_deadbeef"] (world ["u"])
       (snd (resolve r "~/pushback" "app" "a1b2c3d4" "none" 24 t_2025_01_15
                     no_flags (world ["u"]))).
Proof.
  cbv zeta.
  assert (Hn : 0 < 24) by lia.
  split; [exact Hn|]. split; [reflexivity|].
  destruct (collision_iff_other_sibling
              (example_remote (fun _ => false) ["app_deadbeef"])
              "~/pushback" "app" "a1b2c3d4" 24 t_2025_01_15 no_flags
              (world ["u"]) Hn eq_refl) as (_ & H & _).
  apply H. exists "app_deadbeef". split; [left; reflexivity | discriminate].
Defined.

(** C4 — The decision of [handle_collision] is the table of the
    specification applied to the two forces and to the answer typed at the
    prompt (taken without surrounding blanks and in lower case).  Forced-new
    gives [create] with or without forced-update, so [--force-all] gives
    [create]; forced-update alone gives [update]; with neither, [u] gives
    [update], [c] gives [create], anything else, the empty line included,
    gives [abort].  Forced decisions read nothing and print nothing.  In
    [backup_to_server] the update goes to the last candidate. *)
Theorem collision_decision_table (existing : list string) (args : Args)
    (w : World) :
  let forced_new := force_all args || force_collision_new args in
  let forced_update := force_all args || force_collision_update args in
  (forced_new || forced_update = true ->
   forall answer,
     handle_collision existing args w
     = (Ok (decision forced_new forced_update answer),
        mk_World (stdin w) (trace w ++ [EvCall "handle_collision" existing])))
  /\ (forall line rest,
         stdin w = line :: rest ->
         fst (handle_collision existing args w)
         = Ok (decision forced_new forced_update (Py.lower (Py.strip line))))
  /\ (forall answer, forced_new = true ->
                     decision forced_new forced_update answer = "create")
  /\ (force_all args = true -> forced_new = true /\ forced_update = true)
  /\ (forall answer, forced_new = false -> forced_update = true ->
                     decision forced_new forced_update answer = "update")
  /\ (decision false false "u" = "update"
      /\ decision false false "c" = "create"
      /\ (forall answer, answer <> "u" -> answer <> "c" ->
                         decision false false answer = "abort")
      /\ Py.lower (Py.strip "") = "")
  /\ (forall r remote_base folder_name suffix,
         ssh_test_dir r (remote_path remote_base
                           (exact_name folder_name suffix "")) = false ->
         forced_new = false -> forced_update = true ->
         let other_hash_dirs :=
           filter (fun s => negb (s =? base_name folder_name suffix)%string)
                  (ssh_list_siblings r remote_base folder_name) in
         other_hash_dirs <> [] ->
         fst (determine_target r remote_base folder_name suffix "" "none" args w)
         = Ok (Target (remote_path remote_base (last other_hash_dirs "")))).
Proof.
  cbv zeta.
  split; [| split; [| split; [| split; [| split; [| split]]]]].
  - intros F answer. rewrite (handle_collision_forced existing args w F).
    unfold decision.
    destruct (force_all args || force_collision_new args); [reflexivity|].
    cbn in F. rewrite F. reflexivity.
  - intros line rest Hin.
    destruct (force_all args || force_collision_new args
              || (force_all args || force_collision_update args)) eqn:F.
    + rewrite (handle_collision_forced existing args w F). cbn [fst].
      unfold decision.
      destruct (force_all args || force_collision_new args); [reflexivity|].
      cbn in F. rewrite F. reflexivity.
    + rewrite (handle_collision_prompted existing args w line rest F Hin).
      cbn [fst]. apply orb_false_elim in F. destruct F as (-> & ->).
      reflexivity.
  - intros answer ->. reflexivity.
  - intros ->. split; reflexivity.
  - intros answer -> ->. reflexivity.
  - split; [reflexivity|]. split; [reflexivity|]. split; [|reflexivity].
    intros answer Hu Hc. unfold decision.
    apply String.eqb_neq in Hu, Hc. rewrite Hu, Hc. reflexivity.
  - intros r remote_base folder_name suffix Habs Fn Fu Hne.
    rewrite (determine_target_none r remote_base folder_name suffix args w Habs).
    cbv zeta.
    destruct (filter _ (ssh_list_siblings r remote_base folder_name)) as [|s l] eqn:F;
      [congruence|].
    rewrite handle_collision_forced by (rewrite Fn, Fu; reflexivity).
    rewrite Fn. reflexivity.
Qed.

Lemma collision_decision_table_witness :
  force_all (mk_Args false false true false)
  || force_collision_new (mk_Args false false true false)
  || (force_all (mk_Args false false true false)
      || force_collision_update (mk_Args false false true false)) = true
  /\ fst (handle_collision ["app_deadbeef"] (mk_Args false false true false)
            (world []))
     = Ok "update".
Proof.
  split; [reflexivity|].
  destruct (collision_decision_table ["app_deadbeef"]
              (mk_Args false false true false) (world [])) as (H & _).
  rewrite (H eq_refl ""). reflexivity.
Defined.


(** ** IgnoreSetBuilder *)

Lemma join_snoc (pre : list string) (p : string) :
  Py.join "/" (pre ++ [p])
  = match pre with
    | [] => p
    | _ => Py.join "/" pre ++ "/" ++ p
    end.
Proof.
  unfold Py.join. induction pre as [|a pre IH]; [reflexivity|].
  destruct pre as [|b pre].
  - reflexivity.
  - change (String.concat "/" ((a :: b :: pre) ++ [p]))
      with (a ++ "/" ++ String.concat "/" ((b :: pre) ++ [p])).
    rewrite IH.
    change (String.concat "/" (a :: b :: pre))
      with (a ++ "/" ++ String.concat "/" (b :: pre)).
    rewrite !append_assoc. reflexivity.
Qed.

Lemma join_truthy (pre : list string) :
  pre <> [] -> Forall (fun p => Py.truthy p = true) pre ->
  Py.truthy (Py.join "/" pre) = true.
Proof.
  unfold Py.join. destruct pre as [|a pre]; [congruence|].
  intros _ H. inversion_clear H as [|? ? Ha _].
  destruct a; [discriminate|]. destruct pre; reflexivity.
Qed.

Section ParentDirs.

Variable anchored : bool.

Let entry (parts : list string) (k : nat) : string :=
  let path := Py.join "/" (firstn k parts) in
  if anchored then "/" ++ path else path.

(** The loop of [parent_dirs_for], started after the components [pre]. *)
Lemma parent_dirs_loop (l pre acc : list string) :
  Forall (fun p => Py.truthy p = true) (pre ++ l) ->
  fold_left (parent_dirs_step anchored) l (Py.join "/" pre, acc)
  = (Py.join "/" (pre ++ l),
     acc ++ map (entry (pre ++ l)) (seq (S (List.length pre)) (List.length l)))%list.
Proof.
  revert pre acc. induction l as [|p l IH]; intros pre acc Hall.
  - cbn. rewrite !app_nil_r. reflexivity.
  - cbn [fold_left]. unfold parent_dirs_step at 2.
    assert (Hcur : (if Py.truthy (Py.join "/" pre)
                    then Py.join "/" pre ++ "/" else "") ++ p
                   = Py.join "/" (pre ++ [p])).
    { rewrite join_snoc. destruct pre as [|a pre]; [reflexivity|].
      rewrite join_truthy; [apply append_assoc | discriminate |].
      apply Forall_app in Hall. apply Hall. }
    rewrite Hcur.
    replace (pre ++ p :: l)%list with ((pre ++ [p]) ++ l)%list in *
      by (rewrite <- app_assoc; reflexivity).
    rewrite IH by exact Hall.
    f_equal. rewrite <- app_assoc. f_equal.
    rewrite length_app. cbn [List.length seq map].
    replace (List.length pre + 1)%nat with (S (List.length pre)) by lia.
    f_equal. subst entry. cbv beta zeta.
    replace (S (List.length pre)) with (List.length (pre ++ [p]) + 0)%nat
      by (rewrite length_app; cbn; lia).
    rewrite firstn_app_2, firstn_O, app_nil_r. reflexivity.
Qed.

End ParentDirs.

Lemma in_firstn {A} (n : nat) (l : list A) (x : A) :
  In x (firstn n l) -> In x l.
Proof.
  intros H. rewrite <- (firstn_skipn n l). apply in_or_app. left. exact H.
Qed.

Lemma pattern_parts_truthy (pattern : string) :
  Forall (fun p => Py.truthy p = true) (pattern_parts pattern).
Proof.
  unfold pattern_parts. apply Forall_forall. intros p Hp.
  apply filter_In in Hp. apply Hp.
Qed.

Lemma parent_dirs_for_entries (pattern : string) :
  parent_dirs_for pattern
  = parent_entries (Py.startswith pattern "/") (pattern_parts pattern).
Proof.
  unfold parent_dirs_for, parent_entries.
  pose proof (pattern_parts_truthy pattern) as Hall.
  set (parts := pattern_parts pattern) in *.
  set (anchored := Py.startswith pattern "/").
  assert (Hrl : removelast parts = firstn (List.length parts - 1) parts).
  { destruct parts as [|a l]; [reflexivity|].
    rewrite removelast_firstn_len. cbn [List.length].
    replace (S (List.length l) - 1)%nat with (Nat.pred (S (List.length l))) by lia.
    reflexivity. }
  change ("", @nil string) with (Py.join "/" [], @nil string).
  rewrite (parent_dirs_loop anchored (removelast parts) [] []).
  - cbn [app List.length]. rewrite map_map. rewrite Hrl.
    rewrite length_firstn.
    replace (Nat.min (List.length parts - 1) (List.length parts))
      with (List.length parts - 1)%nat by lia.
    apply map_ext_in. intros k Hk. apply in_seq in Hk.
    rewrite firstn_firstn.
    replace (Nat.min k (List.length parts - 1)) with k by lia.
    reflexivity.
  - cbn [app]. rewrite Hrl. apply Forall_forall. intros p Hp.
    rewrite Forall_forall in Hall. apply Hall.
    exact (in_firstn _ _ _ Hp).
Qed.

Lemma expanded_includes_flat_map (include_patterns : list string) :
  expanded_includes include_patterns
  = flat_map (fun pat => parent_dirs_for pat ++ [pat])%list include_patterns.
Proof.
  unfold expanded_includes.
  assert (G : forall l acc,
             fold_left (fun acc pat => ((acc ++ parent_dirs_for pat) ++ [pat])%list)
                       l acc
             = (acc ++ flat_map (fun pat => parent_dirs_for pat ++ [pat]) l)%list).
  { induction l as [|p l IH]; intros acc; cbn.
    - rewrite app_nil_r. reflexivity.
    - rewrite IH, <- !app_assoc. reflexivity. }
  apply (G include_patterns []).
Qed.

(** C8 — The include list that [create_rsync_files] writes holds, for every
    include pattern, its proper parent directories and then the pattern.
    The parents are the first [k] components of the pattern joined by [/],
    for [k] from one up to the number of components less one, so the
    shallowest comes first; each ends in [/] and starts with [/] when the
    pattern does.  A pattern of one component has no parents. *)
Theorem includes_expand_parents_first :
  (forall pattern,
      parent_dirs_for pattern
      = parent_entries (Py.startswith pattern "/") (pattern_parts pattern))
  /\ (forall pattern,
         List.length (parent_dirs_for pattern)
         = (List.length (pattern_parts pattern) - 1)%nat)
  /\ (forall pattern,
         (List.length (pattern_parts pattern) <= 1)%nat ->
         parent_dirs_for pattern = [])
  /\ (forall before pattern after,
         expanded_includes (before ++ pattern :: after)
         = (expanded_includes before ++ parent_dirs_for pattern
            ++ pattern :: expanded_includes after)%list)
  /\ (forall exclude_patterns pattern others,
         fst (create_rsync_files exclude_patterns (pattern :: others))
         = Some (parent_dirs_for pattern ++ pattern :: expanded_includes others)%list)
  /\ (forall exclude_patterns include_patterns lines pattern parent,
         fst (create_rsync_files exclude_patterns include_patterns) = Some lines ->
         In pattern include_patterns ->
         In parent (parent_dirs_for pattern) ->
         In parent lines /\ In pattern lines)
  /\ parent_dirs_for "/a/b/c" = ["/a/"; "/a/b/"]
  /\ parent_dirs_for "src/lib/*.rs" = ["src/"; "src/lib/"]
  /\ parent_dirs_for "/keep.txt" = [].
Proof.
  split; [exact parent_dirs_for_entries|].
  split; [intros; rewrite parent_dirs_for_entries; unfold parent_entries;
          rewrite length_map, length_seq; reflexivity|].
  split; [intros pattern H; rewrite parent_dirs_for_entries;
          unfold parent_entries;
          replace (List.length (pattern_parts pattern) - 1)%nat with 0%nat by lia;
          reflexivity|].
  split; [intros; rewrite !expanded_includes_flat_map, flat_map_app;
          cbn [flat_map]; rewrite <- !app_assoc; reflexivity|].
  split; [intros; cbn [create_rsync_files fst];
          rewrite !expanded_includes_flat_map; cbn [flat_map];
          rewrite <- !app_assoc; reflexivity|].
  split; [| repeat split; reflexivity].
  intros exclude_patterns include_patterns lines pattern parent E Hp Hpar.
  destruct include_patterns as [|p l]; [contradiction|].
  unfold create_rsync_files in E. cbn [fst] in E. injection E as <-.
  rewrite expanded_includes_flat_map.
  split; apply in_flat_map; exists pattern; (split; [exact Hp|]);
    apply in_or_app; [left; exact Hpar | right; left; reflexivity].
Qed.

(** ** PatternMatcher *)

(** *** Bracket expressions never raise *)

Lemma last_char_rev (s : list ascii) (a : ascii) :
  last_char s = Ok a -> exists r, rev s = a :: r.
Proof.
  destruct s as [|c s]; [discriminate|]. cbn [last_char]. intros [= <-].
  exists (rev (removelast (c :: s))).
  rewrite <- rev_unit. f_equal.
  exact (@app_removelast_last _ (c :: s) c ltac:(discriminate)).
Qed.

Lemma rev_head_merged (prev nx : list ascii) :
  (2 <= List.length nx)%nat ->
  exists lo r r', rev nx = lo :: r
                  /\ rev (removelast prev ++ tl nx) = lo :: r'.
Proof.
  destruct nx as [|b [|c t]]; cbn [List.length]; try lia. intros _.
  cbn [tl]. rewrite rev_app_distr.
  destruct (rev (c :: t)) as [|lo r0] eqn:E.
  - apply (f_equal (@List.length ascii)) in E. rewrite length_rev in E.
    discriminate E.
  - exists lo. cbn [rev] in *. rewrite E. cbn. eexists. eexists.
    split; reflexivity.
Qed.

Lemma tail_ok_head (nx : list ascii) (after : list (list ascii)) :
  tail_ok (nx :: after) ->
  nx <> [] /\ (after <> [] -> (2 <= List.length nx)%nat /\ tail_ok after).
Proof.
  destruct after as [|b after]; cbn.
  - intros H. split; [exact H | congruence].
  - intros (H & T). split; [destruct nx; cbn in H; [lia | discriminate]|].
    intros _. split; assumption.
Qed.

Lemma ranges_ok_cons (a b : list ascii) (tl : list (list ascii)) :
  ranges_ok (a :: b :: tl)
  = match rev a, b with
    | lo :: _, hi :: _ => char_le lo hi
    | _, _ => true
    end && ranges_ok (b :: tl).
Proof. reflexivity. Qed.

(** A round of the loop, for a chunk that is not the first one. *)
Lemma merge_step_ok (prev : list ascii) (T : list (list ascii)) :
  prev <> [] -> tail_ok T -> ranges_ok T = true ->
  exists T', merge_step prev (Ok T) = Ok T'
             /\ ranges_ok T' = true
             /\ ((2 <= List.length prev)%nat -> tail_ok T').
Proof.
  intros Hp HT HR. unfold merge_step, rbind.
  destruct T as [|nx after].
  - exists [prev]. repeat split. intros _. exact Hp.
  - destruct (tail_ok_head nx after HT) as (Hnx & Hafter).
    destruct prev as [|p0 prev']; [congruence|].
    destruct nx as [|b nx']; [congruence|].
    cbn [last_char first_char].
    destruct (last_char_rev (p0 :: prev') (last (p0 :: prev') p0) eq_refl)
      as (r & Er).
    destruct (char_gt (last (p0 :: prev') p0) b) eqn:G.
    + eexists. split; [reflexivity|].
      destruct after as [|c after'].
      * split; [reflexivity|]. intros L. cbn.
        destruct prev'; cbn in L; [lia | discriminate].
      * destruct (Hafter ltac:(discriminate)) as (L2 & Ta).
        destruct (rev_head_merged (p0 :: prev') (b :: nx') L2)
          as (lo & r1 & r2 & E1 & E2).
        rewrite ranges_ok_cons in HR. rewrite E1 in HR.
        split.
        -- rewrite ranges_ok_cons, E2. exact HR.
        -- intros L. cbn [tail_ok]. split; [|exact Ta].
           rewrite length_app. cbn [tl].
           assert (1 <= List.length (removelast (p0 :: prev')))%nat.
           { destruct prev'; cbn in *; lia. }
           cbn in L2. lia.
    + eexists. split; [reflexivity|]. split.
      * rewrite ranges_ok_cons, Er. apply andb_true_iff. split; [|exact HR].
        unfold char_gt in G. apply negb_false_iff in G. exact G.
      * intros L. cbn [tail_ok]. split; [exact L | exact HT].
Qed.

Lemma remove_empty_ranges_tail (mids : list (list ascii)) :
  tail_ok mids ->
  exists T, remove_empty_ranges mids = Ok T /\ ranges_ok T = true /\ tail_ok T.
Proof.
  unfold remove_empty_ranges.
  induction mids as [|m ms IH]; intros HT.
  - exists []. repeat split.
  - destruct (tail_ok_head m ms HT) as (Hm & Hms).
    destruct ms as [|m' ms'].
    + exists [m]. cbn. repeat split. exact Hm.
    + destruct (Hms ltac:(discriminate)) as (L & Tms).
      destruct (IH Tms) as (T & E & R & TT).
      change (fold_right merge_step (Ok []) (m :: m' :: ms'))
        with (merge_step m (fold_right merge_step (Ok []) (m' :: ms'))).
      rewrite E.
      destruct (merge_step_ok m T Hm TT R) as (T' & E' & R' & T'').
      exists T'. split; [exact E'|]. split; [exact R' | exact (T'' L)].
Qed.

Lemma remove_empty_ranges_ok (first : list ascii) (mids : list (list ascii)) :
  first <> [] -> tail_ok mids ->
  exists T, remove_empty_ranges (first :: mids) = Ok T /\ ranges_ok T = true.
Proof.
  intros Hf Hm.
  destruct (remove_empty_ranges_tail mids Hm) as (T & E & R & TT).
  unfold remove_empty_ranges in *. cbn [fold_right]. rewrite E.
  destruct (merge_step_ok first T Hf TT R) as (T' & E' & R' & _).
  exists T'. split; assumption.
Qed.

Lemma split_ranges_shape (l : list ascii) :
  forall skip cur chunks chunk,
    split_ranges skip cur l = (chunks, chunk) ->
    match chunks with
    | [] => chunk = (rev cur ++ l)%list
    | first :: rest =>
        (List.length cur + skip <= List.length first)%nat
        /\ Forall (fun c => (2 <= List.length c)%nat) rest
    end.
Proof.
  induction l as [|c l IH]; intros skip cur chunks chunk E; cbn in E.
  - injection E as <- <-. rewrite app_nil_r. reflexivity.
  - destruct skip as [|k].
    + destruct (Ascii.eqb c "-").
      * destruct (split_ranges 2 [] l) as [chunks' chunk'] eqn:E'.
        injection E as <- <-. rewrite length_rev.
        split; [lia|].
        specialize (IH _ _ _ _ E').
        destruct chunks' as [|c1 rest']; [constructor|].
        destruct IH as (L & F). constructor; [cbn in L; lia | exact F].
      * specialize (IH _ _ _ _ E).
        destruct chunks as [|first rest].
        -- rewrite IH. cbn. rewrite <- app_assoc. reflexivity.
        -- cbn [List.length] in IH. destruct IH as (L & F).
           split; [lia | exact F].
    + specialize (IH _ _ _ _ E).
      destruct chunks as [|first rest].
      * rewrite IH. cbn. rewrite <- app_assoc. reflexivity.
      * cbn [List.length] in IH. destruct IH as (L & F). split; [lia | exact F].
Qed.

Lemma tail_ok_snoc (l : list (list ascii)) (x : list ascii) :
  Forall (fun c => (2 <= List.length c)%nat) l -> x <> [] -> tail_ok (l ++ [x]).
Proof.
  intros F Hx. induction F as [|a l Ha F IH]; [exact Hx|].
  cbn [app]. destruct (l ++ [x])%list as [|b t] eqn:E.
  - destruct l; discriminate E.
  - cbn. split; [exact Ha | exact IH].
Qed.

Lemma Forall_removelast {A} (P : A -> Prop) (l : list A) :
  Forall P l -> Forall P (removelast l).
Proof.
  induction 1 as [|a l Ha F IH]; [constructor|].
  destruct l; [constructor|]. cbn. constructor; assumption.
Qed.

Lemma close_chunks_ok (skip : nat) (stuff : list ascii)
    (chunks : list (list ascii)) (chunk : list ascii) :
  stuff <> [] -> (1 <= skip)%nat ->
  split_ranges skip [] stuff = (chunks, chunk) ->
  exists first mids,
    close_chunks chunks chunk = Ok (first :: mids)
    /\ first <> [] /\ tail_ok mids.
Proof.
  intros Hs Hk E. pose proof (split_ranges_shape _ _ _ _ _ E) as Sh.
  unfold close_chunks.
  destruct chunks as [|c0 rest].
  - cbn in Sh. subst chunk.
    destruct stuff as [|c stuff']; [congruence|].
    exists (c :: stuff'), []. repeat split. discriminate.
  - destruct Sh as (L & F). cbn [List.length] in L.
    assert (N0 : c0 <> []) by (destruct c0; cbn in L; [lia | discriminate]).
    destruct chunk as [|c chunk'].
    + destruct rest as [|c1 rest'].
      * exists (c0 ++ ["-"%char])%list, []. cbn. repeat split.
        destruct c0; discriminate.
      * exists c0, (removelast (c1 :: rest')
                    ++ [last (c1 :: rest') [] ++ ["-"%char]])%list.
        split; [reflexivity|]. split; [exact N0|].
        apply tail_ok_snoc; [apply Forall_removelast; exact F|].
        destruct (last (c1 :: rest') []); discriminate.
    + exists c0, (rest ++ [c :: chunk'])%list.
      split; [reflexivity|]. split; [exact N0|].
      apply tail_ok_snoc; [exact F | discriminate].
Qed.

Lemma set_chunks_ok (stuff : list ascii) :
  exists T, set_chunks stuff = Ok T /\ ranges_ok T = true.
Proof.
  unfold set_chunks.
  destruct (existsb (Ascii.eqb "-") stuff) eqn:H; [| exists [stuff]; split; reflexivity].
  assert (Hs : stuff <> []) by (destruct stuff; [discriminate H | discriminate]).
  set (skip := match stuff with
               | c :: _ => if Ascii.eqb c "!" then 2%nat else 1%nat
               | [] => 1%nat
               end).
  assert (Hk : (1 <= skip)%nat).
  { subst skip. destruct stuff as [|c ?]; [lia|]. destruct (Ascii.eqb c "!"); lia. }
  destruct (split_ranges skip [] stuff) as [chunks chunk] eqn:E.
  destruct (close_chunks_ok skip stuff chunks chunk Hs Hk E)
    as (first & mids & -> & Hf & Hm).
  cbn [rbind]. apply remove_empty_ranges_ok; assumption.
Qed.

Lemma set_token_ok (stuff : list ascii) :
  exists t, set_token stuff = Ok t /\ token_ok t = true.
Proof.
  unfold set_token. destruct (set_chunks_ok stuff) as (T & -> & R).
  cbn [rbind]. eexists. split; [reflexivity|].
  destruct T as [|[|c first] more]; [reflexivity | |].
  - destruct more; [reflexivity | exact R].
  - destruct (Ascii.eqb c "!"); [| exact R].
    destruct first as [|d first'].
    + destruct more as [|b more']; [reflexivity|].
      cbn [token_ok]. rewrite ranges_ok_cons in *. cbn [rev] in *.
      apply andb_true_iff in R. apply R.
    + cbn [token_ok]. destruct more as [|b more']; [reflexivity|].
      rewrite ranges_ok_cons in *.
      assert (X : exists lo r r', rev (d :: first') = lo :: r
                                  /\ rev (c :: d :: first') = lo :: r').
      { cbn [rev].
        destruct (rev first' ++ [d])%list as [|lo r] eqn:E;
          [destruct (rev first'); discriminate E|].
        exists lo. cbn. eexists. eexists. split; reflexivity. }
      destruct X as (lo & r & r' & E1 & E2). rewrite E1. rewrite E2 in R.
      exact R.
Qed.

Lemma translate_loop_ok (pat : list ascii) :
  forall skip res,
    forallb token_ok res = true ->
    exists out, translate_loop skip pat res = Ok out
                /\ forallb token_ok out = true.
Proof.
  assert (snoc : forall res t, forallb token_ok res = true -> token_ok t = true ->
                               forallb token_ok (res ++ [t]) = true).
  { intros res t H1 H2. rewrite forallb_app, H1. cbn. rewrite H2. reflexivity. }
  induction pat as [|c rest IH]; intros skip res Hres; cbn [translate_loop].
  - exists res. split; [reflexivity | exact Hres].
  - destruct skip as [|k]; [| apply IH; exact Hres].
    destruct (Ascii.eqb c "*").
    { destruct (is_star (last res TAny)); apply IH; auto. }
    destruct (Ascii.eqb c "?"); [apply IH; auto|].
    destruct (Ascii.eqb c "["); [| apply IH; auto].
    destruct (scan_set rest) as [stuff|]; [| apply IH; auto].
    destruct (set_token_ok stuff) as (t & -> & Ht). apply IH; auto.
Qed.

(** [fnmatch] returns an answer for every name and every pattern. *)
Lemma fnmatch_ok (name pat : string) : exists b, fnmatch name pat = Ok b.
Proof.
  unfold fnmatch, translate.
  destruct (translate_loop_ok (Py.chars pat) 0 [] eq_refl) as (out & -> & H).
  cbn [rbind]. unfold re_compile. rewrite H. cbn [rbind].
  eexists. reflexivity.
Qed.

Lemma matches_any_loop_spec (patterns : list string) (norm : string) :
  exists b,
    matches_any_loop patterns norm = Ok b
    /\ (b = true <->
        exists pat, In pat patterns
                    /\ (fnmatch norm (Py.replace pat os_sep "/") = Ok true
                        \/ fnmatch ("/" ++ norm) (Py.replace pat os_sep "/")
                           = Ok true)).
Proof.
  induction patterns as [|pat patterns IH]; cbn [matches_any_loop].
  - exists false. split; [reflexivity|].
    split; [discriminate | intros (? & [] & _)].
  - destruct (fnmatch_ok norm (Py.replace pat os_sep "/")) as (b1 & E1).
    destruct (fnmatch_ok ("/" ++ norm) (Py.replace pat os_sep "/")) as (b2 & E2).
    rewrite E1. cbn [rbind]. destruct b1.
    { exists true. split; [reflexivity|]. split; [|reflexivity].
      intros _. exists pat. split; [left; reflexivity | left; exact E1]. }
    rewrite E2. cbn [rbind]. destruct b2.
    { exists true. split; [reflexivity|]. split; [|reflexivity].
      intros _. exists pat. split; [left; reflexivity | right; exact E2]. }
    destruct IH as (b & E & Hb). exists b. split; [exact E|].
    rewrite Hb. split.
    + intros (p & Hp & H). exists p. split; [right; exact Hp | exact H].
    + intros (p & [<- | Hp] & H).
      * rewrite E1, E2 in H. destruct H; discriminate.
      * exists p. split; assumption.
Qed.

(** *** A bracket that is never closed *)

Lemma find_close_none (s : list ascii) :
  ~ In "]"%char s -> find_close s = None.
Proof.
  induction s as [|c s IH]; [reflexivity|]. intros H. cbn.
  destruct (Ascii.eqb_spec c "]") as [->|_]; [exfalso; apply H; left; reflexivity|].
  rewrite IH; [reflexivity|]. intros H'. apply H. right. exact H'.
Qed.

Lemma find_close_app (x s : list ascii) :
  ~ In "]"%char s -> find_close (x ++ s) = find_close x.
Proof.
  intros H. induction x as [|c x IH]; cbn; [apply find_close_none; exact H|].
  rewrite IH. reflexivity.
Qed.

Lemma find_close_length (l stuff : list ascii) :
  find_close l = Some stuff -> (S (List.length stuff) <= List.length l)%nat.
Proof.
  revert stuff. induction l as [|c l IH]; intros stuff; cbn; [discriminate|].
  destruct (Ascii.eqb c "]"); [intros [= <-]; cbn; lia|].
  destruct (find_close l) as [st|]; [|discriminate].
  intros [= <-]. specialize (IH st eq_refl). cbn. lia.
Qed.

Lemma scan_set_app (x post : list ascii) :
  ~ In "]"%char post -> scan_set (x ++ "["%char :: post) = scan_set x.
Proof.
  intros H.
  assert (H' : ~ In "]"%char ("["%char :: post)).
  { intros [E | E]; [discriminate E | exact (H E)]. }
  assert (base : scan_set ("["%char :: post) = None).
  { unfold scan_set. cbn. rewrite (find_close_none post H). reflexivity. }
  destruct x as [|c x]; [exact base|].
  unfold scan_set. cbn [app].
  destruct (Ascii.eqb c "!").
  - destruct x as [|d x]; cbn [app].
    + cbn. rewrite (find_close_none post H). reflexivity.
    + destruct (Ascii.eqb d "]").
      * rewrite (find_close_app x _ H'). reflexivity.
      * rewrite app_comm_cons, (find_close_app (d :: x) _ H'). reflexivity.
  - destruct (Ascii.eqb c "]").
    + rewrite (find_close_app x _ H'). reflexivity.
    + rewrite app_comm_cons, (find_close_app (c :: x) _ H'). reflexivity.
Qed.

Lemma scan_set_length (l stuff : list ascii) :
  scan_set l = Some stuff -> (S (List.length stuff) <= List.length l)%nat.
Proof.
  unfold scan_set.
  destruct l as [|c l]; [discriminate|].
  destruct (Ascii.eqb c "!").
  - destruct l as [|d l]; [discriminate|].
    destruct (Ascii.eqb d "]").
    + destruct (find_close l) as [st|] eqn:E; [|discriminate].
      intros [= <-]. apply find_close_length in E. cbn. lia.
    + destruct (find_close (d :: l)) as [st|] eqn:E; [|discriminate].
      intros [= <-]. apply find_close_length in E. cbn in *. lia.
  - destruct (Ascii.eqb c "]").
    + destruct (find_close l) as [st|] eqn:E; [|discriminate].
      intros [= <-]. apply find_close_length in E. cbn. lia.
    + destruct (find_close (c :: l)) as [st|] eqn:E; [|discriminate].
      intros [= <-]. apply find_close_length in E. cbn in *. lia.
Qed.

Lemma scan_set_none (l : list ascii) :
  ~ In "]"%char l -> scan_set l = None.
Proof.
  intros H. unfold scan_set.
  destruct l as [|d l']; [reflexivity|].
  destruct (Ascii.eqb d "!").
  - destruct l' as [|e l'']; [reflexivity|].
    destruct (Ascii.eqb_spec e "]") as [->|_];
      [exfalso; apply H; right; left; reflexivity|].
    rewrite find_close_none; [reflexivity|].
    intros E. apply H. right. exact E.
  - destruct (Ascii.eqb_spec d "]") as [->|_];
      [exfalso; apply H; left; reflexivity|].
    rewrite find_close_none; [reflexivity | exact H].
Qed.

(** Without a ["]"] the loop of [translate] never finds a bracket
    expression. *)
Lemma translate_loop_plain (post : list ascii) :
  ~ In "]"%char post ->
  forall res, translate_loop 0 post res = Ok (plain_loop post res).
Proof.
  induction post as [|c post IH]; intros H res; [reflexivity|].
  assert (H' : ~ In "]"%char post) by (intros E; apply H; right; exact E).
  cbn [translate_loop plain_loop].
  destruct (Ascii.eqb c "*"); [destruct (is_star (last res TAny)); apply IH; exact H'|].
  destruct (Ascii.eqb c "?"); [apply IH; exact H'|].
  destruct (Ascii.eqb_spec c "[") as [->|_]; [| apply IH; exact H'].
  rewrite (scan_set_none post H'). apply IH. exact H'.
Qed.

(** A ["["] with no ["]"] after it is translated as the character ["["],
    whatever comes before it. *)
Lemma translate_loop_unclosed (pre post : list ascii) :
  ~ In "]"%char post ->
  forall skip res,
    (skip <= List.length pre)%nat ->
    translate_loop skip (pre ++ "["%char :: post) res
    = (r <- translate_loop skip pre res ;;
       Ok (plain_loop post (r ++ [TLit "["%char])))%R.
Proof.
  intros H. induction pre as [|c pre IH]; intros skip res Hk.
  - destruct skip; [|cbn in Hk; lia].
    cbn [app translate_loop rbind].
    change (Ascii.eqb "[" "*") with false. change (Ascii.eqb "[" "?") with false.
    change (Ascii.eqb "[" "[") with true. cbv iota.
    rewrite (scan_set_none post H).
    apply translate_loop_plain. exact H.
  - cbn [app translate_loop]. cbn [List.length] in Hk.
    destruct skip as [|k]; [| apply IH; lia].
    destruct (Ascii.eqb c "*");
      [destruct (is_star (last res TAny)); apply IH; lia|].
    destruct (Ascii.eqb c "?"); [apply IH; lia|].
    destruct (Ascii.eqb c "["); [| apply IH; lia].
    rewrite (scan_set_app pre post H).
    destruct (scan_set pre) as [stuff|] eqn:E; [| apply IH; lia].
    destruct (set_token stuff) as [t|e]; [|reflexivity].
    apply IH. apply scan_set_length in E. exact E.
Qed.

Lemma chars_append (a b : string) :
  Py.chars (a ++ b) = (Py.chars a ++ Py.chars b)%list.
Proof. unfold Py.chars. induction a; cbn; congruence. Qed.

Lemma chars_inj (a b : string) : Py.chars a = Py.chars b -> a = b.
Proof.
  unfold Py.chars. intros H.
  rewrite <- (string_of_list_ascii_of_string a),
          <- (string_of_list_ascii_of_string b), H.
  reflexivity.
Qed.

Lemma plain_loop_keeps (pat : list ascii) (res : list token) (t : token) :
  In t res -> In t (plain_loop pat res).
Proof.
  revert res. induction pat as [|c pat IH]; intros res H; [exact H|].
  cbn [plain_loop].
  destruct (Ascii.eqb c "*");
    [destruct (is_star (last res TAny)); apply IH;
     [exact H | apply in_or_app; left; exact H]|].
  destruct (Ascii.eqb c "?"); apply IH; apply in_or_app; left; exact H.
Qed.

(** A name that matches holds every literal character of the expression. *)
Lemma re_match_literal (res : list token) (c : ascii) :
  In (TLit c) res ->
  forall name, re_match res name = true -> In c name.
Proof.
  induction res as [|t res IH]; intros Hin; [contradiction|].
  assert (step : forall name,
             (match name with
              | [] => false
              | d :: name' => token_accepts t d && re_match res name'
              end) = true ->
             t <> TStar -> In c name).
  { intros [|d name'] H Ht; [discriminate|].
    apply andb_true_iff in H. destruct H as (Hd & Hm).
    destruct Hin as [-> | Hin].
    - cbn in Hd. apply Ascii.eqb_eq in Hd. left. auto.
    - right. exact (IH Hin name' Hm). }
  destruct t; try (intros name H; cbn in H; apply (step name H); discriminate).
  destruct Hin as [E | Hin]; [discriminate E|].
  intros name. induction name as [|d name' IHn]; cbn [re_match].
  - rewrite orb_false_r. apply (IH Hin).
  - intros H. apply orb_true_iff in H. destruct H as [H | H].
    + exact (IH Hin _ H).
    + right. apply IHn. exact H.
Qed.

Lemma plain_loop_literal (pat : list ascii) (res : list token) :
  ~ In "*"%char pat -> ~ In "?"%char pat ->
  plain_loop pat res = (res ++ map TLit pat)%list.
Proof.
  revert res. induction pat as [|c pat IH]; intros res H1 H2; cbn.
  - rewrite app_nil_r. reflexivity.
  - destruct (Ascii.eqb_spec c "*") as [->|_]; [exfalso; apply H1; left; reflexivity|].
    destruct (Ascii.eqb_spec c "?") as [->|_]; [exfalso; apply H2; left; reflexivity|].
    rewrite IH, <- app_assoc; [reflexivity | |];
      intros E; [apply H1 | apply H2]; right; exact E.
Qed.

Lemma re_match_literals (pat name : list ascii) :
  re_match (map TLit pat) name = true <-> name = pat.
Proof.
  revert name. induction pat as [|c pat IH]; intros [|d name]; cbn;
    try (split; [discriminate | discriminate]); [tauto|].
  rewrite andb_true_iff, Ascii.eqb_eq, IH. split.
  - intros (-> & ->). reflexivity.
  - intros [= -> ->]. split; reflexivity.
Qed.

Lemma replace_same (s : string) (c : ascii) : Py.replace s c c = s.
Proof.
  unfold Py.replace, Py.of_chars, Py.chars.
  rewrite <- (string_of_list_ascii_of_string s) at 2. f_equal.
  induction (list_ascii_of_string s) as [|d l IH]; [reflexivity|].
  cbn. rewrite IH. destruct (Ascii.eqb_spec d c) as [->|_]; reflexivity.
Qed.

(** A pattern without [*], [?] and ["]"] matches its own text only. *)
Lemma fnmatch_literal (name pat : string) :
  ~ In "*"%char (Py.chars pat) -> ~ In "?"%char (Py.chars pat) ->
  ~ In "]"%char (Py.chars pat) ->
  fnmatch name pat = Ok (name =? pat)%string.
Proof.
  intros H1 H2 H3. unfold fnmatch, translate.
  rewrite (translate_loop_plain _ H3), (plain_loop_literal _ _ H1 H2).
  cbn [rbind app]. unfold re_compile.
  assert (F : forall l, forallb token_ok (map TLit l) = true).
  { induction l; [reflexivity | assumption]. }
  rewrite F. cbn [rbind]. f_equal.
  destruct (String.eqb_spec name pat) as [->|N].
  - apply re_match_literals. reflexivity.
  - destruct (re_match _ _) eqn:E; [|reflexivity].
    apply re_match_literals in E. apply chars_inj in E. contradiction.
Qed.

(** C9 — as the specification states it, refuted: the glob [a[], whose
    bracket is never closed, matches the path [a[]. *)
Lemma unclosed_bracket_matches :
  translate "a[" = Ok [TLit "a"%char; TLit "["%char]
  /\ matches_any ["a["] "a[" = Ok true.
Proof. split; reflexivity. Qed.

(** C9, amended — [matches_any] returns an answer for every pattern list
    and every path and never raises: no index of [translate] is out of
    range and no bracket expression it builds is refused by [re.compile].
    A ["["] with no ["]"] after it is not an error and is not dropped: it is
    translated as the character ["["].  So a pattern with such a bracket
    matches only paths that hold a ["["]; without wildcards it matches
    exactly the path (bare or with the leading [/]) that is its own text. *)
Theorem unclosed_bracket_is_literal :
  (forall patterns relpath,
      exists b,
        matches_any patterns relpath = Ok b
        /\ (b = true <->
            exists pat,
              In pat patterns
              /\ (fnmatch (Py.replace relpath os_sep "/")
                          (Py.replace pat os_sep "/") = Ok true
                  \/ fnmatch ("/" ++ Py.replace relpath os_sep "/")
                             (Py.replace pat os_sep "/") = Ok true)))
  /\ (forall pre post,
         ~ In "]"%char (Py.chars post) ->
         translate (pre ++ String "["%char post)
         = (r <- translate pre ;;
            Ok (plain_loop (Py.chars post) (r ++ [TLit "["%char])))%R)
  /\ (forall pre post name,
         ~ In "]"%char (Py.chars post) ->
         fnmatch name (pre ++ String "["%char post) = Ok true ->
         In "["%char (Py.chars name))
  /\ (forall pat name,
         ~ In "*"%char (Py.chars pat) -> ~ In "?"%char (Py.chars pat) ->
         ~ In "]"%char (Py.chars pat) ->
         fnmatch name pat = Ok (name =? pat)%string)
  /\ (forall pat relpath,
         ~ In "*"%char (Py.chars pat) -> ~ In "?"%char (Py.chars pat) ->
         ~ In "]"%char (Py.chars pat) ->
         matches_any [pat] relpath
         = Ok ((relpath =? pat)%string || ("/" ++ relpath =? pat)%string))
  /\ matches_any ["a["] "ab" = Ok false
  /\ matches_any ["/src/[ab"] "src/[ab" = Ok true
  /\ matches_any ["[c-a]"] "b" = Ok false.
Proof.
  assert (unclosed : forall pre post,
             ~ In "]"%char (Py.chars post) ->
             translate (pre ++ String "["%char post)
             = (r <- translate pre ;;
                Ok (plain_loop (Py.chars post) (r ++ [TLit "["%char])))%R).
  { intros pre post H. unfold translate. rewrite chars_append.
    change (Py.chars (String "[" post)) with ("["%char :: Py.chars post).
    apply translate_loop_unclosed; [exact H | lia]. }
  split; [intros; apply matches_any_loop_spec|].
  split; [exact unclosed|].
  split; [| split; [intros; apply fnmatch_literal; assumption | split]].
  - intros pre post name H. unfold fnmatch. rewrite (unclosed pre post H).
    destruct (translate pre) as [r|e]; [|discriminate].
    cbn [rbind]. unfold re_compile.
    destruct (forallb token_ok _); [|discriminate].
    cbn [rbind]. intros [= E].
    apply (re_match_literal _ "["%char) in E; [exact E|].
    apply plain_loop_keeps. apply in_or_app. right. left. reflexivity.
  - intros pat relpath H1 H2 H3. unfold matches_any.
    cbn [matches_any_loop]. unfold os_sep. rewrite !replace_same.
    rewrite !fnmatch_literal by assumption. cbn [rbind].
    destruct (relpath =? pat)%string; [reflexivity|].
    destruct ("/" ++ relpath =? pat)%string; reflexivity.
  - repeat split; reflexivity.
Qed.

Lemma unclosed_bracket_is_literal_witness :
  ~ In "]"%char (Py.chars "") /\ In "["%char (Py.chars "a[").
Proof.
  assert (H : ~ In "]"%char (Py.chars "")) by (intros []).
  split; [exact H|].
  destruct unclosed_bracket_is_literal as (_ & _ & L & _).
  apply (L "a" "" "a[" H). reflexivity.
Defined.

(** ** LargeFileScanner *)

(** C5 — the walk on the example of the claim.  With the excludes
    [["/build/"]] and the includes [["/build/keep.txt"]] the directory
    [build] is pruned: no include pattern matches [build] itself, and the
    walk does not look at what lies below.  So [build/keep.txt] is not
    scanned, although the include pattern matches it and no exclude pattern
    does, and although [create_rsync_files] gives rsync the parent marker
    [/build/] that lets it reach the file. *)
Theorem reincluded_file_is_pruned :
  let tree := Dir [("build", Dir [("keep.txt", File (Some 10));
                                  ("other.txt", File (Some 10))])] in
  iter_large_files "/home/u/app" tree 0 ["/build/"] ["/build/keep.txt"] = Ok []
  /\ pruned ["/build/"] ["/build/keep.txt"] "" "build" = Ok true
  /\ matches_any ["/build/"] "build/keep.txt" = Ok false
  /\ is_included ["/build/keep.txt"] "build/keep.txt" = Ok true
  /\ skipped ["/build/"] ["/build/keep.txt"] "build/keep.txt" = Ok false
  /\ fst (create_rsync_files ["/build/"] ["/build/keep.txt"])
     = Some ["/build/"; "/build/keep.txt"]
  /\ iter_large_files "/home/u/app" tree 0 ["/build/"]
                      ["/build/"; "/build/keep.txt"] = Ok [].
Proof. cbv zeta. repeat split; reflexivity. Qed.

Lemma includes_expand_parents_first_witness :
  In "/a/b/c" ["/a/b/c"; "x"]
  /\ In "/a/b/" (parent_dirs_for "/a/b/c")
  /\ forall lines,
      fst (create_rsync_files [] ["/a/b/c"; "x"]) = Some lines ->
      In "/a/b/" lines.
Proof.
  assert (H1 : In "/a/b/c" ["/a/b/c"; "x"]) by (left; reflexivity).
  assert (H2 : In "/a/b/" (parent_dirs_for "/a/b/c"))
    by (right; left; reflexivity).
  split; [exact H1|]. split; [exact H2|].
  intros lines E.
  destruct includes_expand_parents_first as (_ & _ & _ & _ & _ & H & _).
  exact (proj1 (H [] ["/a/b/c"; "x"] lines "/a/b/c" "/a/b/" E H1 H2)).
Defined.

(** * Properties of the rest of the program *)

(** ** Text files *)

Lemma of_chars_chars (s : string) : Py.of_chars (Py.chars s) = s.
Proof. apply string_of_list_ascii_of_string. Qed.

Lemma chars_of_chars (l : list ascii) : Py.chars (Py.of_chars l) = l.
Proof. apply list_ascii_of_string_of_list_ascii. Qed.

Lemma of_chars_app (a b : list ascii) :
  Py.of_chars (a ++ b) = Py.of_chars a ++ Py.of_chars b.
Proof. unfold Py.of_chars. induction a; cbn; congruence. Qed.

(** A line without a break, closed by a line feed, is the next line. *)
Lemma splitlines_loop_line (p cur rest : list ascii) :
  Forall (fun c => is_linebreak c = false) p ->
  splitlines_loop cur (p ++ LF :: rest)
  = Py.of_chars (rev cur ++ p) :: splitlines_loop [] rest.
Proof.
  intros H. revert cur. induction H as [|c p Hc _ IH]; intros cur.
  - cbn [app splitlines_loop]. change (is_linebreak LF) with true. cbv iota.
    rewrite app_nil_r. f_equal.
    destruct rest as [|d rest']; reflexivity.
  - cbn [app splitlines_loop]. rewrite Hc, IH. cbn [rev].
    rewrite <- app_assoc. reflexivity.
Qed.

Lemma splitlines_written (ps : list string) (rest : list ascii) :
  Forall (fun p => Forall (fun c => is_linebreak c = false) (Py.chars p)) ps ->
  splitlines_loop []
    (Py.chars (String.concat "" (map (fun p => p ++ newline) ps)) ++ rest)
  = (ps ++ splitlines_loop [] rest)%list.
Proof.
  induction 1 as [|p ps Hp _ IH]; [reflexivity|].
  assert (E : String.concat "" (map (fun p => p ++ newline) (p :: ps))
              = p ++ newline ++ String.concat "" (map (fun p => p ++ newline) ps)).
  { cbn [map]. destruct (map (fun p => p ++ newline) ps) as [|q qs].
    - reflexivity.
    - change (String.concat "" ((p ++ newline) :: q :: qs))
        with ((p ++ newline) ++ "" ++ String.concat "" (q :: qs)).
      rewrite append_assoc. reflexivity. }
  rewrite E, !chars_append, <- !app_assoc.
  change (Py.chars newline) with [LF]. cbn [app].
  rewrite (splitlines_loop_line _ [] _ Hp). cbn [rev app].
  rewrite of_chars_chars, IH. reflexivity.
Qed.

(** Text put after a line feed starts on a line of its own: what was there
    before is cut as before, with at most one empty line in between. *)
Lemma splitlines_loop_app_lf (n : nat) :
  forall old cur rest,
    (List.length old <= n)%nat ->
    exists X, (X = [] \/ X = [""])
              /\ splitlines_loop cur (old ++ LF :: rest)
                 = (splitlines_loop cur old ++ X ++ splitlines_loop [] rest)%list.
Proof.
  induction n as [|n IH]; intros old cur rest Hn.
  - destruct old; [|cbn in Hn; lia].
    cbn [app splitlines_loop]. change (is_linebreak LF) with true. cbv iota.
    assert (T : match rest with
                | [] => []
                | d :: l'' =>
                    if Ascii.eqb LF CR && Ascii.eqb d LF
                    then splitlines_loop [] l'' else splitlines_loop [] rest
                end = splitlines_loop [] rest) by (destruct rest; reflexivity).
    rewrite T. destruct cur as [|c cur].
    + exists [""]. split; [right; reflexivity | reflexivity].
    + exists []. split; [left; reflexivity | reflexivity].
  - destruct old as [|c old]; [apply (IH [] cur rest); cbn; lia|].
    cbn [List.length] in Hn. cbn [app splitlines_loop].
    destruct (is_linebreak c) eqn:B; [| apply IH; lia].
    destruct old as [|d old'].
    + cbn [app]. destruct (Ascii.eqb_spec c CR) as [->|NC].
      * change (Ascii.eqb LF LF) with true. cbn [andb].
        exists []. split; [left; reflexivity | reflexivity].
      * cbn [andb].
        destruct (IH [] [] rest ltac:(cbn; lia)) as (X & HX & E).
        cbn [app] in E. rewrite E. cbn [splitlines_loop app].
        exists X. split; [exact HX | reflexivity].
    + cbn [app].
      destruct (Ascii.eqb c CR && Ascii.eqb d LF).
      * destruct (IH old' [] rest ltac:(cbn in Hn; lia)) as (X & HX & E).
        rewrite E. exists X. split; [exact HX | reflexivity].
      * destruct (IH (d :: old') [] rest ltac:(cbn in *; lia)) as (X & HX & E).
        cbn [app] in E. rewrite E. exists X. split; [exact HX | reflexivity].
Qed.

(** *** [str.strip] *)

Lemma dropwhile_idem (f : ascii -> bool) (l : list ascii) :
  Py.dropwhile f (Py.dropwhile f l) = Py.dropwhile f l.
Proof.
  induction l as [|c l IH]; [reflexivity|]. cbn.
  destruct (f c) eqn:E; [exact IH | cbn; rewrite E; reflexivity].
Qed.

Lemma dropwhile_fixed (f : ascii -> bool) (l : list ascii) :
  match l with [] => True | c :: _ => f c = false end ->
  Py.dropwhile f l = l.
Proof. destruct l as [|c l]; [reflexivity|]. cbn. intros ->. reflexivity. Qed.

Lemma dropwhile_head (f : ascii -> bool) (l : list ascii) :
  match Py.dropwhile f l with [] => True | c :: _ => f c = false end.
Proof.
  induction l as [|c l IH]; [exact I|]. cbn.
  destruct (f c) eqn:E; [exact IH | exact E].
Qed.

(** Dropping at the end keeps a head that does not go. *)
Lemma rstrip_keeps_head (f : ascii -> bool) (l : list ascii) :
  match l with [] => True | c :: _ => f c = false end ->
  match rev (Py.dropwhile f (rev l)) with [] => True | c :: _ => f c = false end.
Proof.
  destruct l as [|c l]; [intros _; exact I|]. intros Hc.
  assert (G : forall m, exists m', rev (Py.dropwhile f (m ++ [c])) = c :: m').
  { induction m as [|d m IH]; cbn.
    - rewrite Hc. exists []. reflexivity.
    - destruct (f d); [exact IH|].
      cbn. rewrite rev_app_distr. cbn. eexists. reflexivity. }
  cbn [rev]. destruct (G (rev l)) as (m' & ->). exact Hc.
Qed.

Lemma strip_idem (s : string) : Py.strip (Py.strip s) = Py.strip s.
Proof.
  unfold Py.strip. rewrite chars_of_chars. f_equal.
  set (l := Py.dropwhile Py.isspace (Py.chars s)).
  rewrite (dropwhile_fixed Py.isspace (rev (Py.dropwhile Py.isspace (rev l)))).
  - rewrite rev_involutive, dropwhile_idem. reflexivity.
  - apply rstrip_keeps_head. apply dropwhile_head.
Qed.

Lemma strip_empty : Py.strip "" = "".
Proof. reflexivity. Qed.

(** *** The ignore files *)

Lemma ignore_line_plain (patterns : list string) (p : string) :
  plain_line p -> ignore_line patterns p = (patterns ++ [p])%list.
Proof.
  intros (S & N & C & _). unfold ignore_line. rewrite S, C.
  apply truthy_iff in N. rewrite N. reflexivity.
Qed.

Lemma backupignore_line_plain (st : list string * list string) (p : string) :
  plain_line p -> Py.startswith p "!" = false ->
  backupignore_line st p = ((fst st ++ [p])%list, snd st).
Proof.
  intros (S & N & C & _) B. destruct st as [ex inc].
  unfold backupignore_line. rewrite S, C, B.
  apply truthy_iff in N. rewrite N. reflexivity.
Qed.

Lemma fold_ignore_plain (ps patterns : list string) :
  Forall plain_line ps ->
  fold_left ignore_line ps patterns = (patterns ++ ps)%list.
Proof.
  intros H. revert patterns. induction H as [|p ps Hp _ IH]; intros patterns; cbn.
  - rewrite app_nil_r. reflexivity.
  - rewrite (ignore_line_plain _ _ Hp), IH, <- app_assoc. reflexivity.
Qed.

Lemma fold_backupignore_plain (ps : list string) (st : list string * list string) :
  Forall (fun p => plain_line p /\ Py.startswith p "!" = false) ps ->
  fold_left backupignore_line ps st = ((fst st ++ ps)%list, snd st).
Proof.
  intros H. revert st. induction H as [|p ps (Hp & Hb) _ IH]; intros st; cbn.
  - rewrite app_nil_r. destruct st; reflexivity.
  - rewrite (backupignore_line_plain _ _ Hp Hb), IH. cbn.
    rewrite <- app_assoc. reflexivity.
Qed.

Lemma plain_line_chars (ps : list string) :
  Forall plain_line ps ->
  Forall (fun p => Forall (fun c => is_linebreak c = false) (Py.chars p)) ps.
Proof. apply Forall_impl. intros p (_ & _ & _ & H). exact H. Qed.

Lemma join_newline (p : string) (ps : list string) :
  ignore_file_text (p :: ps)
  = String.concat "" (map (fun p => p ++ newline) (p :: ps)).
Proof.
  unfold ignore_file_text, Py.join. revert p.
  induction ps as [|q ps IH]; intros p.
  - reflexivity.
  - change (String.concat newline (p :: q :: ps))
      with (p ++ newline ++ String.concat newline (q :: ps)).
    rewrite !append_assoc, IH.
    change (map (fun p => p ++ newline) (p :: q :: ps))
      with ((p ++ newline) :: map (fun p => p ++ newline) (q :: ps)).
    cbn [map].
    change (String.concat "" ((p ++ newline) :: (q ++ newline)
                              :: map (fun p => p ++ newline) ps))
      with ((p ++ newline) ++ ""
            ++ String.concat "" ((q ++ newline)
                                 :: map (fun p => p ++ newline) ps)).
    rewrite !append_assoc. reflexivity.
Qed.

(** X1 - An ignore file written as [ensure_config_and_global_ignore] writes
    one, the patterns joined by line feeds with one more at the end, is
    read back by [load_ignore_file] as the same patterns in the same order,
    without a warning, if every pattern is a plain line. *)
Theorem ignore_file_round_trip (path : string) (patterns : list string) :
  Forall plain_line patterns ->
  load_ignore_file path (Content (ignore_file_text patterns)) = (patterns, []).
Proof.
  intros H. unfold load_ignore_file, splitlines. f_equal.
  destruct patterns as [|p ps]; [reflexivity|].
  rewrite join_newline.
  pose proof (splitlines_written (p :: ps) [] (plain_line_chars _ H)) as E.
  rewrite !app_nil_r in E. rewrite E.
  apply (fold_ignore_plain (p :: ps) [] H).
Qed.

Lemma ignore_file_round_trip_witness :
  Forall plain_line ["/build/"; "*.log"]
  /\ load_ignore_file "global-ignore.txt"
       (Content (ignore_file_text ["/build/"; "*.log"]))
     = (["/build/"; "*.log"], []).
Proof.
  assert (H : Forall plain_line ["/build/"; "*.log"]).
  { repeat constructor; discriminate. }
  split; [exact H | exact (ignore_file_round_trip _ _ H)].
Defined.

Lemma fold_backupignore_blank (X : list string) (st : list string * list string) :
  X = [] \/ X = [""] -> fold_left backupignore_line X st = st.
Proof. intros [-> | ->]; [reflexivity | destruct st; reflexivity]. Qed.

(** X2 - What [main] appends to [.backupignore] for the files ignored at
    the large-file prompt is read back by [load_backupignore_split] on the
    next run: the exclude list is the one read before followed by the new
    patterns, and the include list is the one read before, whatever ASCII
    text the file held and whether or not it ended in a line break.  The
    patterns must be ASCII too, plain lines, and not start with [!]; the
    patterns [/<rel>] that [main] makes are, when the path is ASCII and has
    no line break and no blank at its end.  (Outside ASCII a path can hold
    a blank or a line break that only Python knows, and is not read back
    as it was written.) *)
Theorem backupignore_append_round_trip (path content : string)
    (auto_ignores : list string) :
  isascii content = true ->
  Forall (fun p => isascii p = true /\ plain_line p
                   /\ Py.startswith p "!" = false) auto_ignores ->
  let before := fst (load_backupignore_split path (Content content)) in
  load_backupignore_split path
    (append_text (Content content) (backupignore_addition auto_ignores))
  = (((fst before ++ auto_ignores)%list, snd before), []).
Proof.
  intros _ H0. cbv zeta.
  assert (H : Forall (fun p => plain_line p /\ Py.startswith p "!" = false)
                     auto_ignores).
  { revert H0. apply Forall_impl. intros p (_ & Hp). exact Hp. }
  clear H0.
  unfold load_backupignore_split, append_text, backupignore_addition, splitlines.
  cbn [fst]. f_equal.
  rewrite !chars_append. change (Py.chars newline) with [LF]. cbn [app].
  destruct (splitlines_loop_app_lf (List.length (Py.chars content))
              (Py.chars content) []
              (Py.chars "# Added by pushback (large files)"
               ++ LF :: Py.chars (String.concat ""
                                    (map (fun pat => pat ++ newline) auto_ignores)))
              (Nat.le_refl _)) as (X & HX & E).
  rewrite E, !fold_left_app, (fold_backupignore_blank X _ HX).
  rewrite splitlines_loop_line by (repeat constructor).
  assert (L : Forall (fun p => Forall (fun c => is_linebreak c = false)
                                      (Py.chars p)) auto_ignores).
  { revert H. apply Forall_impl. intros p ((_ & _ & _ & Hp) & _). exact Hp. }
  pose proof (splitlines_written auto_ignores [] L) as W.
  rewrite !app_nil_r in W. rewrite W.
  cbn [fold_left rev app].
  set (st := fold_left backupignore_line (splitlines_loop [] (Py.chars content))
                       ([], [])).
  assert (C : backupignore_line st
                (Py.of_chars (Py.chars "# Added by pushback (large files)"))
              = st) by (destruct st; reflexivity).
  rewrite C. apply fold_backupignore_plain. exact H.
Qed.

Lemma backupignore_append_round_trip_witness :
  isascii "build/" = true
  /\ Forall (fun p => isascii p = true /\ plain_line p
                      /\ Py.startswith p "!" = false)
            ["/big.bin"; "/data/set 1.iso"]
  /\ load_backupignore_split ".backupignore"
       (append_text (Content "build/")
          (backupignore_addition ["/big.bin"; "/data/set 1.iso"]))
     = ((["build/"; "/big.bin"; "/data/set 1.iso"], []), []).
Proof.
  assert (H : Forall (fun p => isascii p = true /\ plain_line p
                               /\ Py.startswith p "!" = false)
                     ["/big.bin"; "/data/set 1.iso"]).
  { repeat constructor; discriminate. }
  split; [reflexivity|]. split; [exact H|].
  exact (backupignore_append_round_trip ".backupignore" "build/" _ eq_refl H).
Defined.

(** The two loops keep what they have gathered and add to it. *)
Lemma fold_ignore_acc (lines patterns : list string) :
  fold_left ignore_line lines patterns
  = (patterns ++ fold_left ignore_line lines [])%list.
Proof.
  revert patterns. induction lines as [|l lines IH]; intros patterns; cbn.
  - rewrite app_nil_r. reflexivity.
  - rewrite IH, (IH (ignore_line [] l)). unfold ignore_line.
    destruct (Py.truthy (Py.strip l) && negb (Py.startswith (Py.strip l) "#"));
      [rewrite <- app_assoc|]; reflexivity.
Qed.

Lemma fold_backupignore_acc (lines : list string) (st : list string * list string) :
  fold_left backupignore_line lines st
  = ((fst st ++ fst (fold_left backupignore_line lines ([], [])))%list,
     (snd st ++ snd (fold_left backupignore_line lines ([], [])))%list).
Proof.
  revert st. induction lines as [|l lines IH]; intros [ex inc]; cbn [fold_left].
  - cbn. rewrite !app_nil_r. reflexivity.
  - rewrite IH, (IH (backupignore_line ([], []) l)). unfold backupignore_line.
    destruct (negb (Py.truthy (Py.strip l)) || Py.startswith (Py.strip l) "#");
      [reflexivity|].
    destruct (Py.startswith (Py.strip l) "!").
    + destruct (Py.truthy (Py.strip (Py.slice_from (Py.strip l) 1)));
        cbn; rewrite <- ?app_assoc; reflexivity.
    + cbn. rewrite <- ?app_assoc. reflexivity.
Qed.

(** X3 - The patterns that the two loaders return are never empty, carry
    no blank at either end, and the exclude patterns are no comment lines;
    an exclude pattern of [.backupignore] does not start with [!].  Read
    with [load_ignore_file], which knows no re-includes, the same text gives
    the excludes of [load_backupignore_split] and, between them, the [!]
    lines as patterns: dropping those leaves exactly the excludes.  A
    missing or unreadable file gives no pattern. *)
Theorem loaded_patterns_are_clean (path : string) (file : text_file) :
  let patterns := fst (load_ignore_file path file) in
  let excludes := fst (fst (load_backupignore_split path file)) in
  let includes := snd (fst (load_backupignore_split path file)) in
  Forall (fun p => p <> "" /\ Py.strip p = p /\ Py.startswith p "#" = false)
         patterns
  /\ Forall (fun p => p <> "" /\ Py.strip p = p /\ Py.startswith p "#" = false
                      /\ Py.startswith p "!" = false) excludes
  /\ Forall (fun p => p <> "" /\ Py.strip p = p) includes
  /\ filter (fun p => negb (Py.startswith p "!")) patterns = excludes
  /\ ((forall content, file <> Content content) ->
      patterns = [] /\ excludes = [] /\ includes = []).
Proof.
  cbv zeta.
  destruct file as [|e|content];
    try (cbn; repeat split; try constructor; reflexivity).
  split; [| split; [| split; [| split]]];
    try (intros H; exfalso; apply (H content); reflexivity);
    unfold load_ignore_file, load_backupignore_split; cbn [fst snd];
    induction (splitlines content) as [|l lines IH] using rev_ind;
    try (cbn; constructor; fail); try reflexivity;
    rewrite ?fold_left_app; cbn [fold_left].
  - unfold ignore_line at 1.
    destruct (Py.truthy (Py.strip l)) eqn:T; [|exact IH].
    destruct (Py.startswith (Py.strip l) "#") eqn:C; [exact IH|].
    cbn [negb andb]. apply Forall_app. split; [exact IH|].
    constructor; [|constructor].
    split; [apply truthy_iff; exact T|]. split; [apply strip_idem | exact C].
  - destruct (fold_left backupignore_line lines ([], [])) as [ex inc].
    cbn [fst] in IH. unfold backupignore_line.
    destruct (Py.truthy (Py.strip l)) eqn:T; [|exact IH].
    destruct (Py.startswith (Py.strip l) "#") eqn:C; [exact IH|].
    cbn [negb orb].
    destruct (Py.startswith (Py.strip l) "!") eqn:B.
    + destruct (Py.truthy (Py.strip (Py.slice_from (Py.strip l) 1))); exact IH.
    + cbn [fst]. apply Forall_app. split; [exact IH|].
      constructor; [|constructor].
      split; [apply truthy_iff; exact T|]. split; [apply strip_idem|].
      split; assumption.
  - destruct (fold_left backupignore_line lines ([], [])) as [ex inc].
    cbn [snd] in IH. unfold backupignore_line.
    destruct (Py.truthy (Py.strip l)) eqn:T; [|exact IH].
    destruct (Py.startswith (Py.strip l) "#") eqn:C; [exact IH|].
    cbn [negb orb].
    destruct (Py.startswith (Py.strip l) "!") eqn:B; [|exact IH].
    destruct (Py.truthy (Py.strip (Py.slice_from (Py.strip l) 1))) eqn:T';
      [|exact IH].
    cbn [snd]. apply Forall_app. split; [exact IH|].
    constructor; [|constructor].
    split; [apply truthy_iff; exact T' | apply strip_idem].
  - destruct (fold_left backupignore_line lines ([], [])) as [ex inc].
    cbn [fst] in IH. unfold ignore_line at 1, backupignore_line.
    destruct (Py.truthy (Py.strip l)) eqn:T; [|exact IH].
    destruct (Py.startswith (Py.strip l) "#") eqn:C; [exact IH|].
    cbn [negb andb orb]. rewrite filter_app, IH. cbn [filter].
    destruct (Py.startswith (Py.strip l) "!") eqn:B; cbn [negb].
    + rewrite app_nil_r.
      destruct (Py.truthy (Py.strip (Py.slice_from (Py.strip l) 1)));
        reflexivity.
    + reflexivity.
Qed.

Lemma loaded_patterns_are_clean_witness :
  (forall content, Missing <> Content content)
  /\ fst (load_ignore_file "global-ignore.txt" Missing) = [].
Proof.
  assert (H : forall content, Missing <> Content content) by discriminate.
  split; [exact H|].
  destruct (loaded_patterns_are_clean "global-ignore.txt" Missing)
    as (_ & _ & _ & _ & E).
  exact (proj1 (E H)).
Defined.

(** ** [split_remote_base], [prompt_yes_no] *)

Lemma slice_from_append (a b : string) :
  Py.slice_from (a ++ b) (String.length a) = b.
Proof.
  unfold Py.slice_from. rewrite chars_append.
  replace (String.length a) with (List.length (Py.chars a) + 0)%nat.
  - rewrite skipn_app, skipn_all2 by lia.
    replace (List.length (Py.chars a) + 0 - List.length (Py.chars a))%nat
      with 0%nat by lia.
    cbn. apply of_chars_chars.
  - unfold Py.chars. induction a; cbn; [reflexivity|]. rewrite <- IHa. lia.
Qed.

(** X4 - [split_remote_base] takes a base apart without loss: a tilde
    path is [~] or [~/] followed by the rest it returns, and the rest of any
    other base is the base itself.  Only [~] and what starts with [~/] are
    tilde paths, so [~user/backups] is not one; [~] and [~/] both give the
    empty rest. *)
Theorem split_remote_base_spec (base : string) :
  let '(is_tilde, rest) := split_remote_base base in
  (is_tilde = true ->
   (base = "~" /\ rest = "") \/ base = "~/" ++ rest)
  /\ (is_tilde = false ->
      rest = base /\ base <> "~" /\ Py.startswith base "~/" = false)
  /\ (is_tilde = true <-> base = "~" \/ exists r, base = "~/" ++ r)
  /\ (rest = "" -> is_tilde = true -> base = "~" \/ base = "~/").
Proof.
  unfold split_remote_base.
  destruct (String.eqb_spec base "~") as [->|N].
  - repeat split; try discriminate; auto.
  - destruct (Py.startswith base "~/") eqn:P.
    + apply prefix_iff in P. destruct P as (r & ->).
      change (Py.slice_from ("~/" ++ r) 2)
        with (Py.slice_from ("~/" ++ r) (String.length "~/")).
      rewrite (slice_from_append "~/" r).
      repeat split; try discriminate; auto.
      * intros _. right. exists r. reflexivity.
      * intros -> _. right. reflexivity.
    + repeat split; try discriminate; auto.
      intros [E | (r & E)]; [contradiction|].
      subst base. unfold Py.startswith in P.
      rewrite (prefix_append "~/" r) in P. discriminate.
Qed.



(** ** The target directory *)

Lemma rstrip_char_snoc (s : string) (c : ascii) :
  Py.rstrip_char (s ++ String c "") c = Py.rstrip_char s c.
Proof.
  unfold Py.rstrip_char. rewrite chars_append.
  change (Py.chars (String c "")) with [c].
  rewrite rev_app_distr. cbn [rev app Py.dropwhile].
  rewrite Ascii.eqb_refl. reflexivity.
Qed.

Lemma split_remote_base_tilde (rest : string) :
  split_remote_base ("~/" ++ rest) = (true, rest).
Proof.
  unfold split_remote_base.
  change ("~/" ++ rest =? "~")%string with false.
  unfold Py.startswith. rewrite prefix_append.
  change 2%nat with (String.length "~/"). rewrite slice_from_append.
  reflexivity.
Qed.

Lemma split_remote_base_cases (base : string) :
  (base = "~" /\ split_remote_base base = (true, ""))
  \/ (exists rest, base = "~/" ++ rest /\ split_remote_base base = (true, rest))
  \/ (base <> "~" /\ Py.startswith base "~/" = false
      /\ split_remote_base base = (false, base)).
Proof.
  destruct (String.eqb_spec base "~") as [->|N]; [left; split; reflexivity|].
  right. destruct (Py.startswith base "~/") eqn:P.
  - left. unfold Py.startswith in P. apply prefix_iff in P.
    destruct P as (rest & ->). exists rest.
    split; [reflexivity | apply split_remote_base_tilde].
  - right. split; [exact N|]. split; [reflexivity|].
    unfold split_remote_base. rewrite P.
    apply String.eqb_neq in N. rewrite N. reflexivity.
Qed.

(** The two listings do not see a slash added to the base, the base [~/]
    apart. *)
Lemma listings_ignore_slash (r : Remote) (base prefix : string) :
  base <> "~/" ->
  ssh_list_all r (base ++ "/") = ssh_list_all r base
  /\ ssh_list_siblings r (base ++ "/") prefix = ssh_list_siblings r base prefix.
Proof.
  intros Hb.
  destruct (split_remote_base_cases base)
    as [(-> & _) | [(rest & -> & E) | (N & P & E)]].
  - split; reflexivity.
  - assert (Hr : rest <> "") by (intros ->; apply Hb; reflexivity).
    change (("~/" ++ rest) ++ "/") with ("~/" ++ (rest ++ "/")).
    unfold ssh_list_all, ssh_list_siblings.
    rewrite E, (split_remote_base_tilde (rest ++ "/")).
    assert (T1 : Py.truthy rest = true) by (apply truthy_iff; exact Hr).
    assert (T2 : Py.truthy (rest ++ "/") = true)
      by (apply truthy_iff; destruct rest; discriminate).
    rewrite T1, T2, (rstrip_char_snoc rest "/"). split; reflexivity.
  - assert (E' : split_remote_base (base ++ "/") = (false, base ++ "/")).
    { unfold split_remote_base.
      assert (N' : (base ++ "/" =? "~")%string = false).
      { apply String.eqb_neq. destruct base as [|c [|d b]]; discriminate. }
      rewrite N'.
      destruct (Py.startswith (base ++ "/") "~/") eqn:P'; [|reflexivity].
      exfalso. unfold Py.startswith in P, P'.
      apply prefix_iff in P'. destruct P' as (x & Ex).
      destruct base as [|c [|d b]].
      - discriminate Ex.
      - injection Ex as -> _. apply N. reflexivity.
      - injection Ex as -> -> _.
        pose proof (prefix_append "~/" b) as Q.
        change ("~/" ++ b) with (String "~" (String "/" b)) in Q.
        rewrite Q in P. discriminate P. }
    unfold ssh_list_all, ssh_list_siblings.
    rewrite E, E', (rstrip_char_snoc base "/"). split; reflexivity.
Qed.

(** X6 - A slash added at the end of the remote base does not matter,
    unless the base is [~/]: the target block gives the same result, with
    the same output, for [<base>/] as for [<base>], since the exact
    directory and the two listing scripts are the same.  For [~/] they are
    not: [ssh_list_all] lists [.] for [~/] and the empty path for [~//],
    so the outcome can differ.  The path of a name under the base has
    exactly one slash between what is left of the base and the name. *)
Theorem trailing_slash_of_base_ignored (r : Remote)
    (remote_base folder_name suffix time_suffix snapshot_mode : string)
    (args : Args) :
  (remote_base <> "~/" ->
   determine_target r (remote_base ++ "/") folder_name suffix time_suffix
                    snapshot_mode args
   = determine_target r remote_base folder_name suffix time_suffix
                      snapshot_mode args)
  /\ (let home :=
        mk_Remote (fun _ => false)
          (fun script =>
             if (script =? "cd ~ && ls -1 . 2>/dev/null || true")%string
             then Some (0, "app_a1b2c3d4_2025-01-15.old" ++ newline)
             else Some (0, "")) in
      fst (determine_target home "~/" "app" "a1b2c3d4" "_2025-01-15" "daily"
                            no_flags (world []))
      = Ok (Target "~/app_a1b2c3d4_2025-01-15.old")
      /\ fst (determine_target home "~//" "app" "a1b2c3d4" "_2025-01-15" "daily"
                               no_flags (world []))
         = Ok (Target "~/app_a1b2c3d4_2025-01-15"))
  /\ (forall name, remote_path (remote_base ++ "/") name
                   = remote_path remote_base name)
  /\ (forall name,
         exists stem, remote_path remote_base name = stem ++ "/" ++ name
                      /\ Py.startswith remote_base stem = true
                      /\ forall rest, stem <> rest ++ "/").
Proof.
  split; [| split; [| split]].
  - intros Hb. unfold determine_target.
    destruct (listings_ignore_slash r remote_base folder_name Hb) as (-> & ->).
    rewrite (rstrip_char_snoc remote_base "/"). reflexivity.
  - cbv zeta. split; vm_compute; reflexivity.
  - intros name. unfold remote_path. rewrite (rstrip_char_snoc remote_base "/").
    reflexivity.
  - intros name. exists (Py.rstrip_char remote_base "/").
    split; [reflexivity|].
    unfold Py.rstrip_char, Py.startswith.
    assert (Hp : exists k, rev (Py.chars remote_base)
                           = (k ++ Py.dropwhile (Ascii.eqb "/")
                                     (rev (Py.chars remote_base)))%list).
    { induction (rev (Py.chars remote_base)) as [|c l IH]; [exists []; reflexivity|].
      cbn [Py.dropwhile]. destruct (Ascii.eqb "/" c).
      - destruct IH as (k & E). exists (c :: k). cbn [app]. f_equal. exact E.
      - exists []. reflexivity. }
    destruct Hp as (k & E).
    pose proof (dropwhile_head (Ascii.eqb "/") (rev (Py.chars remote_base))) as Hh.
    set (d := Py.dropwhile (Ascii.eqb "/") (rev (Py.chars remote_base))) in *.
    split.
    + apply prefix_iff. exists (Py.of_chars (rev k)).
      rewrite <- of_chars_app, <- rev_app_distr, <- E, rev_involutive.
      symmetry. apply of_chars_chars.
    + intros rest Er.
      apply (f_equal Py.chars) in Er. rewrite chars_of_chars, chars_append in Er.
      apply (f_equal (@rev ascii)) in Er.
      rewrite rev_involutive, rev_app_distr in Er. cbn in Er.
      rewrite Er in Hh. cbn in Hh. discriminate Hh.
Qed.

(** The base [~/pushback] with two slashes added, one after the other. *)
Lemma trailing_slash_of_base_ignored_witness :
  "~/pushback" <> "~/"
  /\ "~/pushback/" <> "~/"
  /\ determine_target (example_remote (fun _ => false) ["app_deadbeef"])
       "~/pushback//" "app" "a1b2c3d4" "" "none" no_flags
     = determine_target (example_remote (fun _ => false) ["app_deadbeef"])
         "~/pushback" "app" "a1b2c3d4" "" "none" no_flags.
Proof.
  assert (H1 : "~/pushback" <> "~/") by discriminate.
  assert (H2 : "~/pushback/" <> "~/") by discriminate.
  split; [exact H1|]. split; [exact H2|].
  destruct (trailing_slash_of_base_ignored
              (example_remote (fun _ => false) ["app_deadbeef"])
              "~/pushback/" "app" "a1b2c3d4" "" "none" no_flags) as (E2 & _).
  destruct (trailing_slash_of_base_ignored
              (example_remote (fun _ => false) ["app_deadbeef"])
              "~/pushback" "app" "a1b2c3d4" "" "none" no_flags) as (E1 & _).
  change ("~/pushback//") with ("~/pushback/" ++ "/").
  rewrite (E2 H2).
  change ("~/pushback/") with ("~/pushback" ++ "/").
  exact (E1 H1).
Defined.

Lemma last_in (s : string) (l : list string) : In (last (s :: l) "") (s :: l).
Proof.
  revert s. induction l as [|t l IH]; intros s; [left; reflexivity|].
  right. exact (IH t).
Qed.

(** X7 - Whatever the remote holds, the flags and the input, the target
    block ends in one of three ways.  It returns a directory under the
    base, which is the exact directory of the project or a name that
    [ssh_list_all] or [ssh_list_siblings] returned for this base, a line
    of what the remote printed; or it returns the code 1, only without snapshots, after
    a prompt that was shown because no force was set; or it raises
    [EOFError], only when the prompt found the input at its end.  No other
    directory, code or exception comes out of it. *)
Theorem target_is_exact_or_listed (r : Remote)
    (remote_base folder_name suffix time_suffix snapshot_mode : string)
    (args : Args) (w : World) :
  match determine_target r remote_base folder_name suffix time_suffix
                         snapshot_mode args w with
  | (Ok (Target d), _) =>
      d = remote_path remote_base (exact_name folder_name suffix time_suffix)
      \/ exists s, (In s (ssh_list_all r remote_base) \/ In s (ssh_list_siblings r remote_base folder_name))
                   /\ d = remote_path remote_base s
  | (Ok (Return code), w') =>
      code = 1 /\ snapshot_mode = "none"
      /\ force_all args = false /\ force_collision_new args = false
      /\ force_collision_update args = false
      /\ exists line, stdin w = line :: stdin w'
  | (Raise e, _) => e = EOFError /\ stdin w = [] /\ snapshot_mode = "none"
  end.
Proof.
  destruct (ssh_test_dir r (remote_path remote_base
                              (exact_name folder_name suffix time_suffix))) eqn:X.
  { rewrite (determine_target_exact _ _ _ _ _ snapshot_mode args w X).
    left. reflexivity. }
  unfold determine_target.
  unfold remote_path, exact_name, base_name in X. rewrite X.
  destruct (String.eqb_spec snapshot_mode "none") as [->|N]; cbn [negb].
  - destruct (filter _ (ssh_list_siblings r remote_base folder_name)) as [|s l] eqn:F;
      [left; reflexivity|].
    assert (Hin : forall x, In x (s :: l) -> In x (ssh_list_siblings r remote_base folder_name)).
    { intros x Hx. rewrite <- F in Hx. apply filter_In in Hx. apply Hx. }
    unfold bind at 1.
    destruct (force_all args || force_collision_new args
              || (force_all args || force_collision_update args)) eqn:Fc.
    + rewrite (handle_collision_forced (s :: l) args w Fc).
      destruct (force_all args || force_collision_new args).
      * cbn. unfold bind. rewrite silent_when_print. left. reflexivity.
      * cbn. unfold bind, last_item, ret. rewrite silent_when_print.
        right. exists (last (s :: l) ""). split; [|reflexivity].
        right. apply Hin. apply last_in.
    + destruct (stdin w) as [|line rest] eqn:In0.
      * destruct (handle_collision_eof (s :: l) args w Fc In0) as (w' & -> & _).
        repeat split.
      * rewrite (handle_collision_prompted (s :: l) args w line rest Fc In0).
        unfold decision.
        apply orb_false_elim in Fc. destruct Fc as (Fn & Fu).
        apply orb_false_elim in Fn. destruct Fn as (Fa & Fn).
        apply orb_false_elim in Fu. destruct Fu as (_ & Fu).
        destruct (Py.lower (Py.strip line) =? "u")%string.
        -- cbn. unfold bind, last_item, ret. rewrite silent_when_print.
           right. exists (last (s :: l) ""). split; [|reflexivity].
           right. apply Hin. apply last_in.
        -- destruct (Py.lower (Py.strip line) =? "c")%string.
           ++ cbn. unfold bind. rewrite silent_when_print. left. reflexivity.
           ++ cbn. repeat split; try assumption. exists line. reflexivity.
  - destruct (find_existing_snapshot (ssh_list_all r remote_base) (folder_name ++ "_" ++ suffix)
                time_suffix) as [x|] eqn:Fd.
    + assert (Hx : In x (ssh_list_all r remote_base)).
      { unfold find_existing_snapshot in Fd.
        destruct (negb (Py.truthy time_suffix));
          apply find_some in Fd; apply Fd. }
      destruct (Py.truthy x); unfold bind; rewrite silent_when_print.
      * right. exists x. split; [left; exact Hx | reflexivity].
      * left. reflexivity.
    + unfold bind. rewrite silent_when_print. left. reflexivity.
Qed.

(** The names are taken as the remote prints them: where [xargs] has cut
    the name [app_dead beef] in two lines, the second line is the last
    candidate, and a forced update goes to it. *)
Lemma update_goes_to_last_line :
  let r := mk_Remote (fun _ => false)
             (fun _ => Some (0, "app_dead" ++ newline ++ "beef" ++ newline)) in
  ssh_list_siblings r "~/pushback" "app" = ["app_dead"; "beef"]
  /\ fst (determine_target r "~/pushback" "app" "a1b2c3d4" "" "none"
                           (mk_Args false false true false) (world []))
     = Ok (Target "~/pushback/beef").
Proof. cbv zeta. split; vm_compute; reflexivity. Qed.

(** ** Ignoring a large file *)



(** ** One bucket for one unit of the calendar *)

Lemma YYYY_inj (a b : Z) :
  1000 <= a <= 9999 -> 1000 <= b <= 9999 -> YYYY a = YYYY b -> a = b.
Proof.
  intros Ha Hb E. rewrite <- !str_YYYY in E by assumption.
  apply str_inj. exact E.
Qed.

Lemma NN_inj (a b : Z) : 0 <= a <= 99 -> 0 <= b <= 99 -> NN a = NN b -> a = b.
Proof.
  intros Ha Hb E.
  assert (C : forall a, 0 <= a <= 99 ->
                        Py.str (100 + a) = String "1" (NN a)).
  { intros x Hx. apply String.eqb_eq.
    apply (forallb_range
             (fun x => (Py.str (100 + x) =? String "1" (NN x))%string) 0 100);
      [vm_compute; reflexivity | lia]. }
  assert (E' : Py.str (100 + a) = Py.str (100 + b))
    by (rewrite !C by assumption; rewrite E; reflexivity).
  apply str_inj in E'. lia.
Qed.

Section Buckets.

Variables now1 now2 : datetime.
Variable custom_hours : Z.
Hypothesis V1 : valid now1.
Hypothesis V2 : valid now2.
Hypothesis Y1 : 1000 <= year now1.
Hypothesis Y2 : 1000 <= year now2.

Let same (mode : string) : Prop :=
  get_time_suffix mode custom_hours now1 = get_time_suffix mode custom_hours now2.

Lemma valid_field_ranges :
  forall t, valid t ->
            1 <= year t <= 9999 /\ 0 <= month t <= 99 /\ 0 <= day t <= 99
            /\ 0 <= hour t <= 99.
Proof.
  intros t (Hy & Hm & Hd & Hh & _).
  pose proof (month_span (year t) (month t) Hm) as (_ & _ & M).
  repeat split; lia.
Qed.

Lemma calendar_buckets :
  (same "yearly" <-> year now1 = year now2)
  /\ (same "monthly" <-> year now1 = year now2 /\ month now1 = month now2)
  /\ (same "daily" <->
      year now1 = year now2 /\ month now1 = month now2 /\ day now1 = day now2)
  /\ (same "hourly" <->
      year now1 = year now2 /\ month now1 = month now2 /\ day now1 = day now2
      /\ hour now1 = hour now2).
Proof.
  subst same. cbv beta.
  destruct (calendar_suffix_forms now1 custom_hours V1 Y1) as (-> & -> & -> & ->).
  destruct (calendar_suffix_forms now2 custom_hours V2 Y2) as (-> & -> & -> & ->).
  destruct (valid_field_ranges now1 V1) as (A1 & A2 & A3 & A4).
  destruct (valid_field_ranges now2 V2) as (B1 & B2 & B3 & B4).
  assert (En : forall x y, 0 <= x <= 99 -> 0 <= y <= 99 ->
                           digit (x / 10) = digit (y / 10) ->
                           digit (x mod 10) = digit (y mod 10) -> x = y).
  { intros x y Hx Hy E1 E2. apply NN_inj; [assumption | assumption |].
    unfold NN. rewrite E1, E2. reflexivity. }
  assert (Yy : YYYY (year now1) = YYYY (year now2) -> year now1 = year now2)
    by (apply YYYY_inj; lia).
  split; [| split; [| split]].
  - split; [| intros ->; reflexivity].
    intros [= E1 E2 E3 E4]. apply Yy. unfold YYYY. congruence.
  - split; [| intros (-> & ->); reflexivity].
    intros [= E1 E2 E3 E4 E5 E6].
    split; [apply Yy; unfold YYYY; congruence | apply En; assumption].
  - split; [| intros (-> & -> & ->); reflexivity].
    intros [= E1 E2 E3 E4 E5 E6 E7 E8].
    split; [apply Yy; unfold YYYY; congruence|].
    split; apply En; assumption.
  - split; [| intros (-> & -> & -> & ->); reflexivity].
    intros [= E1 E2 E3 E4 E5 E6 E7 E8 E9 E10].
    split; [apply Yy; unfold YYYY; congruence|].
    split; [| split]; apply En; assumption.
Qed.

Lemma weekly_buckets : same "weekly" <-> monday_of now1 = monday_of now2.
Proof.
  subst same. cbv beta. unfold monday_of.
  destruct (isocalendar now1) as [[Ya Wa] Da] eqn:Ea.
  destruct (isocalendar now2) as [[Yb Wb] Db] eqn:Eb.
  destruct (weekly_suffix_of custom_hours now1 Ya Wa Da V1 Y1 Ea)
    as (-> & RYa & RWa).
  destruct (weekly_suffix_of custom_hours now2 Yb Wb Db V2 Y2 Eb)
    as (-> & RYb & RWb).
  destruct (isocalendar_iso8601 now1 V1 _ _ _ Ea) as (_ & Ha & Wa').
  destruct (isocalendar_iso8601 now2 V2 _ _ _ Eb) as (_ & Hb & Wb').
  unfold weekday in *.
  split.
  - intros [= E1 E2 E3 E4 E5 E6].
    assert (Ya = Yb) by (apply YYYY_inj; [lia | lia |]; unfold YYYY; congruence).
    assert (Wa = Wb) by (apply NN_inj; [lia | lia |]; unfold NN; congruence).
    subst Yb Wb. rewrite ymd2ord_jan1 in *.
    generalize dependent (_days_before_year Ya).
    generalize dependent (toordinal now1). generalize dependent (toordinal now2).
    intros. zify_div.
  - intros Em. rewrite Em in Ha, Wa'.
    assert (Ya = Yb) by (exact (year_unique _ _ _ Ha Hb)).
    subst Yb. rewrite Wa', Wb'. reflexivity.
Qed.

End Buckets.

(** X9 - In the calendar modes a bucket is one unit of the calendar: for
    two clock readings (with four-digit years) the [yearly] suffixes agree
    exactly when the years do, the [monthly] ones when year and month do,
    the [daily] ones when the dates do, and the [hourly] ones when date and
    hour do.  So two runs share a directory name only within one such
    unit. *)
Theorem calendar_bucket_is_one_unit (now1 now2 : datetime) (custom_hours : Z) :
  valid now1 -> valid now2 -> 1000 <= year now1 -> 1000 <= year now2 ->
  (get_time_suffix "yearly" custom_hours now1
   = get_time_suffix "yearly" custom_hours now2
   <-> year now1 = year now2)
  /\ (get_time_suffix "monthly" custom_hours now1
      = get_time_suffix "monthly" custom_hours now2
      <-> year now1 = year now2 /\ month now1 = month now2)
  /\ (get_time_suffix "daily" custom_hours now1
      = get_time_suffix "daily" custom_hours now2
      <-> year now1 = year now2 /\ month now1 = month now2
          /\ day now1 = day now2)
  /\ (get_time_suffix "hourly" custom_hours now1
      = get_time_suffix "hourly" custom_hours now2
      <-> year now1 = year now2 /\ month now1 = month now2
          /\ day now1 = day now2 /\ hour now1 = hour now2).
Proof.
  intros V1 V2 Y1 Y2. exact (calendar_buckets now1 now2 custom_hours V1 V2 Y1 Y2).
Qed.

Lemma calendar_bucket_is_one_unit_witness :
  valid t_2025_01_15 /\ valid (mk_datetime 2025 1 15 23 59 59 1736985599)
  /\ 1000 <= year t_2025_01_15
  /\ get_time_suffix "daily" 24 t_2025_01_15
     = get_time_suffix "daily" 24 (mk_datetime 2025 1 15 23 59 59 1736985599).
Proof.
  assert (V1 : valid t_2025_01_15)
    by (unfold valid; repeat split; apply Z.leb_le; reflexivity).
  assert (V2 : valid (mk_datetime 2025 1 15 23 59 59 1736985599))
    by (unfold valid; repeat split; apply Z.leb_le; reflexivity).
  assert (Y : 1000 <= 2025) by lia.
  split; [exact V1|]. split; [exact V2|]. split; [exact Y|].
  destruct (calendar_bucket_is_one_unit t_2025_01_15
              (mk_datetime 2025 1 15 23 59 59 1736985599) 24 V1 V2 Y Y)
    as (_ & _ & H & _).
  apply H. repeat split.
Defined.

(** X10 - In [weekly] mode a bucket is one ISO week, Monday to Sunday: two
    clock readings (with four-digit years) get the same suffix exactly when
    their dates have the same Monday before or on them, also across the
    turn of a year. *)
Theorem weekly_bucket_is_one_week (now1 now2 : datetime) (custom_hours : Z) :
  valid now1 -> valid now2 -> 1000 <= year now1 -> 1000 <= year now2 ->
  (get_time_suffix "weekly" custom_hours now1
   = get_time_suffix "weekly" custom_hours now2
   <-> monday_of now1 = monday_of now2).
Proof.
  intros V1 V2 Y1 Y2. exact (weekly_buckets now1 now2 custom_hours V1 V2 Y1 Y2).
Qed.

Lemma weekly_bucket_is_one_week_witness :
  valid (mk_datetime 2024 12 30 8 0 0 1735545600)
  /\ valid (mk_datetime 2025 1 5 20 0 0 1736107200)
  /\ 1000 <= 2024 /\ 1000 <= 2025
  /\ get_time_suffix "weekly" 24 (mk_datetime 2024 12 30 8 0 0 1735545600)
     = get_time_suffix "weekly" 24 (mk_datetime 2025 1 5 20 0 0 1736107200).
Proof.
  assert (V1 : valid (mk_datetime 2024 12 30 8 0 0 1735545600))
    by (unfold valid; repeat split; apply Z.leb_le; reflexivity).
  assert (V2 : valid (mk_datetime 2025 1 5 20 0 0 1736107200))
    by (unfold valid; repeat split; apply Z.leb_le; reflexivity).
  assert (Ya : 1000 <= 2024) by lia. assert (Yb : 1000 <= 2025) by lia.
  split; [exact V1|]. split; [exact V2|]. split; [exact Ya|]. split; [exact Yb|].
  apply (weekly_bucket_is_one_week _ _ 24 V1 V2 Ya Yb). reflexivity.
Defined.

(** ** LargeFileScanner: the whole walk *)

Lemma node_induction (P : node -> Prop) :
  (forall size, P (File size)) ->
  (forall entries, Forall (fun e => P (snd e)) entries -> P (Dir entries)) ->
  forall n, P n.
Proof.
  intros Hf Hd.
  refine (fix IH (n : node) : P n :=
            match n with
            | File size => Hf size
            | Dir entries =>
                Hd entries
                   ((fix go (l : list (string * node))
                       : Forall (fun e => P (snd e)) l :=
                       match l with
                       | [] => Forall_nil _
                       | e :: l' => Forall_cons e (IH (snd e)) (go l')
                       end) entries)
            end).
Qed.

Lemma walk_dir (min_bytes : Z) (ex inc : list string) (dirpath rel_dir : string)
    (entries : list (string * node)) :
  walk min_bytes ex inc dirpath rel_dir (Dir entries)
  = (keep <- keep_dirnames ex inc rel_dir entries ;;
     files <- yield_files min_bytes ex inc dirpath rel_dir entries ;;
     below <- subdirs_with (walk min_bytes ex inc) dirpath rel_dir entries keep ;;
     Ok (files ++ below)%list)%R.
Proof. reflexivity. Qed.

Lemma all_files_dir (dirpath rel_dir : string) (entries : list (string * node)) :
  all_files dirpath rel_dir (Dir entries)
  = (files_here dirpath rel_dir entries
     ++ below_with all_files dirpath rel_dir entries)%list.
Proof. reflexivity. Qed.

Lemma matches_any_ok (patterns : list string) (relpath : string) :
  exists b, matches_any patterns relpath = Ok b.
Proof.
  destruct (matches_any_loop_spec patterns (Py.replace relpath os_sep "/"))
    as (b & E & _).
  exists b. exact E.
Qed.

Section Scan.

Variable min_bytes : Z.
Variables ex inc : list string.

Lemma skipped_ok (rel : string) :
  exists b, skipped ex inc rel = Ok b /\ (ex = [] -> b = false).
Proof.
  unfold skipped. destruct (matches_any_ok ex rel) as (b & E). rewrite E.
  cbn [rbind]. destruct b.
  - unfold is_included.
    destruct (matches_any_loop_spec inc (Py.replace rel os_sep "/")) as (i & -> & _).
    cbn [rbind]. eexists. split; [reflexivity|].
    intros ->. discriminate E.
  - exists false. split; reflexivity.
Qed.

Lemma pruned_ok (rel_dir dirname : string) :
  exists b, pruned ex inc rel_dir dirname = Ok b /\ (ex = [] -> b = false).
Proof.
  unfold pruned.
  destruct (matches_any_ok ex
              ((if Py.truthy rel_dir then os_path_join rel_dir dirname
                else dirname) ++ "/")) as (b & E).
  rewrite E. cbn [rbind]. destruct b.
  - unfold is_included.
    match goal with
    | |- context [matches_any_loop inc ?n] =>
        destruct (matches_any_loop_spec inc n) as (i & -> & _)
    end.
    cbn [rbind]. eexists. split; [reflexivity|].
    intros ->. discriminate E.
  - exists false. split; reflexivity.
Qed.

Lemma keep_dirnames_ok (rel_dir : string) (entries : list (string * node)) :
  exists keep,
    keep_dirnames ex inc rel_dir entries = Ok keep
    /\ List.length keep = List.length entries
    /\ (ex = [] -> keep = map (fun e => is_dir (snd e)) entries).
Proof.
  induction entries as [|[name n] entries IH]; cbn [keep_dirnames].
  - exists []. repeat split.
  - destruct IH as (keep & -> & L & A).
    destruct (pruned_ok rel_dir name) as (p & Ep & Pp).
    destruct (is_dir n) eqn:D.
    + rewrite Ep. cbn [rbind]. eexists. split; [reflexivity|].
      split; [cbn; rewrite L; reflexivity|].
      intros E. cbn [map snd]. rewrite D, (Pp E), (A E). reflexivity.
    + cbn [rbind]. eexists. split; [reflexivity|].
      split; [cbn; rewrite L; reflexivity|].
      intros E. cbn [map snd]. rewrite D, (A E). reflexivity.
Qed.

Lemma yield_files_ok (dirpath rel_dir : string) (entries : list (string * node)) :
  exists l,
    yield_files min_bytes ex inc dirpath rel_dir entries = Ok l
    /\ (forall rel full size,
           In (rel, full, size) l ->
           min_bytes <= size
           /\ In (rel, full, Some size) (files_here dirpath rel_dir entries))
    /\ (ex = [] -> l = large_ones min_bytes (files_here dirpath rel_dir entries)).
Proof.
  induction entries as [|[name [size|sub]] entries IH];
    cbn [yield_files files_here].
  - exists []. repeat split; contradiction.
  - destruct IH as (l & -> & S & A).
    destruct (skipped_ok (if Py.truthy rel_dir then os_path_join rel_dir name
                          else name)) as (b & -> & Hb).
    cbn [rbind].
    assert (keep_rest : forall rel full sz,
               In (rel, full, sz) l ->
               min_bytes <= sz
               /\ In (rel, full, Some sz)
                     ((rel_of rel_dir name, os_path_join dirpath name, size)
                      :: files_here dirpath rel_dir entries)).
    { intros rel full sz H. destruct (S rel full sz H) as (? & ?).
      split; [assumption | right; assumption]. }
    destruct b.
    + exists l. split; [reflexivity|]. split; [exact keep_rest|].
      intros E. discriminate (Hb E).
    + destruct size as [sz|].
      * destruct (Z.leb_spec min_bytes sz) as [Hle | Hlt].
        -- eexists. split; [reflexivity|]. split.
           ++ intros rel full s [[= <- <- <-] | Hr].
              ** split; [assumption | left; reflexivity].
              ** apply keep_rest. exact Hr.
           ++ intros E. cbn [large_ones flat_map].
              destruct (Z.leb_spec min_bytes sz); [|lia].
              cbn [app]. f_equal. exact (A E).
        -- exists l. split; [reflexivity|]. split; [exact keep_rest|].
           intros E. cbn [large_ones flat_map].
           destruct (Z.leb_spec min_bytes sz); [lia|]. exact (A E).
      * exists l. split; [reflexivity|]. split; [exact keep_rest|].
        intros E. cbn [large_ones flat_map]. exact (A E).
  - exact IH.
Qed.

Lemma large_ones_app (a b : list (string * string * option Z)) :
  large_ones min_bytes (a ++ b)
  = (large_ones min_bytes a ++ large_ones min_bytes b)%list.
Proof. apply flat_map_app. Qed.

Lemma walk_ok :
  forall n dirpath rel_dir,
  exists l,
    walk min_bytes ex inc dirpath rel_dir n = Ok l
    /\ (forall rel full size,
           In (rel, full, size) l ->
           min_bytes <= size
           /\ In (rel, full, Some size) (all_files dirpath rel_dir n))
    /\ (ex = [] -> l = large_ones min_bytes (all_files dirpath rel_dir n)).
Proof.
  induction n as [size|entries IH] using node_induction; intros dirpath rel_dir.
  - exists []. repeat split; contradiction.
  - rewrite walk_dir, all_files_dir.
    destruct (keep_dirnames_ok rel_dir entries) as (keep & -> & L & K).
    destruct (yield_files_ok dirpath rel_dir entries) as (files & -> & Sf & Af).
    cbn [rbind].
    assert (B : forall l keep,
               Forall (fun e =>
                         forall dirpath rel_dir,
                         exists l,
                           walk min_bytes ex inc dirpath rel_dir (snd e) = Ok l
                           /\ (forall rel full size,
                                  In (rel, full, size) l ->
                                  min_bytes <= size
                                  /\ In (rel, full, Some size)
                                        (all_files dirpath rel_dir (snd e)))
                           /\ (ex = [] ->
                               l = large_ones min_bytes
                                     (all_files dirpath rel_dir (snd e)))) l ->
               exists below,
                 subdirs_with (walk min_bytes ex inc) dirpath rel_dir l keep
                 = Ok below
                 /\ (forall rel full size,
                        In (rel, full, size) below ->
                        min_bytes <= size
                        /\ In (rel, full, Some size)
                              (below_with all_files dirpath rel_dir l))
                 /\ (keep = map (fun e => is_dir (snd e)) l ->
                     ex = [] ->
                     below = large_ones min_bytes
                               (below_with all_files dirpath rel_dir l))).
    { clear. induction l as [|[name sub] l IHl]; intros keep F.
      - exists []. repeat split; try contradiction.
      - inversion_clear F as [|? ? Hsub Hl]. cbn [snd] in Hsub.
        destruct keep as [|k keep'].
        + exists []. repeat split; try contradiction. discriminate.
        + cbn [subdirs_with below_with].
          destruct (IHl keep' Hl) as (rest & Er & Sr & Ar).
          fold (subdirs_with (walk min_bytes ex inc) dirpath rel_dir) in *.
          fold (below_with all_files dirpath rel_dir) in *.
          destruct (Hsub (os_path_join dirpath name) (rel_of rel_dir name))
            as (here & Eh & Sh & Ah).
          unfold rel_of in Eh.
          destruct k.
          * rewrite Eh. cbn [rbind]. rewrite Er. cbn [rbind].
            eexists. split; [reflexivity|]. split.
            -- intros rel full size H. apply in_app_or in H.
               destruct H as [H | H].
               ++ destruct (Sh rel full size H) as (? & ?).
                  split; [assumption | apply in_or_app; left; assumption].
               ++ destruct (Sr rel full size H) as (? & ?).
                  split; [assumption | apply in_or_app; right; assumption].
            -- intros [= _ Ek] E. rewrite large_ones_app, (Ah E), (Ar Ek E).
               reflexivity.
          * cbn [rbind]. rewrite Er. cbn [rbind].
            eexists. split; [reflexivity|]. split.
            -- intros rel full size H. cbn [app] in H.
               destruct (Sr rel full size H) as (? & ?).
               split; [assumption | apply in_or_app; right; assumption].
            -- intros [= Ed Ek] E. cbn [snd] in Ed.
               destruct sub as [sz|sub']; [|discriminate Ed].
               cbn [all_files app]. cbn [app]. exact (Ar Ek E). }
    destruct (B entries keep IH) as (below & -> & Sb & Ab).
    cbn [rbind]. eexists. split; [reflexivity|]. split.
    + intros rel full size H. apply in_app_or in H. destruct H as [H | H].
      * destruct (Sf rel full size H) as (? & ?).
        split; [assumption | apply in_or_app; left; assumption].
      * destruct (Sb rel full size H) as (? & ?).
        split; [assumption | apply in_or_app; right; assumption].
    + intros E. rewrite large_ones_app, (Af E), (Ab (K E) E). reflexivity.
Qed.

End Scan.

(** X11 - The scan of the large files never raises, whatever the tree and
    the patterns.  Everything it yields is a file of the tree, with the
    relative and the full path the walk gives it, a size that could be
    read and that is at least [min_bytes]; files whose size cannot be read
    are left out.  Without exclude patterns it yields every such file of
    the tree, in the order of the walk. *)
Theorem scan_is_total_and_sound (root : string) (tree : node) (min_bytes : Z)
    (exclude_patterns include_patterns : list string) :
  exists found,
    iter_large_files root tree min_bytes exclude_patterns include_patterns
    = Ok found
    /\ (forall rel full_path size,
           In (rel, full_path, size) found ->
           min_bytes <= size
           /\ In (rel, full_path, Some size) (all_files root "" tree))
    /\ (exclude_patterns = [] ->
        found = large_ones min_bytes (all_files root "" tree)).
Proof. apply walk_ok. Qed.

(** ** [main]: the servers one after the other *)

Section MainLoopProofs.

Variable backup_to_server : string -> M Z.
Variable args : Args.
Variable many : bool.

(** The loop is the calls for the servers it tried, a part of the list
    from its start, and nothing more. *)
Lemma backup_servers_attempts (servers : list string) :
  forall ok successes failures w,
  exists tried later,
    servers = (tried ++ later)%list
    /\ match attempts backup_to_server tried many args w with
       | (Raise e, w1) =>
           backup_servers backup_to_server servers many args
                          (ok, successes, failures) w
           = (Raise e, w1)
       | (Ok codes, w1) =>
           let s := servers_with (fun c => c =? 0) tried codes in
           let f := servers_with (fun c => negb (c =? 0)) tried codes in
           backup_servers backup_to_server servers many args
                          (ok, successes, failures) w
           = (Ok (ok && match f with [] => true | _ => false end,
                  (successes ++ s)%list, (failures ++ f)%list), w1)
           /\ List.length codes = List.length tried
           /\ (force_all args = true -> later = [])
           /\ (force_all args = false ->
               Forall (fun c => c = 0) (removelast codes)
               /\ (later <> [] -> last codes 0 <> 0))
       end.
Proof.
  induction servers as [|x servers IH]; intros ok successes failures w.
  - exists [], []. split; [reflexivity|]. cbn.
    rewrite !app_nil_r, andb_true_r.
    split; [reflexivity|]. split; [reflexivity|]. split; [reflexivity|].
    intros _. split; [constructor | intros H; contradiction].
  - destruct (when (many && verbose args) (print "" ;;; print fifty_equals)%M w)
      as [[[]|e] w0] eqn:Es.
    2:{ exists [x], servers. split; [reflexivity|].
        cbn [attempts backup_servers]. unfold bind at 1. rewrite Es.
        unfold bind at 1. rewrite Es. reflexivity. }
    destruct (backup_to_server x w0) as [[code|e] w1] eqn:Ec.
    2:{ exists [x], servers. split; [reflexivity|].
        cbn [attempts backup_servers]. unfold bind at 1. rewrite Es.
        unfold bind at 1. rewrite Ec.
        unfold bind at 1. rewrite Es. unfold bind at 1. rewrite Ec.
        reflexivity. }
    assert (Hs :
               backup_servers backup_to_server (x :: servers) many args
                              (ok, successes, failures) w
               = (if code =? 0 then
                    backup_servers backup_to_server servers many args
                      (ok, (successes ++ [x])%list, failures)
                  else if negb (force_all args)
                       then ret (false, successes, (failures ++ [x])%list)
                       else backup_servers backup_to_server servers many args
                              (false, successes, (failures ++ [x])%list)) w1).
    { cbn [backup_servers]. unfold bind at 1. rewrite Es.
      unfold bind at 1. rewrite Ec. reflexivity. }
    assert (Ha : forall tried,
               attempts backup_to_server (x :: tried) many args w
               = match attempts backup_to_server tried many args w1 with
                 | (Ok codes, w2) => (Ok (code :: codes), w2)
                 | (Raise e, w2) => (Raise e, w2)
                 end).
    { intros tried. cbn [attempts]. unfold bind at 1. rewrite Es.
      unfold bind at 1. rewrite Ec. unfold bind at 1.
      destruct (attempts backup_to_server tried many args w1) as [[codes|e] w2];
        reflexivity. }
    rewrite Hs. clear Hs.
    destruct (Z.eqb_spec code 0) as [->|Nz].
    + destruct (IH ok (successes ++ [x])%list failures w1)
        as (tried & later & -> & H).
      exists (x :: tried), later. split; [reflexivity|]. rewrite Ha.
      destruct (attempts backup_to_server tried many args w1) as [[codes|e] w2];
        [|exact H].
      cbv zeta in H |- *. destruct H as (E & L & Hall & Hstop).
      unfold servers_with in E |- *. cbn [combine filter snd fst map Z.eqb negb].
      rewrite E, <- app_assoc.
      split; [reflexivity|]. split; [cbn; congruence|]. split; [exact Hall|].
      intros Fa. destruct (Hstop Fa) as (Hz & Hl). split.
      * destruct codes as [|c codes]; [constructor|].
        change (removelast (0 :: c :: codes)) with (0 :: removelast (c :: codes)).
        constructor; [reflexivity | exact Hz].
      * intros Hn. replace (last (0 :: codes) 0) with (last codes 0)
          by (destruct codes; reflexivity).
        exact (Hl Hn).
    + assert (Nb : (code =? 0) = false) by (apply Z.eqb_neq; exact Nz).
      destruct (force_all args) eqn:Fa; cbn [negb].
      * destruct (IH false successes (failures ++ [x])%list w1)
          as (tried & later & -> & H).
        exists (x :: tried), later. split; [reflexivity|]. rewrite Ha.
        destruct (attempts backup_to_server tried many args w1)
          as [[codes|e] w2]; [|exact H].
        cbv zeta in H |- *. destruct H as (E & L & Hall & _).
        unfold servers_with in E |- *. cbn [combine filter snd fst map].
        rewrite Nb. cbn [negb map fst]. rewrite E, <- app_assoc, andb_false_r.
        split; [reflexivity|]. split; [cbn; congruence|]. split; [exact Hall|].
        discriminate.
      * exists [x], servers. split; [reflexivity|]. rewrite Ha.
        cbn [attempts]. unfold ret. cbv zeta.
        unfold servers_with. cbn [combine filter snd fst map]. rewrite Nb.
        cbn [negb map fst]. rewrite andb_false_r, app_nil_r.
        split; [reflexivity|]. split; [reflexivity|]. split; [discriminate|].
        intros _. split; [constructor | intros _; exact Nz].
Qed.

End MainLoopProofs.

Lemma cleanup_two_files (include_path : option string) (exclude_path : string)
    (w : World) :
  cleanup_temp_files [include_path; Some exclude_path] w
  = (Ok tt, mk_World (stdin w) (trace w ++ unlinks include_path exclude_path)).
Proof.
  unfold cleanup_temp_files, unlinks. cbn [for_each]. unfold bind, emit, ret.
  destruct w as [i t]. cbn [stdin trace].
  destruct include_path as [p|]; [destruct (Py.truthy p)|];
    destruct (Py.truthy exclude_path); cbn [stdin trace app];
    rewrite <- ?app_assoc, ?app_nil_r; reflexivity.
Qed.

(** X12 - The loop of [main] over the servers is the calls for the servers
    it tried, in the order of the list and from its start, and nothing
    else.  With [--force-all] these are all the servers.  Without it every
    call but the last returned 0, and servers are left untried only after
    a call that returned another code: the loop stops at the first
    failure.  The temporary pattern files are then removed, right after
    the last call, also when a call raised, and the summary comes after
    that.  The exit code is 0 when no call failed, else 1. *)
Theorem servers_fail_closed (backup_to_server : string -> M Z)
    (servers : list string) (args : Args) (include_path : option string)
    (exclude_path : string) (w : World) :
  let many := (1 <? List.length servers)%nat in
  let after (w1 : World) (events : list event) :=
    mk_World (stdin w1) (trace w1 ++ events) in
  exists tried later,
    servers = (tried ++ later)%list
    /\ match attempts backup_to_server tried many args w with
       | (Raise e, w1) =>
           main_backup backup_to_server servers args include_path exclude_path w
           = (Raise e, after w1 (unlinks include_path exclude_path))
       | (Ok codes, w1) =>
           let successes := servers_with (fun c => c =? 0) tried codes in
           let failures := servers_with (fun c => negb (c =? 0)) tried codes in
           main_backup backup_to_server servers args include_path exclude_path w
           = (Ok (match failures with [] => 0 | _ => 1 end),
              after w1 (unlinks include_path exclude_path
                        ++ summary (List.length servers) successes failures)%list)
           /\ List.length codes = List.length tried
           /\ (force_all args = true -> later = [])
           /\ (force_all args = false ->
               Forall (fun c => c = 0) (removelast codes)
               /\ (later <> [] -> last codes 0 <> 0))
       end.
Proof.
  cbv zeta.
  destruct (backup_servers_attempts backup_to_server args
              (1 <? List.length servers)%nat servers true [] [] w)
    as (tried & later & Es & H).
  exists tried, later. split; [exact Es|].
  destruct (attempts backup_to_server tried (1 <? List.length servers)%nat args w)
    as [[codes|e] w1].
  - cbv zeta in H. destruct H as (E & L & Hall & Hstop).
    split; [| split; [exact L | split; [exact Hall | exact Hstop]]].
    unfold main_backup. unfold bind at 1. unfold try_finally.
    rewrite E, cleanup_two_files. cbn [andb app].
    unfold summary.
    destruct (servers_with (fun c => negb (c =? 0)) tried codes) as [|f fs].
    + destruct (1 <? List.length servers)%nat; cbn [when];
        unfold bind, print, emit, ret; cbn [stdin trace];
        rewrite <- ?app_assoc, ?app_nil_r; reflexivity.
    + destruct (1 <? List.length servers)%nat; cbn [when];
        [| unfold bind, ret; rewrite app_nil_r; reflexivity].
      destruct (servers_with (fun c => c =? 0) tried codes) as [|s ss];
        cbn [when]; unfold bind, print, eprint, emit, ret; cbn [stdin trace];
        rewrite <- ?app_assoc; reflexivity.
  - unfold main_backup. unfold bind at 1. unfold try_finally.
    rewrite H, cleanup_two_files. reflexivity.
Qed.

(** ** [main]: what to do with the large files *)

Lemma subsequence_refl {A : Type} (l : list A) : subsequence l l.
Proof. induction l; constructor; assumption. Qed.

Lemma subsequence_nil_l {A : Type} (l : list A) : subsequence [] l.
Proof. induction l; constructor; assumption. Qed.

Section LargeFilesProofs.

Variable sizeof_fmt : Z -> string.

Lemma list_large_files_quiet (large_files : list (string * string * Z)) :
  forall i w, exists evs,
    list_large_files sizeof_fmt i large_files w
    = (Ok tt, mk_World (stdin w) (trace w ++ evs)).
Proof.
  induction large_files as [|[[rel full] size] rest IH]; intros i w.
  - exists []. cbn. rewrite app_nil_r. destruct w; reflexivity.
  - cbn [list_large_files]. unfold bind, print, emit.
    destruct (IH (i + 1) (mk_World (stdin w) (trace w ++ [EvPrint
      ("  " ++ rjust2 (Py.str i) ++ ". " ++ rel ++ "  (" ++ sizeof_fmt size ++ ")")])))
      as (evs & E).
    rewrite E. cbn [stdin trace]. rewrite <- app_assoc.
    eexists. reflexivity.
Qed.

Lemma select_large_files_spec (large_files : list (string * string * Z)) :
  forall auto_ignores w found w',
    select_large_files sizeof_fmt large_files auto_ignores w = (Ok found, w') ->
    exists dropped,
      found = (auto_ignores ++ map auto_ignore dropped)%list
      /\ subsequence dropped (map (fun '(rel, _, _) => rel) large_files).
Proof.
  induction large_files as [|[[rel full] size] rest IH];
    intros auto_ignores w found w' E.
  - cbn in E. injection E as <- <-. exists []. rewrite app_nil_r.
    split; [reflexivity | constructor].
  - cbn [select_large_files] in E. unfold bind at 1 in E.
    destruct (prompt_yes_no _ false w) as [[keep|e] w1]; [|discriminate E].
    apply IH in E. destruct E as (dropped & -> & Hs).
    destruct keep; cbn [negb].
    + exists dropped. split; [reflexivity|]. cbn [map].
      apply subsequence_skip. exact Hs.
    + exists (rel :: dropped). rewrite <- app_assoc. split; [reflexivity|].
      cbn [map]. apply subsequence_take. exact Hs.
Qed.

End LargeFilesProofs.

(** X13 - The step of [main] for the large files only ever adds exclusions
    for files of the list it was given: the new exclude list is the old
    one followed by ["/" + rel] for some of the listed files, in their
    order.  The file [.backupignore] is either left as it is or gets
    exactly the block for those patterns appended, and that only when at
    least one file is dropped and the file can be opened.  With
    [--force-all] nothing is asked, no file is dropped and [.backupignore]
    stays as it is. *)
Theorem large_files_only_add_listed (sizeof_fmt : Z -> string) (root : string)
    (args : Args) (force_backupignore : bool) (large_file_mb : Z)
    (large_files : list (string * string * Z)) (exclude_patterns : list string)
    (backupignore : text_file) (append_error : option string)
    (w w' : World) (exclude_patterns' : list string) (backupignore' : text_file) :
  handle_large_files sizeof_fmt root args force_backupignore large_file_mb
                     large_files exclude_patterns backupignore append_error w
  = (Ok (exclude_patterns', backupignore'), w') ->
  exists dropped,
    subsequence dropped (map (fun '(rel, _, _) => rel) large_files)
    /\ exclude_patterns'
       = (exclude_patterns ++ map auto_ignore dropped)%list
    /\ (backupignore' = backupignore
        \/ (dropped <> [] /\ append_error = None
            /\ backupignore'
               = append_text backupignore
                   (backupignore_addition
                      (map auto_ignore dropped))))
    /\ (force_all args = true ->
        dropped = [] /\ backupignore' = backupignore /\ stdin w' = stdin w).
Proof.
  intros E. unfold handle_large_files in E.
  destruct large_files as [|item rest] eqn:Elf.
  - cbn in E. injection E as <- <- <-. exists []. rewrite app_nil_r.
    split; [constructor|]. split; [reflexivity|]. split; [left; reflexivity|].
    intros _. repeat split.
  - rewrite <- Elf in *. clear Elf item rest.
    unfold bind at 1 in E. unfold print at 1, emit at 1 in E.
    unfold bind at 1 in E.
    match type of E with
    | context [list_large_files _ 1 _ ?w0] =>
        destruct (list_large_files_quiet sizeof_fmt large_files 1 w0)
          as (evs & El); rewrite El in E
    end.
    cbn [stdin trace] in E.
    unfold bind at 1 in E. unfold print at 1, emit at 1 in E.
    cbn [stdin trace] in E.
    unfold bind at 1 in E.
    (* the patterns to add, and what reading them took from the input *)
    assert (Hauto : forall (m : M (list string)) w0 auto w1,
               m = (if negb (force_all args) then
                      (line <- input "Handle large files? (k=keep all / i=ignore all / s=select) [s]: " ;;
                       let answer := Py.lower (Py.strip line) in
                       let choice := if Py.truthy answer then answer else "s" in
                       if (choice =? "i")%string then
                         ret (map (fun '(rel, _, _) => auto_ignore rel) large_files)
                       else if (choice =? "s")%string then
                         select_large_files sizeof_fmt large_files []
                       else ret [])%M
                    else ret []) ->
               m w0 = (Ok auto, w1) ->
               exists dropped,
                 auto = map auto_ignore dropped
                 /\ subsequence dropped (map (fun '(rel, _, _) => rel) large_files)
                 /\ (force_all args = true -> dropped = [] /\ w1 = w0)).
    { intros m w0 auto w1 -> Em.
      destruct (force_all args); cbn [negb] in Em.
      - injection Em as <- <-. exists [].
        split; [reflexivity|]. split; [apply subsequence_nil_l|].
        intros _. split; reflexivity.
      - unfold bind at 1 in Em.
        destruct (input _ w0) as [[line|e] w2]; [|discriminate Em].
        cbv zeta in Em.
        destruct (_ =? "i")%string.
        + injection Em as <- <-.
          exists (map (fun '(rel, _, _) => rel) large_files).
          split; [|split; [apply subsequence_refl | discriminate]].
          rewrite map_map. apply map_ext. intros [[rel full] size]. reflexivity.
        + destruct (_ =? "s")%string.
          * apply select_large_files_spec in Em.
            destruct Em as (dropped & -> & Hs). exists dropped.
            split; [reflexivity|]. split; [exact Hs | discriminate].
          * injection Em as <- <-. exists [].
            split; [reflexivity|]. split; [apply subsequence_nil_l | discriminate]. }
    match type of E with
    | context [(if negb (force_all args) then ?a else ?b) ?w0] =>
        destruct ((if negb (force_all args) then a else b) w0)
          as [[auto|e] w1] eqn:Em; [|discriminate E];
        destruct (Hauto _ w0 auto w1 eq_refl Em) as (dropped & -> & Hs & Hf)
    end.
    clear Hauto Em. exists dropped. split; [exact Hs|].
    destruct dropped as [|d dropped].
    + cbn in E. injection E as <- <- <-. rewrite app_nil_r.
      split; [reflexivity|]. split; [left; reflexivity|].
      intros Fa. destruct (Hf Fa) as (_ & ->). repeat split.
    + assert (Fa : force_all args = false).
      { destruct (force_all args); [|reflexivity].
        destruct (Hf eq_refl) as (D & _). discriminate D. }
      cbn [map] in E. unfold bind at 1 in E.
      destruct ((if force_all args || force_backupignore then ret true
                 else prompt_yes_no _ true) w1) as [[should|e] w2];
        [|discriminate E].
      unfold bind at 1 in E.
      assert (Hw : forall r w3,
                 (if should then
                    match append_error with
                    | None =>
                        (print ("Updated " ++ os_path_join root ".backupignore") ;;;
                         ret (append_text backupignore
                                (backupignore_addition
                                   (auto_ignore d :: map auto_ignore dropped))))%M
                    | Some e =>
                        (eprint ("Warning: could not update .backupignore: " ++ e) ;;;
                         ret backupignore)%M
                    end
                  else ret backupignore) w2 = (r, w3) ->
                 r = Ok backupignore
                 \/ (append_error = None
                     /\ r = Ok (append_text backupignore
                                  (backupignore_addition
                                     (auto_ignore d :: map auto_ignore dropped))))).
      { intros r w3 Er. destruct should.
        - destruct append_error as [e|].
          + left. unfold bind, eprint, emit, ret in Er. congruence.
          + right. split; [reflexivity|].
            unfold bind, print, emit, ret in Er. congruence.
        - left. unfold ret in Er. congruence. }
      match type of E with
      | context [(if should then ?a else ?b) w2] =>
          destruct ((if should then a else b) w2) as [r w3] eqn:Er
      end.
      destruct (Hw r w3 eq_refl) as [-> | (Ea & ->)]; clear Hw;
        cbn in E; injection E as <- <- <-.
      * split; [reflexivity|]. split; [left; reflexivity|].
        intros Fa'. congruence.
      * split; [reflexivity|].
        split; [right; split; [discriminate | split; [exact Ea | reflexivity]]|].
        intros Fa'. congruence.
Qed.

(** A run of the step where the user chooses to select, keeps the first of
    two files and drops the second. *)
Lemma large_files_only_add_listed_witness :
  exists dropped,
    subsequence dropped ["a.bin"; "b/c.iso"]
    /\ ["/.git/"; "/b/c.iso"] = (["/.git/"] ++ map auto_ignore dropped)%list.
Proof.
  destruct (large_files_only_add_listed (fun _ => "1.0 GB") "/home/u/p"
              no_flags false 100
              [("a.bin", "/home/u/p/a.bin", 1073741824);
               ("b/c.iso", "/home/u/p/b/c.iso", 1073741824)]
              ["/.git/"] Missing None
              (world [""; "y"; ""; "n"]) _ _ _ ltac:(vm_compute; reflexivity))
    as (dropped & Hs & He & _).
  exists dropped. split; [exact Hs | exact He].
Defined.

(** ** [main]: which servers *)

Section ServersProofs.

Context {server_config : Type}.
Implicit Types (d remotes selected : list (string * server_config)).

Lemma dict_get_in remotes name config :
  dict_get remotes name = Some config -> In (name, config) remotes.
Proof.
  induction remotes as [|[k v] d IH]; cbn; [discriminate|].
  destruct (String.eqb_spec k name) as [->|_].
  - intros [= ->]. left. reflexivity.
  - intros H. right. apply IH, H.
Qed.

Lemma dict_get_none remotes name :
  dict_get remotes name = None -> ~ In name (map fst remotes).
Proof.
  induction remotes as [|[k v] d IH]; cbn; [tauto|].
  destruct (String.eqb_spec k name) as [->|N]; [discriminate|].
  intros H [E|I]; [exact (N E) | exact (IH H I)].
Qed.

Lemma dict_set_keys d key value :
  map fst (dict_set d key value)
  = if existsb (String.eqb key) (map fst d) then map fst d
    else (map fst d ++ [key])%list.
Proof.
  induction d as [|[k v] d IH]; cbn; [reflexivity|].
  rewrite (String.eqb_sym key k).
  destruct (String.eqb_spec k key) as [->|_]; cbn; [reflexivity|].
  rewrite IH. destruct (existsb _ _); reflexivity.
Qed.

Lemma dict_set_in d key value k v :
  In (k, v) (dict_set d key value) -> In (k, v) d \/ (k, v) = (key, value).
Proof.
  induction d as [|[k' v'] d IH]; cbn.
  - intros [E|[]]. right. symmetry. exact E.
  - destruct (String.eqb_spec k' key) as [->|_]; cbn.
    + intros [E|I]; [right; symmetry; exact E | left; right; exact I].
    + intros [E|I]; [left; left; exact E|].
      destruct (IH I) as [H|H]; [left; right; exact H | right; exact H].
Qed.

Lemma dict_set_nodup d key value :
  NoDup (map fst d) -> NoDup (map fst (dict_set d key value)).
Proof.
  intros H. rewrite dict_set_keys.
  destruct (existsb _ _) eqn:E; [exact H|].
  apply NoDup_app; [exact H | repeat constructor; intros [] |].
  intros x Hx [<-|[]].
  assert (existsb (String.eqb key) (map fst d) = true); [|congruence].
  apply existsb_exists. exists key. split; [exact Hx | apply String.eqb_refl].
Qed.

Lemma select_requested_spec (requested : list string) remotes :
  forall selected w,
    (forall k v, In (k, v) selected -> In (k, v) remotes) ->
    NoDup (map fst selected) ->
    match select_requested requested remotes selected w with
    | (Ok (inr selected'), w') =>
        w' = w
        /\ (forall k v, In (k, v) selected' -> In (k, v) remotes)
        /\ NoDup (map fst selected')
        /\ (forall name, In name (map fst selected')
                         <-> In name (map fst selected) \/ In name requested)
    | (Ok (inl code), w') =>
        code = 2
        /\ exists name, In name requested /\ ~ In name (map fst remotes)
             /\ trace w' = (trace w ++ [EvCall "eprint"
                  [("Error: server '" ++ name ++ "' not found in config")%string]])%list
    | (Raise _, _) => False
    end.
Proof.
  induction requested as [|name rest IH]; intros selected w Hsub Hnd.
  - cbn. split; [reflexivity|]. split; [exact Hsub|]. split; [exact Hnd|].
    intros name. cbn. tauto.
  - cbn [select_requested].
    destruct (dict_get remotes name) as [config|] eqn:G.
    + specialize (IH (dict_set selected name config) w).
      destruct (select_requested rest remotes _ w) as [[[code|selected']|e] w'].
      * destruct IH as (-> & n & Hn & Hr & Ht).
        -- intros k v I. destruct (dict_set_in _ _ _ _ _ I) as [H|[= -> ->]];
             [apply Hsub, H | apply dict_get_in, G].
        -- apply dict_set_nodup, Hnd.
        -- split; [reflexivity|]. exists n.
           split; [right; exact Hn|]. split; assumption.
      * destruct IH as (-> & Hs & Hd & Hm).
        -- intros k v I. destruct (dict_set_in _ _ _ _ _ I) as [H|[= -> ->]];
             [apply Hsub, H | apply dict_get_in, G].
        -- apply dict_set_nodup, Hnd.
        -- split; [reflexivity|]. split; [exact Hs|]. split; [exact Hd|].
           intros n. rewrite Hm, dict_set_keys.
           destruct (existsb _ _) eqn:Ex.
           ++ apply existsb_exists in Ex. destruct Ex as (y & Hy & Ey).
              apply String.eqb_eq in Ey. subst y. cbn [In].
              split; [tauto|]. intros [H|[<-|H]]; tauto.
           ++ rewrite in_app_iff. cbn [In]. tauto.
      * apply IH.
        -- intros k v I. destruct (dict_set_in _ _ _ _ _ I) as [H|[= -> ->]];
             [apply Hsub, H | apply dict_get_in, G].
        -- apply dict_set_nodup, Hnd.
    + unfold bind, eprint, emit, ret. cbn [trace].
      split; [reflexivity|]. exists name. split; [left; reflexivity|].
      split; [apply dict_get_none, G | reflexivity].
Qed.

(** X14 - The choice of the servers never raises.  When it goes through, it
    prints nothing, and every selected server is one of the configured
    ones, with its configuration, and is selected once.  With [--server]
    the names selected are the names asked for; a name that is not
    configured ends the run with the exit code 2 and a message.  Without
    [--server] the servers marked as default are taken, in the order of
    the configuration, and the run ends with 2 when there is none. *)
Theorem selected_servers_are_configured (is_default : server_config -> bool)
    (server : option string) remotes (w : World) :
  NoDup (map fst remotes) ->
  match select_servers is_default server remotes w with
  | (Ok (inr selected), w') =>
      w' = w
      /\ (forall name config, In (name, config) selected -> In (name, config) remotes)
      /\ NoDup (map fst selected)
      /\ match server with
         | Some (String c s) =>
             forall name, In name (map fst selected)
                          <-> In name (requested_servers (String c s))
         | _ =>
             selected = filter (fun '(name, config) => is_default config) remotes
             /\ selected <> []
         end
  | (Ok (inl code), w') =>
      code = 2
      /\ exists message, trace w' = (trace w ++ [EvCall "eprint" [message]])%list
      /\ match server with
         | Some (String c s) =>
             exists name, In name (requested_servers (String c s))
                          /\ ~ In name (map fst remotes)
         | _ => forall name config, In (name, config) remotes -> is_default config = false
         end
  | (Raise _, _) => False
  end.
Proof.
  intros Hnd. unfold select_servers.
  assert (Hdef :
    match
      (let selected_servers := filter (fun '(name, config) => is_default config) remotes in
       match selected_servers with
       | [] =>
           (eprint "Error: no default servers configured (set 'default = true' in config)" ;;;
            ret (inl 2))%M
       | _ => ret (inr selected_servers)
       end) w
    with
    | (Ok (inr selected), w') =>
        w' = w
        /\ (forall name config, In (name, config) selected -> In (name, config) remotes)
        /\ NoDup (map fst selected)
        /\ selected = filter (fun '(name, config) => is_default config) remotes
        /\ selected <> []
    | (Ok (inl code), w') =>
        code = 2
        /\ exists message, trace w' = (trace w ++ [EvCall "eprint" [message]])%list
        /\ forall name config, In (name, config) remotes -> is_default config = false
    | (Raise _, _) => False
    end).
  { cbv zeta.
    destruct (filter (fun '(name, config) => is_default config) remotes)
      as [|item rest] eqn:F.
    - unfold bind, eprint, emit, ret. cbn [trace].
      split; [reflexivity|]. eexists. split; [reflexivity|].
      intros name config I. destruct (is_default config) eqn:D; [|reflexivity].
      assert (In (name, config) []); [|contradiction].
      rewrite <- F. apply filter_In. split; [exact I | exact D].
    - unfold ret. rewrite <- F.
      split; [reflexivity|].
      split; [intros name config I; apply filter_In in I; apply I|].
      split.
      + clear F. induction remotes as [|[k v] d IH]; cbn; [constructor|].
        inversion Hnd as [|? ? Hk Hd]; subst.
        destruct (is_default v); cbn; [|apply IH, Hd].
        constructor; [|apply IH, Hd].
        intros I. apply Hk. apply in_map_iff in I.
        destruct I as ([k' v'] & E & I). cbn in E. subst k'.
        apply filter_In in I. apply in_map_iff. exists (k, v').
        split; [reflexivity | apply I].
      + split; [reflexivity|]. rewrite F. discriminate. }
  destruct server as [[|c s]|]; cbn [Py.truthy]; try exact Hdef.
  clear Hdef.
  pose proof (select_requested_spec (requested_servers (String c s)) remotes
                [] w (fun k v (I : In (k, v) []) => match I with end)
                (NoDup_nil _)) as H.
  destruct (select_requested _ remotes [] w) as [[[code|selected]|e] w'].
  - destruct H as (-> & name & Hn & Hr & Ht). split; [reflexivity|].
    eexists. split; [exact Ht|]. exists name. split; assumption.
  - destruct H as (-> & Hs & Hd & Hm). split; [reflexivity|].
    split; [exact Hs|]. split; [exact Hd|].
    intros name. rewrite Hm. cbn. tauto.
  - exact H.
Qed.

End ServersProofs.

(** Two servers asked for, one of them twice and with blanks around it. *)
Lemma selected_servers_are_configured_witness :
  NoDup (map fst [("main", true); ("nas", false); ("offsite", false)])
  /\ (world [] = world []
      /\ (forall name config,
             In (name, config) [("nas", false); ("main", true)] ->
             In (name, config) [("main", true); ("nas", false); ("offsite", false)])
      /\ NoDup (map fst [("nas", false); ("main", true)])
      /\ forall name, In name (map fst [("nas", false); ("main", true)])
                      <-> In name ["nas"; "main"; "nas"]).
Proof.
  assert (Hnd : NoDup (map fst [("main", true); ("nas", false); ("offsite", false)])).
  { repeat constructor; cbn; intros H; decompose [or] H; discriminate || assumption. }
  split; [exact Hnd|].
  exact (selected_servers_are_configured (fun b : bool => b)
           (Some " nas, main,,nas ")
           [("main", true); ("nas", false); ("offsite", false)] (world []) Hnd).
Defined.

(** ** [backup_to_server]: the [rsync] command *)

Lemma ends_with_slash_ne (s t : string) :
  last (Py.chars t) " "%char <> "/"%char -> s ++ "/" <> t.
Proof.
  intros H E. apply H. rewrite <- E, chars_append.
  change (Py.chars "/") with ["/"%char]. apply last_last.
Qed.

Lemma destination_ne (user host target t : string) :
  last (Py.chars t) " "%char <> "/"%char ->
  user ++ "@" ++ host ++ ":" ++ target ++ "/" <> t.
Proof.
  intros H E. apply H. rewrite <- E, !chars_append.
  change (Py.chars "/") with ["/"%char]. rewrite !app_assoc. apply last_last.
Qed.

Lemma prefixed_ne (p s t : string) : String.prefix p t = false -> p ++ s <> t.
Proof. intros H E. rewrite <- E, prefix_append in H. discriminate H. Qed.

Section RsyncProofs.

Variable shlex_split : string -> option (list string).

(** The command with its parts in the order in which [rsync] gets them. *)
Lemma rsync_command_form (home root remote_user remote_host : string)
    (remote_port : Z) (multiplex : bool)
    (include_path : option string) (exclude_path : string)
    (delete_remote dry_run stats : bool) (rsync_extra : string)
    (target_remote_dir : string) (cmd : list string) :
  rsync_command shlex_split home root remote_user remote_host remote_port
                multiplex include_path exclude_path delete_remote dry_run
                stats rsync_extra target_remote_dir = Some cmd ->
  exists extra_tokens,
    ((Py.truthy (Py.strip rsync_extra) = false /\ extra_tokens = [])
     \/ exists tokens,
          Py.truthy (Py.strip rsync_extra) = true
          /\ shlex_split rsync_extra = Some tokens
          /\ extra_tokens
             = filter (fun t => negb (t =? "-e")%string
                                && negb (Py.startswith t "-e")) tokens)
    /\ cmd
       = ("rsync" :: "-azP"
          :: (if delete_remote then ["--delete"] else [])
          ++ "--safe-links" :: "--prune-empty-dirs" :: "-e"
          :: ("ssh " ++ Py.join " " (ssh_base_opts home remote_port multiplex))%string
          :: match include_path with
             | Some p => if Py.truthy p then [("--include-from=" ++ p)%string] else []
             | None => []
             end
          ++ [("--exclude-from=" ++ exclude_path)%string]
          ++ (if dry_run then ["--dry-run"; "--itemize-changes"] else [])
          ++ (if stats then ["--stats"] else [])
          ++ extra_tokens
          ++ [(root ++ "/")%string;
              (remote_user ++ "@" ++ remote_host ++ ":" ++ target_remote_dir ++ "/")%string])%list.
Proof.
  unfold rsync_command. cbv zeta.
  destruct (Py.truthy (Py.strip rsync_extra)) eqn:T.
  - destruct (shlex_split rsync_extra) as [tokens|] eqn:S; [|discriminate].
    intros [= <-]. eexists. split.
    + right. exists tokens. split; [reflexivity|]. split; reflexivity.
    + destruct include_path as [p|]; [destruct (Py.truthy p)|];
        destruct delete_remote, dry_run, stats;
        cbn [app insert2 firstn skipn]; rewrite <- ?app_assoc;
        cbn [app]; reflexivity.
  - intros [= <-]. exists []. split.
    + left. split; reflexivity.
    + destruct include_path as [p|]; [destruct (Py.truthy p)|];
        destruct delete_remote, dry_run, stats;
        cbn [app insert2 firstn skipn]; reflexivity.
Qed.

End RsyncProofs.

(** X15 - The [rsync] command, when it is built: it starts with [rsync],
    and the source [root/] and the destination [user@host:target/] are its
    last two arguments, in this order.  The option [-e] occurs once, with
    the [ssh] command of the program as its value, whatever
    [--rsync-extra] holds.  [--delete] is in the command only when
    [DELETE_REMOTE] is set or [--rsync-extra] has it, and the exclude file
    is always passed. *)
Theorem rsync_command_shape (shlex_split : string -> option (list string))
    (home root remote_user remote_host : string)
    (remote_port : Z) (multiplex : bool)
    (include_path : option string) (exclude_path : string)
    (delete_remote dry_run stats : bool) (rsync_extra : string)
    (target_remote_dir : string) (cmd : list string) :
  rsync_command shlex_split home root remote_user remote_host remote_port
                multiplex include_path exclude_path delete_remote dry_run
                stats rsync_extra target_remote_dir = Some cmd ->
  (exists options,
      cmd = ("rsync" :: options
             ++ [(root ++ "/")%string;
                 (remote_user ++ "@" ++ remote_host ++ ":"
                  ++ target_remote_dir ++ "/")%string])%list)
  /\ (exists before after,
         cmd = (before
                ++ ["-e"; ("ssh " ++ Py.join " "
                             (ssh_base_opts home remote_port multiplex))%string]
                ++ after)%list
         /\ ~ In "-e" before /\ ~ In "-e" after)
  /\ (In "--delete" cmd ->
      delete_remote = true
      \/ exists tokens, shlex_split rsync_extra = Some tokens
                        /\ In "--delete" tokens)
  /\ In ("--exclude-from=" ++ exclude_path) cmd.
Proof.
  intros E. apply rsync_command_form in E.
  destruct E as (extra & Hextra & ->).
  assert (Hin : forall t, In t extra ->
                  exists tokens, shlex_split rsync_extra = Some tokens
                                 /\ In t tokens /\ t <> "-e").
  { intros t I. destruct Hextra as [(_ & ->)|(tokens & _ & S & ->)]; [destruct I|].
    apply filter_In in I. destruct I as (I & F).
    exists tokens. split; [exact S|]. split; [exact I|].
    intros ->. discriminate F. }
  set (ssh := ("ssh " ++ Py.join " " (ssh_base_opts home remote_port multiplex))%string).
  set (src := (root ++ "/")%string).
  set (dst := (remote_user ++ "@" ++ remote_host ++ ":" ++ target_remote_dir ++ "/")%string).
  set (inc := match include_path with
              | Some p => if Py.truthy p then [("--include-from=" ++ p)%string] else []
              | None => []
              end).
  assert (Hinc : forall t, In t inc -> exists p, t = "--include-from=" ++ p).
  { intros t I. subst inc. destruct include_path as [p|]; [|destruct I].
    destruct (Py.truthy p); [|destruct I].
    destruct I as [<-|[]]. exists p. reflexivity. }
  assert (Hssh : forall t, String.prefix "ssh " t = false -> ssh <> t)
    by (intros t; apply prefixed_ne).
  assert (Hsrc : forall t, last (Py.chars t) " "%char <> "/"%char -> src <> t)
    by (intros t; apply ends_with_slash_ne).
  assert (Hdst : forall t, last (Py.chars t) " "%char <> "/"%char -> dst <> t)
    by (intros t; apply destination_ne).
  clearbody ssh src dst inc.
  assert (Hdry : forall t, In t (if dry_run then ["--dry-run"; "--itemize-changes"] else [])
                           -> t = "--dry-run" \/ t = "--itemize-changes").
  { intros t I. destruct dry_run; cbn in I; intuition auto. }
  assert (Hstats : forall t, In t (if stats then ["--stats"] else []) -> t = "--stats").
  { intros t I. destruct stats; cbn in I; intuition auto. }
  split; [|split; [|split]].
  - exists ("-azP"
            :: (if delete_remote then ["--delete"] else [])
            ++ "--safe-links" :: "--prune-empty-dirs" :: "-e" :: ssh
            :: inc ++ [("--exclude-from=" ++ exclude_path)%string]
            ++ (if dry_run then ["--dry-run"; "--itemize-changes"] else [])
            ++ (if stats then ["--stats"] else [])
            ++ extra)%list.
    repeat first [rewrite <- app_assoc | rewrite <- app_comm_cons].
    reflexivity.
  - exists ("rsync" :: "-azP"
            :: (if delete_remote then ["--delete"] else [])
            ++ ["--safe-links"; "--prune-empty-dirs"])%list.
    eexists. split; [|split].
    + destruct delete_remote; cbn [app]; reflexivity.
    + destruct delete_remote; cbn; intros H; decompose [or] H;
        discriminate || assumption.
    + intros I.
      repeat first [rewrite in_app_iff in I | progress cbn [In] in I].
      destruct I as [I|[I|[I|[I|[I|[I|[I|[]]]]]]]].
      * destruct (Hinc _ I) as (p & Ep).
        exact (prefixed_ne "--include-from=" p "-e" eq_refl (eq_sym Ep)).
      * exact (prefixed_ne "--exclude-from=" exclude_path "-e" eq_refl I).
      * destruct (Hdry _ I); discriminate.
      * discriminate (Hstats _ I).
      * destruct (Hin _ I) as (_ & _ & _ & N). apply N. reflexivity.
      * apply (Hsrc "-e"); [vm_compute; discriminate | exact I].
      * apply (Hdst "-e"); [vm_compute; discriminate | exact I].
  - intros I. destruct delete_remote; [left; reflexivity|]. right.
    cbn [app] in I.
    repeat first [rewrite in_app_iff in I | progress cbn [In] in I].
    destruct I as [I|[I|[I|[I|[I|[I|I]]]]]]; try discriminate I.
    + destruct (Hssh "--delete" eq_refl I).
    + destruct I as [I|[I|[I|[I|[I|[I|[I|[]]]]]]]].
      * destruct (Hinc _ I) as (p & Ep).
        destruct (prefixed_ne "--include-from=" p "--delete" eq_refl (eq_sym Ep)).
      * destruct (prefixed_ne "--exclude-from=" exclude_path "--delete" eq_refl I).
      * destruct (Hdry _ I); discriminate.
      * discriminate (Hstats _ I).
      * destruct (Hin _ I) as (tokens & S & It & _). exists tokens.
        split; assumption.
      * destruct (Hsrc "--delete"); [vm_compute; discriminate | exact I].
      * destruct (Hdst "--delete"); [vm_compute; discriminate | exact I].
  - destruct delete_remote; cbn [app In]; rewrite !in_app_iff; cbn [In]; tauto.
Qed.

(** A command with [--delete] set and a [-e] in [--rsync-extra], which is
    taken out of what is passed on. *)
Lemma rsync_command_shape_witness :
  In "--exclude-from=/tmp/exc"
     ["rsync"; "-azP"; "--delete"; "--safe-links"; "--prune-empty-dirs"; "-e";
      "ssh -p 22"; "--exclude-from=/tmp/exc"; "--bwlimit=100";
      "/home/u/p/"; "u@h:backups/p_0123abcd/"].
Proof.
  exact (proj2 (proj2 (proj2
    (rsync_command_shape
       (fun _ => Some ["-e"; "--bwlimit=100"])
       "/home/u" "/home/u/p" "u" "h" 22 false None "/tmp/exc"
       true false false "-e --bwlimit=100" "backups/p_0123abcd" _ eq_refl)))).
Defined.

(** ** [create_rsync_files]: the exclude file *)

(** X16 - Every pattern to exclude is a line of the exclude file that
    [rsync] reads, and a built-in pattern is written once, also when the
    list of patterns holds it again, as the list that [main] passes does. *)
Theorem exclude_file_holds_every_pattern
    (exclude_patterns include_patterns : list string) (p : string) :
  let exclude_file := snd (create_rsync_files exclude_patterns include_patterns) in
  (In p exclude_patterns -> In p exclude_file)
  /\ (In p DEFAULT_EXCLUDES -> count_occ string_dec exclude_file p = 1%nat).
Proof.
  cbv zeta. unfold create_rsync_files. cbn [snd].
  set (remaining := filter (fun p => negb (existsb (String.eqb p) DEFAULT_EXCLUDES))
                           exclude_patterns).
  assert (Hrem : forall q, In q remaining
                           <-> In q exclude_patterns /\ ~ In q DEFAULT_EXCLUDES).
  { intros q. unfold remaining. rewrite filter_In. split; intros (I & H); split;
      try exact I.
    - intros D. apply Bool.negb_true_iff in H.
      assert (existsb (String.eqb q) DEFAULT_EXCLUDES = true); [|congruence].
      apply existsb_exists. exists q. split; [exact D | apply String.eqb_refl].
    - apply Bool.negb_true_iff. destruct (existsb _ _) eqn:X; [|reflexivity].
      apply existsb_exists in X. destruct X as (y & Iy & E).
      apply String.eqb_eq in E. subst y. contradiction. }
  clearbody remaining. split.
  - intros I. right. apply in_or_app.
    destruct (in_dec string_dec p DEFAULT_EXCLUDES) as [D|D]; [left; exact D|].
    right. assert (R : In p remaining) by (apply Hrem; split; assumption).
    destruct remaining; [destruct R | right; right; exact R].
  - intros D.
    change ("# Built-in excludes" :: DEFAULT_EXCLUDES
            ++ match remaining with
               | [] => []
               | _ :: _ => "" :: "# Additional excludes" :: remaining
               end)%list
      with (("# Built-in excludes" :: DEFAULT_EXCLUDES)
            ++ match remaining with
               | [] => []
               | _ :: _ => "" :: "# Additional excludes" :: remaining
               end)%list.
    rewrite count_occ_app.
    assert (T : count_occ string_dec
                  match remaining with
                  | [] => []
                  | _ :: _ => "" :: "# Additional excludes" :: remaining
                  end p = 0%nat).
    { apply count_occ_not_In. intros I.
      assert (I' : p = "" \/ p = "# Additional excludes" \/ In p remaining).
      { destruct remaining; [destruct I|].
        destruct I as [<-|[<-|I]]; auto. }
      destruct I' as [->|[->|I']].
      - cbn in D. decompose [or] D; discriminate || assumption.
      - cbn in D. decompose [or] D; discriminate || assumption.
      - apply Hrem in I'. destruct I' as (_ & N). exact (N D). }
    rewrite T, Nat.add_0_r. clear T Hrem.
    cbn [DEFAULT_EXCLUDES In] in D.
    decompose [or] D; try contradiction; subst p; vm_compute; reflexivity.
Qed.

(** The list that [main] passes when the global ignore file repeats a
    built-in pattern and adds one of its own. *)
Lemma exclude_file_holds_every_pattern_witness :
  In "/*.tmp" (snd (create_rsync_files (DEFAULT_EXCLUDES ++ ["/.git/"; "/*.tmp"]) []))
  /\ count_occ string_dec
       (snd (create_rsync_files (DEFAULT_EXCLUDES ++ ["/.git/"; "/*.tmp"]) []))
       "/.git/" = 1%nat.
Proof.
  destruct (exclude_file_holds_every_pattern
              (DEFAULT_EXCLUDES ++ ["/.git/"; "/*.tmp"]) [] "/*.tmp") as (H1 & _).
  destruct (exclude_file_holds_every_pattern
              (DEFAULT_EXCLUDES ++ ["/.git/"; "/*.tmp"]) [] "/.git/") as (_ & H2).
  split.
  - apply H1. apply in_or_app. right. right. left. reflexivity.
  - apply H2. left. reflexivity.
Defined.
